(** * PokerCraft results aggregator: a shallow embedding of [pokercraft.py]

    The development follows the layout of the script: the interpreter
    services the script leans on (exceptions, text, binary64 numbers, the
    [sum] builtin, [float()], [int()], [datetime.strptime],
    [csv.DictReader]), then the script's own functions under their own
    names, then the properties of the specification and of the code
    around it.

    Conventions.
    - A Python [str] is a [string]: the UTF-8 bytes of the text.  The
      character classes of the interpreter (white space, decimal digits)
      are modelled on the ASCII range.  Python counts the white space
      and the decimal digits of the other scripts too; a statement that
      would not survive them is made for texts of ASCII characters, with
      [ascii_text] as its hypothesis.
    - A Python [float] is a binary64 number, [spec_float] with precision
      53 and maximal exponent 1024, rounded to nearest even.
    - A Python exception is a value of [exn]; a computation that may raise
      returns a [result].
    - What the script prints is not part of the model; a file is what
      [open] and [csv.reader] make of it, a list of lines of cells. *)

From Stdlib Require Import ZArith List String Ascii Bool Lia SpecFloat.
From Stdlib Require Import Permutation.
Import ListNotations.

Local Open Scope string_scope.
Local Open Scope list_scope.
Local Open Scope Z_scope.

(* ================================================================= *)
(** ** Exceptions *)

Inductive exn : Set :=
  | ValueError
  | TypeError
  | AttributeError
  | ZeroDivisionError
  | OverflowError
  | KeyError
  | OSError.

Inductive result (A : Type) : Type :=
  | Ok (a : A)
  | Raise (e : exn).

Arguments Ok {A} a.
Arguments Raise {A} e.

Definition bind {A B : Type} (c : result A) (k : A -> result B) : result B :=
  match c with
  | Ok a => k a
  | Raise e => Raise e
  end.

Notation "x <- c ;; k" := (bind c (fun x => k))
  (at level 61, c at next level, right associativity).

(** [try: c except: d] is the bare [try ... except: ...] of the script. *)
Definition try_except {A : Type} (c : result A) (d : A) : A :=
  match c with
  | Ok a => a
  | Raise _ => d
  end.

(** The interpreter running the script.  Two of its services changed
    between CPython releases: [sum] over floats is compensated from 3.12
    on, and [int()] refuses texts of more than [int_max_str_digits]
    digits from 3.11 on (0 switches the limit off). *)
Record interp : Set := {
  sum_compensated : bool;
  int_max_str_digits : N
}.

Definition cpython310 : interp :=
  {| sum_compensated := false; int_max_str_digits := 0 |}.
Definition cpython312 : interp :=
  {| sum_compensated := true; int_max_str_digits := 4300 |}.

(* ================================================================= *)
(** ** Text *)

Definition code (c : ascii) : N := N_of_ascii c.

Definition is_digit (c : ascii) : bool :=
  ((48 <=? code c) && (code c <=? 57))%N.

Definition digit_val (c : ascii) : Z := Z.of_N (code c) - 48.

Definition in_range (lo hi : N) (c : ascii) : bool :=
  ((lo <=? code c) && (code c <=? hi))%N.

(** [str.isspace] on the ASCII range: TAB..CR, FS..US and the blank. *)
Definition is_space (c : ascii) : bool :=
  in_range 9 13 c || in_range 28 31 c || (code c =? 32)%N.

(** [Py_ISSPACE], the C-level class used by [float()] and [int()]. *)
Definition is_cspace (c : ascii) : bool :=
  in_range 9 13 c || (code c =? 32)%N.

Definition chars (s : string) : list ascii := list_ascii_of_string s.
Definition text (l : list ascii) : string := string_of_list_ascii l.

Fixpoint drop_while (p : ascii -> bool) (l : list ascii) : list ascii :=
  match l with
  | [] => []
  | c :: l' => if p c then drop_while p l' else l
  end.

Definition strip_with (p : ascii -> bool) (l : list ascii) : list ascii :=
  rev (drop_while p (rev (drop_while p l))).

(** [str.strip()] *)
Definition strip (s : string) : string := text (strip_with is_space (chars s)).

(** [str.replace(",", ".")] *)
Fixpoint replace_comma (s : string) : string :=
  match s with
  | EmptyString => EmptyString
  | String c s' =>
      String (if Ascii.eqb c "," then "."%char else c) (replace_comma s')
  end.

(** Truth value of a [str]: the empty text is false. *)
Definition truthy (s : string) : bool :=
  match s with
  | EmptyString => false
  | String _ _ => true
  end.

(** Truth value of an [Optional[str]]: [None] and the empty text are false. *)
Definition truthy_opt (o : option string) : bool :=
  match o with
  | None => false
  | Some s => truthy s
  end.

(** [a or b] on texts. *)
Definition str_or (a b : string) : string := if truthy a then a else b.

(* ================================================================= *)
(** ** Binary64 numbers *)

Definition float : Set := spec_float.

Definition prec : Z := 53.
Definition emax : Z := 1024.

Definition fadd : float -> float -> float := SFadd prec emax.
Definition fsub : float -> float -> float := SFsub prec emax.
Definition fmul : float -> float -> float := SFmul prec emax.
Definition fdiv : float -> float -> float := SFdiv prec emax.
Definition fabs : float -> float := SFabs.
Definition feqb : float -> float -> bool := SFeqb.
Definition fltb : float -> float -> bool := SFltb.
Definition fleb : float -> float -> bool := SFleb.

Definition fzero : float := S754_zero false.

(** Conversion of an [int], correctly rounded.  (The ints the script
    converts are 0, 100 and list lengths; the [OverflowError] of an int
    beyond the float range is out of their reach and is not modelled.) *)
Definition float_of_Z (z : Z) : float := binary_normalize prec emax z 0 false.

(** The correctly rounded quotient [s * m1 / m2] of two positive integers,
    scaled by [2 ^ e1]. *)
Definition round_quotient (s : bool) (m1 e1 m2 : Z) : float :=
  let '(q, e, l) := SFdiv_core_binary prec emax m1 e1 m2 0 in
  binary_round_aux prec emax s q e l.

Definition is_nan (f : float) : bool :=
  match f with S754_nan => true | _ => false end.

Definition is_finite (f : float) : bool :=
  match f with S754_zero _ | S754_finite _ _ _ => true | _ => false end.

Definition is_zero (f : float) : bool :=
  match f with S754_zero _ => true | _ => false end.

(** The sign bit says "negative" ([f < 0] or [f] is [-0.0]). *)
Definition sign_bit (f : float) : bool :=
  match f with
  | S754_zero s | S754_infinity s | S754_finite s _ _ => s
  | S754_nan => false
  end.

(** Exact comparison of a float with an integer, as [float.__lt__] and
    friends do when the other operand is an [int]. *)
Definition fcompare_Z (f : float) (z : Z) : option comparison :=
  match f with
  | S754_nan => None
  | S754_infinity s => Some (if s then Lt else Gt)
  | S754_zero _ => Some (0 ?= z)
  | S754_finite s m e =>
      let v := cond_Zopp s (Zpos m) in
      Some (if 0 <=? e then (v * 2 ^ e ?= z) else (v ?= z * 2 ^ (- e)))
  end.

(* ================================================================= *)
(** ** Python numbers: [int] and [float] under the mixed arithmetic *)

Inductive num : Set :=
  | PInt (z : Z)
  | PFloat (f : float).

Definition as_float (n : num) : float :=
  match n with
  | PInt z => float_of_Z z
  | PFloat f => f
  end.

Definition py_add (a b : num) : num :=
  match a, b with
  | PInt x, PInt y => PInt (x + y)
  | _, _ => PFloat (fadd (as_float a) (as_float b))
  end.

Definition py_sub (a b : num) : num :=
  match a, b with
  | PInt x, PInt y => PInt (x - y)
  | _, _ => PFloat (fsub (as_float a) (as_float b))
  end.

Definition py_mul (a b : num) : num :=
  match a, b with
  | PInt x, PInt y => PInt (x * y)
  | _, _ => PFloat (fmul (as_float a) (as_float b))
  end.

(** [a / b]: true division.  A zero divisor raises; two ints give the
    correctly rounded quotient. *)
Definition py_truediv (a b : num) : result num :=
  match a, b with
  | PInt x, PInt y =>
      if y =? 0 then Raise ZeroDivisionError
      else
        let s := xorb (x <? 0) (y <? 0) in
        if x =? 0 then Ok (PFloat (S754_zero s))
        else
          let q := round_quotient s (Z.abs x) 0 (Z.abs y) in
          if is_finite q then Ok (PFloat q) else Raise OverflowError
  | _, _ =>
      if is_zero (as_float b) then Raise ZeroDivisionError
      else Ok (PFloat (fdiv (as_float a) (as_float b)))
  end.

Definition py_compare (a b : num) : option comparison :=
  match a, b with
  | PInt x, PInt y => Some (x ?= y)
  | PFloat f, PInt y => fcompare_Z f y
  | PInt x, PFloat g => option_map CompOpp (fcompare_Z g x)
  | PFloat f, PFloat g => SFcompare f g
  end.

Definition py_lt (a b : num) : bool :=
  match py_compare a b with Some Lt => true | _ => false end.
Definition py_gt (a b : num) : bool :=
  match py_compare a b with Some Gt => true | _ => false end.
Definition py_le (a b : num) : bool :=
  match py_compare a b with Some (Lt | Eq) => true | _ => false end.
Definition py_ge (a b : num) : bool :=
  match py_compare a b with Some (Gt | Eq) => true | _ => false end.

(** Truth value of an [int]. *)
Definition int_truthy (z : Z) : bool := negb (z =? 0).

(* ================================================================= *)
(** ** [float(text)] and [int(text)] *)

Fixpoint span_digits (l : list ascii) : list ascii * list ascii :=
  match l with
  | c :: l' =>
      if is_digit c then let '(ds, r) := span_digits l' in (c :: ds, r)
      else ([], l)
  | [] => ([], [])
  end.

Definition digits_value (ds : list ascii) : Z :=
  fold_left (fun acc c => 10 * acc + digit_val c) ds 0.

Definition is_char (c d : ascii) : bool := Ascii.eqb c d.

(** Lower case of an ASCII letter, for the case-blind words. *)
Definition lower (c : ascii) : ascii :=
  if in_range 65 90 c then ascii_of_N (code c + 32) else c.

Fixpoint eq_nocase (l w : list ascii) : bool :=
  match l, w with
  | [], [] => true
  | c :: l', d :: w' => Ascii.eqb (lower c) d && eq_nocase l' w'
  | _, _ => false
  end.

(** The underscore pass of [float()]: an underscore is legal only between
    two digits, and is dropped. *)
Fixpoint drop_underscores (prev : ascii) (l : list ascii)
  : option (list ascii) :=
  match l with
  | [] => if is_char prev "_" then None else Some []
  | c :: l' =>
      if is_char c "_" then
        if is_digit prev then drop_underscores c l' else None
      else if is_char prev "_" && negb (is_digit c) then None
      else option_map (cons c) (drop_underscores c l')
  end.

(** An optional sign. *)
Definition split_sign (l : list ascii) : bool * list ascii :=
  match l with
  | c :: l' =>
      if is_char c "-" then (true, l')
      else if is_char c "+" then (false, l')
      else (false, l)
  | [] => (false, [])
  end.

(** The exponent part [e[+-]digits]; with no digit after the marker the
    marker itself is left unread. *)
Definition split_exponent (l : list ascii) : Z * list ascii :=
  match l with
  | c :: l' =>
      if is_char (lower c) "e" then
        let '(s, l'') := split_sign l' in
        let '(ds, r) := span_digits l'' in
        match ds with
        | [] => (0, l)
        | _ => (cond_Zopp s (digits_value ds), r)
        end
      else (0, l)
  | [] => (0, [])
  end.

(** The decimal number [d * 10 ^ e], correctly rounded. *)
Definition decimal_to_float (s : bool) (d e : Z) : float :=
  if 0 <=? e then
    match d * 10 ^ e with
    | Zpos m => binary_round prec emax s m 0
    | _ => S754_zero s
    end
  else round_quotient s d 0 (10 ^ (- e)).

(** The number grammar of [strtod] as the interpreter uses it: digits, an
    optional point and fraction, at least one digit in all, an optional
    exponent; the whole text must be read. *)
Definition parse_decimal (s : bool) (l : list ascii) : option float :=
  let '(ip, r1) := span_digits l in
  let '(fp, r2) :=
    match r1 with
    | c :: r => if is_char c "." then span_digits r else ([], r1)
    | [] => ([], r1)
    end in
  match ip ++ fp with
  | [] => None
  | ds =>
      let '(e, r3) := split_exponent r2 in
      match r3 with
      | [] => Some (decimal_to_float s (digits_value ds)
                      (e - Z.of_nat (List.length fp)))
      | _ => None
      end
  end.

Definition parse_float_body (l : list ascii) : option float :=
  let '(s, r) := split_sign l in
  if eq_nocase r (chars "inf") || eq_nocase r (chars "infinity")
  then Some (S754_infinity s)
  else if eq_nocase r (chars "nan") then Some S754_nan
  else parse_decimal s r.

(** [float(text)] *)
Definition float_of_string (s : string) : result float :=
  let l := chars s in
  let cleaned :=
    if existsb (fun c => is_char c "_") l
    then drop_underscores zero l else Some l in
  match cleaned with
  | None => Raise ValueError
  | Some l' =>
      match parse_float_body (strip_with is_cspace l') with
      | Some f => Ok f
      | None => Raise ValueError
      end
  end.

(** The digits of an [int] text: digits with single underscores between
    them.  Returns the digits without the underscores and the unread rest. *)
Fixpoint int_digits (prev : ascii) (l : list ascii)
  : option (list ascii * list ascii) :=
  match l with
  | c :: l' =>
      if is_char c "_" then
        if is_digit prev then int_digits c l' else None
      else if is_digit c then
        match int_digits c l' with
        | Some (ds, r) => Some (c :: ds, r)
        | None => None
        end
      else if is_char prev "_" then None else Some ([], l)
  | [] => if is_char prev "_" then None else Some ([], [])
  end.

Section Interpreter.

Variable py : interp.

(** [int(text)], base ten. *)
Definition int_of_string (s : string) : result Z :=
  let '(sg, r) := split_sign (drop_while is_cspace (chars s)) in
  match int_digits zero r with
  | Some (d :: ds, rest) =>
      let n := N.of_nat (List.length (d :: ds)) in
      if negb (int_max_str_digits py =? 0)%N && (int_max_str_digits py <? n)%N
      then Raise ValueError
      else
        match drop_while is_cspace rest with
        | [] => Ok (cond_Zopp sg (digits_value (d :: ds)))
        | _ => Raise ValueError
        end
  | _ => Raise ValueError
  end.

End Interpreter.

(* ================================================================= *)
(** ** [datetime] and [datetime.strptime] *)

(** A naive [datetime.datetime]. *)
Record datetime : Set := {
  year : Z;
  month : Z;
  day : Z;
  hour : Z;
  minute : Z;
  second : Z;
  microsecond : Z
}.

Fixpoint lex_compare (a b : list Z) : comparison :=
  match a, b with
  | x :: a', y :: b' =>
      match x ?= y with
      | Eq => lex_compare a' b'
      | c => c
      end
  | [], [] => Eq
  | [], _ :: _ => Lt
  | _ :: _, [] => Gt
  end.

Definition dt_fields (d : datetime) : list Z :=
  [year d; month d; day d; hour d; minute d; second d; microsecond d].

(** [a < b] and [a > b] on naive datetimes: field by field. *)
Definition dt_lt (a b : datetime) : bool :=
  match lex_compare (dt_fields a) (dt_fields b) with Lt => true | _ => false end.
Definition dt_gt (a b : datetime) : bool :=
  match lex_compare (dt_fields a) (dt_fields b) with Gt => true | _ => false end.
Definition dt_le (a b : datetime) : bool := negb (dt_gt a b).
Definition dt_ge (a b : datetime) : bool := negb (dt_lt a b).

Definition is_leap (y : Z) : bool :=
  (y mod 4 =? 0) && (negb (y mod 100 =? 0) || (y mod 400 =? 0)).

Definition days_in_month (y m : Z) : Z :=
  if m =? 2 then (if is_leap y then 29 else 28)
  else if (m =? 4) || (m =? 6) || (m =? 9) || (m =? 11) then 30
  else 31.

Definition between (lo x hi : Z) : bool := (lo <=? x) && (x <=? hi).

(** The range checks of the [datetime] constructor. *)
Definition datetime_new (y m d H M S : Z) : result datetime :=
  if between 1 y 9999 && between 1 m 12 && between 1 d (days_in_month y m)
     && between 0 H 23 && between 0 M 59 && between 0 S 59
  then Ok {| year := y; month := m; day := d;
             hour := H; minute := M; second := S; microsecond := 0 |}
  else Raise ValueError.

(** Midnight of a calendar day. *)
Definition midnight (y m d : Z) : datetime :=
  {| year := y; month := m; day := d;
     hour := 0; minute := 0; second := 0; microsecond := 0 |}.

(** The pieces of a format: the directives the script uses, a literal
    character, a run of white space. *)
Inductive directive : Set :=
  | DY | Dm | Dd | DH | DM | DS
  | DLit (c : ascii)
  | DSpace.

(** One character of a pattern. *)
Inductive cclass : Set :=
  | CDigit
  | CRange (lo hi : ascii)
  | CChar (c : ascii).

Definition in_class (k : cclass) (c : ascii) : bool :=
  match k with
  | CDigit => is_digit c
  | CRange lo hi => in_range (code lo) (code hi) c
  | CChar d => Ascii.eqb (lower c) (lower d)
  end.

(** The alternatives of a directive, in the order the pattern lists them. *)
Definition alternatives (d : directive) : list (list cclass) :=
  match d with
  | DY => [[CDigit; CDigit; CDigit; CDigit]]
  | Dm => [[CChar "1"; CRange "0" "2"]; [CChar "0"; CRange "1" "9"];
           [CRange "1" "9"]]
  | Dd => [[CChar "3"; CRange "0" "1"]; [CRange "1" "2"; CDigit];
           [CChar "0"; CRange "1" "9"]; [CRange "1" "9"];
           [CChar " "; CRange "1" "9"]]
  | DH => [[CChar "2"; CRange "0" "3"]; [CRange "0" "1"; CDigit]; [CDigit]]
  | DM => [[CRange "0" "5"; CDigit]; [CDigit]]
  | DS => [[CChar "6"; CRange "0" "1"]; [CRange "0" "5"; CDigit]; [CDigit]]
  | DLit c => [[CChar c]]
  | DSpace => []
  end.

Fixpoint match_classes (ks : list cclass) (l : list ascii)
  : option (list ascii * list ascii) :=
  match ks, l with
  | [], _ => Some ([], l)
  | k :: ks', c :: l' =>
      if in_class k c then
        match match_classes ks' l' with
        | Some (m, r) => Some (c :: m, r)
        | None => None
        end
      else None
  | _ :: _, [] => None
  end.

(** The ways a white-space run can be read, longest first. *)
Fixpoint space_runs (l : list ascii) : list (list ascii * list ascii) :=
  match l with
  | c :: l' =>
      if is_space c then
        map (fun mr => (c :: fst mr, snd mr)) (space_runs l') ++ [([c], l')]
      else []
  | [] => []
  end.

(** All the ways one directive can read a prefix, in backtracking order. *)
Definition match_directive (d : directive) (l : list ascii)
  : list (list ascii * list ascii) :=
  match d with
  | DSpace => space_runs l
  | _ =>
      flat_map (fun ks => match match_classes ks l with
                          | Some mr => [mr]
                          | None => []
                          end) (alternatives d)
  end.

(** All the ways the whole pattern can read a prefix, in backtracking
    order, with what each directive read and the unread rest. *)
Fixpoint match_pattern (ds : list directive) (l : list ascii)
  : list (list (directive * list ascii) * list ascii) :=
  match ds with
  | [] => [([], l)]
  | d :: ds' =>
      flat_map (fun mr =>
                  map (fun cr => ((d, fst mr) :: fst cr, snd cr))
                      (match_pattern ds' (snd mr)))
               (match_directive d l)
  end.

Definition directive_eqb (a b : directive) : bool :=
  match a, b with
  | DY, DY | Dm, Dm | Dd, Dd | DH, DH | DM, DM | DS, DS => true
  | _, _ => false
  end.

(** The number a directive read ([int] of the group), or the default. *)
Fixpoint group (d : directive) (dflt : Z) (cs : list (directive * list ascii))
  : Z :=
  match cs with
  | [] => dflt
  | (d', m) :: cs' =>
      if directive_eqb d d' then digits_value (filter is_digit m)
      else group d dflt cs'
  end.

(** Translation of a format text into its pattern. *)
Fixpoint compile_format (fmt : list ascii) : option (list directive) :=
  match fmt with
  | [] => Some []
  | c :: fmt' =>
      if is_char c "%" then
        match fmt' with
        | k :: fmt'' =>
            let d :=
              if is_char k "Y" then Some DY else if is_char k "m" then Some Dm
              else if is_char k "d" then Some Dd else if is_char k "H" then Some DH
              else if is_char k "M" then Some DM else if is_char k "S" then Some DS
              else None in
            match d, compile_format fmt'' with
            | Some d', Some ds => Some (d' :: ds)
            | _, _ => None
            end
        | [] => None
        end
      else
        match compile_format fmt' with
        | Some ds =>
            if is_space c then
              match ds with
              | DSpace :: _ => Some ds
              | _ => Some (DSpace :: ds)
              end
            else Some (DLit c :: ds)
        | None => None
        end
  end.

(** [datetime.strptime(text, fmt)]: the pattern must match a prefix, the
    first match in backtracking order must leave nothing unread, and the
    fields read must form a date and a time of day. *)
Definition strptime (s fmt : string) : result datetime :=
  match compile_format (chars fmt) with
  | None => Raise ValueError
  | Some ds =>
      match match_pattern ds (chars s) with
      | (cs, []) :: _ =>
          datetime_new (group DY 1900 cs) (group Dm 1 cs) (group Dd 1 cs)
                       (group DH 0 cs) (group DM 0 cs) (group DS 0 cs)
      | _ => Raise ValueError
      end
  end.

(* ================================================================= *)
(** ** Dictionaries and [csv.DictReader] *)

(** A [dict] with text keys: the entries in insertion order, at most one
    per key. *)
Definition dict (V : Type) : Type := list (string * V).

Section Dict.

Context {V : Type}.

Fixpoint dict_get (d : dict V) (k : string) : option V :=
  match d with
  | [] => None
  | (k', v) :: d' => if String.eqb k k' then Some v else dict_get d' k
  end.

(** [k in d] *)
Definition dict_mem (k : string) (d : dict V) : bool :=
  match dict_get d k with Some _ => true | None => false end.

(** [d[k] = v]: an existing key keeps its place, a new one goes last. *)
Fixpoint dict_set (d : dict V) (k : string) (v : V) : dict V :=
  match d with
  | [] => [(k, v)]
  | (k', v') :: d' =>
      if String.eqb k k' then (k', v) :: d' else (k', v') :: dict_set d' k v
  end.

(** [d[k]] *)
Definition dict_item (d : dict V) (k : string) : result V :=
  match dict_get d k with
  | Some v => Ok v
  | None => Raise KeyError
  end.

Definition dict_keys (d : dict V) : list string := map fst d.

End Dict.

(** What the underlying [csv.reader] hands over at each step: the cells
    of a line, or an exception (a decoding or a format error). *)
Inductive reader_event : Set :=
  | Line (cells : list string)
  | ReadError (e : exn).

(** A file as [open] and the reader see it. *)
Inductive csv_file : Set :=
  | Unreadable (e : exn)
  | Readable (events : list reader_event).

(** A row of [csv.DictReader]: a cell is a text, or [None] where the line
    was shorter than the header. *)
Definition row : Type := dict (option string).

(** The [dict] that [DictReader.__next__] builds from a line. *)
Definition dict_row (fieldnames cells : list string) : row :=
  let d := fold_left (fun d kv => dict_set d (fst kv) (Some (snd kv)))
                     (combine fieldnames cells) [] in
  fold_left (fun d k => dict_set d k None)
            (skipn (List.length cells) fieldnames) d.

(** [row.get(k)] *)
Definition row_get (r : row) (k : string) : option string :=
  match dict_get r k with
  | Some v => v
  | None => None
  end.

(** [row.get(k, default)] *)
Definition row_get_default (r : row) (k : string) (default : string)
  : option string :=
  match dict_get r k with
  | Some v => v
  | None => Some default
  end.

(** [value.strip()] on a cell: [None] has no such method. *)
Definition cell_strip (v : option string) : result string :=
  match v with
  | Some s => Ok (strip s)
  | None => Raise AttributeError
  end.

(* ================================================================= *)
(** ** The data model *)

Record TournamentRecord : Set := {
  date : datetime;
  tournament : option string;
  buyin_total : float;
  rake : float;
  prize : float;
  profit : float;
  placement : option Z;
  field_size : option Z;
  currency : string;
  t_type : string
}.

(** The mapping returned by [aggregate_overall]. *)
Module Overall.

Record t : Set := {
  total_tournaments : Z;
  total_buyin : num;
  total_prize : num;
  total_profit : num;
  roi_percent : num;
  itm_percent : num;
  abi : num
}.

End Overall.

(** The inner mapping of a group: the four running sums, then the same
    with the two derived entries. *)
Module Group.

Record sums : Set := {
  count : Z;
  buyin : num;
  prize : num;
  profit : num
}.

Record t : Set := {
  totals : sums;
  roi_percent : num;
  abi : num
}.

End Group.

(* ================================================================= *)
(** ** CSV parsing *)

Definition formats : list string :=
  ["%Y-%m-%d";
   "%Y-%m-%d %H:%M";
   "%Y-%m-%d %H:%M:%S";
   "%d.%m.%Y";
   "%d.%m.%Y %H:%M";
   "%d.%m.%Y %H:%M:%S"].

(** The [for fmt in formats: try: return ... except: pass] loop. *)
Fixpoint parse_date_loop (value : string) (fmts : list string)
  : option datetime :=
  match fmts with
  | [] => None
  | fmt :: fmts' =>
      match strptime (strip value) fmt with
      | Ok d => Some d
      | Raise _ => parse_date_loop value fmts'
      end
  end.

Definition parse_date (value : option string) : option datetime :=
  match value with
  | None => None
  | Some v => if negb (truthy v) then None else parse_date_loop v formats
  end.

Definition to_float (value : option string) : float :=
  match value with
  | None => fzero
  | Some v =>
      if String.eqb v "" then fzero
      else try_except (float_of_string (replace_comma v)) fzero
  end.

(* ================================================================= *)
(** ** The [sum] builtin *)

(** [sum] over floats up to CPython 3.11: plain additions. *)
Definition sum_loop_plain (f : float) (xs : list float) : float :=
  fold_left fadd xs f.

(** [sum] over floats from CPython 3.12 on: the running sum [f] and the
    compensation [c] of Neumaier's algorithm. *)
Fixpoint sum_loop_compensated (f c : float) (xs : list float) : float :=
  match xs with
  | [] => if negb (is_zero c) && is_finite c then fadd f c else f
  | x :: xs' =>
      let t := fadd f x in
      let c' :=
        if fleb (fabs x) (fabs f) then fadd c (fadd (fsub f t) x)
        else fadd c (fadd (fsub x t) f) in
      sum_loop_compensated t c' xs'
  end.

(** [sum(1 for ...)]: the sum of a list of ints. *)
Definition int_sum (xs : list Z) : Z := fold_left Z.add xs 0.

Section Script.

Variable py : interp.

(** [sum(xs)] for floats [xs]: the start value is the int [0]; the first
    float is added to it by the mixed addition, the rest in the float
    loop. *)
Definition py_sum (xs : list float) : num :=
  match xs with
  | [] => PInt 0
  | x :: xs' =>
      let f := as_float (py_add (PInt 0) (PFloat x)) in
      PFloat (if sum_compensated py then sum_loop_compensated f fzero xs'
              else sum_loop_plain f xs')
  end.

Definition to_int (value : option string) : option Z :=
  match value with
  | None => None
  | Some v =>
      if String.eqb v "" then None
      else try_except (x <- int_of_string py v ;; Ok (Some x)) None
  end.

(** The body of [for row in reader]: [Ok None] is the [continue] of a row
    without a date, [Ok (Some r)] the record appended. *)
Definition process_row (r : row) : result (option TournamentRecord) :=
  let d := parse_date (row_get r "Date") in
  let buyin := to_float (row_get r "BuyIn") in
  let prize := to_float (row_get r "Result") in
  let rake := if dict_mem "Rake" r then to_float (row_get r "Rake") else fzero in
  let placement := to_int (row_get r "Placement") in
  let field_size := to_int (row_get r "FieldSize") in
  c <- cell_strip (row_get_default r "Currency" "") ;;
  let currency := str_or c "UNKNOWN" in
  t <- cell_strip (row_get_default r "Type" "") ;;
  let t_type := str_or t "Unknown" in
  let profit := fsub prize buyin in
  match d with
  | None => Ok None
  | Some d' =>
      Ok (Some {| date := d';
                  tournament := row_get_default r "Tournament" "Unknown";
                  buyin_total := buyin;
                  rake := rake;
                  prize := prize;
                  profit := profit;
                  placement := placement;
                  field_size := field_size;
                  currency := currency;
                  t_type := t_type |})
  end.

(** [for row in reader]: blank lines are passed over by the reader; the
    records appended so far survive an exception, which ends the file. *)
Fixpoint load_rows (fieldnames : list string) (events : list reader_event)
  : list TournamentRecord * option exn :=
  match events with
  | [] => ([], None)
  | ReadError e :: _ => ([], Some e)
  | Line [] :: events' => load_rows fieldnames events'
  | Line cells :: events' =>
      match process_row (dict_row fieldnames cells) with
      | Raise e => ([], Some e)
      | Ok None => load_rows fieldnames events'
      | Ok (Some r) =>
          let '(rs, e) := load_rows fieldnames events' in (r :: rs, e)
      end
  end.

Definition required_fields : list string :=
  ["Date"; "Tournament"; "BuyIn"; "Result"].

Definition list_mem (k : string) (l : list string) : bool :=
  existsb (String.eqb k) l.

(** The body of [for file in files]: the records the file adds and the
    exception caught by the [except Exception] of the file, if any. *)
Definition load_file (f : csv_file) : list TournamentRecord * option exn :=
  match f with
  | Unreadable e => ([], Some e)
  | Readable [] => ([], Some TypeError)
  | Readable (ReadError e :: _) => ([], Some e)
  | Readable (Line fieldnames :: events) =>
      let missing :=
        filter (fun c => negb (list_mem c fieldnames)) required_fields in
      match missing with
      | _ :: _ => ([], None)
      | [] => load_rows fieldnames events
      end
  end.

Definition load_summaries (files : list csv_file) : list TournamentRecord :=
  fold_left (fun records file => records ++ fst (load_file file)) files [].

(* ================================================================= *)
(** ** Filtering and aggregation *)

(** [strptime(d, "%Y-%m-%d") if d else None] *)
Definition date_bound (d : option string) : result (option datetime) :=
  match d with
  | None => Ok None
  | Some s =>
      if truthy s then (b <- strptime s "%Y-%m-%d" ;; Ok (Some b))
      else Ok None
  end.

(** The three tests of the loop body; [true] is [continue]. *)
Definition skipped (cur : option string) (d_min d_max : option datetime)
  (r : TournamentRecord) : bool :=
  (truthy_opt cur
   && negb (match cur with
            | Some c => String.eqb r.(currency) c
            | None => false
            end))
  || match d_min with Some b => dt_lt r.(date) b | None => false end
  || match d_max with Some b => dt_gt r.(date) b | None => false end.

Definition filter_records (records : list TournamentRecord)
  (currency min_date max_date : option string)
  : result (list TournamentRecord) :=
  d_min <- date_bound min_date ;;
  d_max <- date_bound max_date ;;
  Ok (fold_left (fun result r =>
                   if skipped currency d_min d_max r then result
                   else result ++ [r])
                records []).

(** [(q * 100) if guard else 0] and [q if guard else 0] *)
Definition percent_if (guard : bool) (a b : num) : result num :=
  if guard then (q <- py_truediv a b ;; Ok (py_mul q (PInt 100)))
  else Ok (PInt 0).

Definition ratio_if (guard : bool) (a b : num) : result num :=
  if guard then py_truediv a b else Ok (PInt 0).

Definition aggregate_overall (records : list TournamentRecord)
  : result Overall.t :=
  let total_buyin := py_sum (map buyin_total records) in
  let total_prize := py_sum (map prize records) in
  let profit := py_sub total_prize total_buyin in
  let itm_count :=
    int_sum (map (fun _ => 1)
               (filter (fun r => py_gt (PFloat r.(prize)) (PInt 0)) records)) in
  let total := Z.of_nat (List.length records) in
  roi <- percent_if (py_gt total_buyin (PInt 0)) profit total_buyin ;;
  itm <- percent_if (total >? 0) (PInt itm_count) (PInt total) ;;
  abi <- ratio_if (total >? 0) total_buyin (PInt total) ;;
  Ok {| Overall.total_tournaments := total;
        Overall.total_buyin := total_buyin;
        Overall.total_prize := total_prize;
        Overall.total_profit := profit;
        Overall.roi_percent := roi;
        Overall.itm_percent := itm;
        Overall.abi := abi |}.

Definition get_limit_group (buyin : num) : string :=
  if py_lt buyin (PInt 5) then "Micro (0–5)"
  else if py_lt buyin (PInt 22) then "Low (5–22)"
  else if py_lt buyin (PInt 109) then "Mid (22–109)"
  else "High (109+)".

Definition new_group : Group.sums :=
  {| Group.count := 0; Group.buyin := PInt 0;
     Group.prize := PInt 0; Group.profit := PInt 0 |}.

(** The four [+=] on the inner mapping of a group. *)
Definition add_record (v : Group.sums) (r : TournamentRecord) : Group.sums :=
  {| Group.count := Group.count v + 1;
     Group.buyin := py_add (Group.buyin v) (PFloat r.(buyin_total));
     Group.prize := py_add (Group.prize v) (PFloat r.(prize));
     Group.profit := py_add (Group.profit v) (PFloat r.(profit)) |}.

(** The body of the first loop, for the group named [g]. *)
Definition accumulate (groups : dict Group.sums) (g : string)
  (r : TournamentRecord) : result (dict Group.sums) :=
  let groups' :=
    if negb (dict_mem g groups) then dict_set groups g new_group
    else groups in
  v <- dict_item groups' g ;;
  Ok (dict_set groups' g (add_record v r)).

Fixpoint accumulate_all (key : TournamentRecord -> string)
  (groups : dict Group.sums) (records : list TournamentRecord)
  : result (dict Group.sums) :=
  match records with
  | [] => Ok groups
  | r :: records' =>
      groups' <- accumulate groups (key r) r ;;
      accumulate_all key groups' records'
  end.

(** The body of the second loop; [guard] is the test on the count. *)
Definition derive (guard : Z -> bool) (v : Group.sums) : result Group.t :=
  roi <- percent_if (py_gt (Group.buyin v) (PInt 0))
                    (Group.profit v) (Group.buyin v) ;;
  abi <- ratio_if (guard (Group.count v))
                  (Group.buyin v) (PInt (Group.count v)) ;;
  Ok {| Group.totals := v; Group.roi_percent := roi; Group.abi := abi |}.

Fixpoint derive_all (guard : Z -> bool) (groups : dict Group.sums)
  : result (dict Group.t) :=
  match groups with
  | [] => Ok []
  | (g, v) :: groups' =>
      v' <- derive guard v ;;
      rest <- derive_all guard groups' ;;
      Ok ((g, v') :: rest)
  end.

Definition aggregate_by_limits (records : list TournamentRecord)
  : result (dict Group.t) :=
  groups <- accumulate_all
              (fun r => get_limit_group (PFloat r.(buyin_total))) [] records ;;
  derive_all (fun c => c >? 0) groups.

Definition aggregate_by_type (records : list TournamentRecord)
  : result (dict Group.t) :=
  groups <- accumulate_all (fun r => r.(t_type)) [] records ;;
  derive_all int_truthy groups.

End Script.

(* ================================================================= *)
(** ** File discovery *)

(** How a run of the script ends: it returns, it leaves through
    [sys.exit], or an exception reaches the top. *)
Inductive outcome (A : Type) : Type :=
  | Done (a : A)
  | Exit (code : Z)
  | Uncaught (e : exn).

Arguments Done {A} a.
Arguments Exit {A} code.
Arguments Uncaught {A} e.

(** What the file system holds at a path: nothing, a file, or something
    [os.walk] goes through, yielding for each directory its own path and
    the names of its files. *)
Inductive path_entry : Set :=
  | Missing
  | RegularFile
  | Directory (walk : list (string * list string)).

(** [str.lower()] on the ASCII letters.  Python lowers the other letters
    too, but none of them becomes one of the characters of ".csv" or
    ".txt", and in UTF-8 they are written with bytes that are not ASCII,
    so the test of the ending below sees the same answer. *)
Definition lower_text (s : string) : string := text (map lower (chars s)).

(** [s.endswith(suffix)] *)
Definition ends_with (s suffix : string) : bool :=
  let l := chars s in
  let x := chars suffix in
  (List.length x <=? List.length l)%nat
  && String.eqb (text (skipn (List.length l - List.length x) l)) suffix.

Section Discovery.

(** [os.path.join], whose separator belongs to the platform. *)
Variable join : string -> string -> string.

Definition discover_files (entry : path_entry) (path mode : string)
  : outcome (list string) :=
  match entry with
  | Missing => Exit 1
  | RegularFile => Done [path]
  | Directory walk =>
      let ext := if String.eqb mode "summaries" then ".csv" else ".txt" in
      Done (fold_left
              (fun result rf =>
                 fold_left
                   (fun result f =>
                      if ends_with (lower_text f) ext
                      then result ++ [join (fst rf) f]
                      else result)
                   (snd rf) result)
              walk [])
  end.

End Discovery.

(* ================================================================= *)
(** ** Saving *)

(** A value handed to [csv.writer.writerow]. *)
Inductive pyval : Set :=
  | VNone
  | VStr (s : string)
  | VInt (z : Z)
  | VFloat (f : float).

Definition digit_char (n : Z) : ascii := ascii_of_N (48 + Z.to_N n).

(** ["%0wd" % n] for [0 <= n < 10 ^ w]. *)
Fixpoint zero_padded (w : nat) (n : Z) : list ascii :=
  match w with
  | O => []
  | S w' => zero_padded w' (n / 10) ++ [digit_char (n mod 10)]
  end.

(** [d.isoformat(sep)] of a naive datetime: the microseconds are written
    only when they are not zero. *)
Definition isoformat (sep : ascii) (d : datetime) : string :=
  text (zero_padded 4 d.(year) ++ ["-"%char] ++ zero_padded 2 d.(month)
        ++ ["-"%char] ++ zero_padded 2 d.(day) ++ [sep]
        ++ zero_padded 2 d.(hour) ++ [":"%char] ++ zero_padded 2 d.(minute)
        ++ [":"%char] ++ zero_padded 2 d.(second)
        ++ (if d.(microsecond) =? 0 then []
            else ["."%char] ++ zero_padded 6 d.(microsecond))).

Definition of_text (v : option string) : pyval :=
  match v with Some s => VStr s | None => VNone end.

Definition of_int (v : option Z) : pyval :=
  match v with Some z => VInt z | None => VNone end.

Definition csv_header : list string :=
  ["date"; "tournament"; "buyin_total"; "rake"; "prize"; "profit";
   "placement"; "field_size"; "currency"; "type"; "limit_group"].

(** The list written for one record. *)
Definition csv_row (r : TournamentRecord) : list pyval :=
  [VStr (isoformat " " r.(date));
   of_text r.(tournament);
   VFloat r.(buyin_total);
   VFloat r.(rake);
   VFloat r.(prize);
   VFloat r.(profit);
   of_int r.(placement);
   of_int r.(field_size);
   VStr r.(currency);
   VStr r.(t_type);
   VStr (get_limit_group (PFloat r.(buyin_total)))].

(** The lists [save_aggregated_csv] hands to the writer, the header
    first.  (How the writer spells them in the file is not modelled.) *)
Definition save_aggregated_csv (records : list TournamentRecord)
  : list (list pyval) :=
  map VStr csv_header :: map csv_row records.

(* ================================================================= *)
(** ** Main *)

(** The namespace [parse_args] returns. *)
Module Args.

Record t : Set := {
  mode : string;
  input : string;
  output : string;
  currency : option string;
  min_date : option string;
  max_date : option string;
  delimiter : string;
  encoding : string;
  verbose : bool;
  no_console_table : bool
}.

End Args.

(** What a run that reaches its end has printed and saved: the summary,
    the two tables unless they are switched off, the rows of the CSV
    artifact and the mapping of the JSON artifact. *)
Record report : Type := {
  printed_summary : Overall.t;
  printed_tables : option (dict Group.t * dict Group.t);
  saved_rows : list (list pyval);
  saved_summary : Overall.t
}.

Definition uncaught {A B : Type} (c : result A) (k : A -> outcome B)
  : outcome B :=
  match c with
  | Ok a => k a
  | Raise e => Uncaught e
  end.

Section Main.

Variable py : interp.
Variable join : string -> string -> string.

(** The file system: what is at a path, and what [open] and the reader
    make of a file under a delimiter and an encoding. *)
Variable entry_of : string -> path_entry.
Variable read_csv : string -> string -> string -> csv_file.

(** The run after [parse_args], with the console and the output folder
    taken to accept what is printed and written: the value of a run that
    reaches its end holds what was handed to the printing functions, to
    [csv.writer] and to [json.dump]. *)
Definition main (args : Args.t) : outcome report :=
  match discover_files join (entry_of args.(Args.input))
                       args.(Args.input) args.(Args.mode) with
  | Exit code => Exit code
  | Uncaught e => Uncaught e
  | Done files =>
      if (List.length files =? 0)%nat then Exit 1
      else
        let records :=
          load_summaries py
            (map (fun f => read_csv f args.(Args.delimiter)
                                    args.(Args.encoding)) files) in
        if (List.length records =? 0)%nat then Exit 1
        else
          uncaught (filter_records records args.(Args.currency)
                      args.(Args.min_date) args.(Args.max_date))
            (fun records =>
               if (List.length records =? 0)%nat then Exit 1
               else
                 uncaught (aggregate_overall py records) (fun summary =>
                 uncaught (aggregate_by_limits records) (fun limits =>
                 uncaught (aggregate_by_type records) (fun types =>
                   Done {| printed_summary := summary;
                           printed_tables :=
                             if args.(Args.no_console_table) then None
                             else Some (limits, types);
                           saved_rows := save_aggregated_csv records;
                           saved_summary := summary |}))))
  end.

End Main.

(* ================================================================= *)
(** * The vocabulary of the specification *)

(** The float a cell text is coerced to; used to write float constants
    by their decimal text. *)
Definition float_of_text (s : string) : float := to_float (Some s).

(** The computation raises some exception. *)
Definition raises {A : Type} (c : result A) : Prop := exists e, c = Raise e.

(** The text holds no minus sign. *)
Definition minus_free (l : list ascii) : Prop :=
  forall c, In c l -> is_char c "-" = false.

(** The filter in the words of the specification: a record is kept when
    its currency equals the one given, its date is not before the lower
    bound and not after the upper bound; a bound or currency that is not
    given does not constrain. *)
Definition keeps (cur : option string) (d_min d_max : option datetime)
  (r : TournamentRecord) : bool :=
  match cur with Some c => String.eqb r.(currency) c | None => true end
  && match d_min with Some b => dt_ge r.(date) b | None => true end
  && match d_max with Some b => dt_le r.(date) b | None => true end.

(** An argument counts as given when it is a text that is not empty. *)
Definition given (o : option string) : option string :=
  match o with
  | Some s => if truthy s then Some s else None
  | None => None
  end.

(** The date bound a date argument stands for: none when the argument is
    absent or empty, the parsed day otherwise. *)
Inductive day_bound : option string -> option datetime -> Prop :=
  | bound_absent : day_bound None None
  | bound_empty : day_bound (Some "") None
  | bound_day (s : string) (b : datetime) :
      s <> "" -> strptime s "%Y-%m-%d" = Ok b -> day_bound (Some s) (Some b).

(** [subseq s l]: [s] is [l] with some elements left out, order kept. *)
Inductive subseq {A : Type} : list A -> list A -> Prop :=
  | subseq_nil : subseq [] []
  | subseq_skip (a : A) (s l : list A) : subseq s l -> subseq s (a :: l)
  | subseq_keep (a : A) (s l : list A) : subseq s l -> subseq (a :: s) (a :: l).

(** The number of records in the money. *)
Definition in_the_money (records : list TournamentRecord) : Z :=
  Z.of_nat (List.length
              (filter (fun r => py_gt (PFloat r.(prize)) (PInt 0)) records)).

(** The return of investment in the words of the specification: the
    profit over the summed buy-in, in percent, and 0 when the summed
    buy-in is 0. *)
Definition roi_as_specified (profit total_buyin : num) : result num :=
  match py_compare total_buyin (PInt 0) with
  | Some Eq => Ok (PInt 0)
  | _ => percent_if true profit total_buyin
  end.

(** The keys of a list in the order each is first seen. *)
Fixpoint first_seen (l : list string) : list string :=
  match l with
  | [] => []
  | k :: l' => k :: filter (fun k' => negb (String.eqb k' k)) (first_seen l')
  end.

(** The tier of a record. *)
Definition tier (r : TournamentRecord) : string :=
  get_limit_group (PFloat r.(buyin_total)).

(** The records of a group, in input order. *)
Definition members (key : TournamentRecord -> string) (g : string)
  (records : list TournamentRecord) : list TournamentRecord :=
  filter (fun r => String.eqb (key r) g) records.

(** A sum by repeated [+=] from the int 0. *)
Definition running_sum (xs : list float) : num :=
  fold_left py_add (map PFloat xs) (PInt 0).

(** What the specification asks of a group-by result: the keys in
    first-seen order and, for each group, the count and the three running
    sums over its records, with the two derived ratios. *)
Definition grouped_by (key : TournamentRecord -> string)
  (records : list TournamentRecord) (groups : dict Group.t) : Prop :=
  dict_keys groups = first_seen (map key records)
  /\ forall g v,
       In (g, v) groups ->
       let rs := members key g records in
       let t := v.(Group.totals) in
       t.(Group.count) = Z.of_nat (List.length rs)
       /\ 1 <= t.(Group.count)
       /\ t.(Group.buyin) = running_sum (map buyin_total rs)
       /\ t.(Group.prize) = running_sum (map prize rs)
       /\ t.(Group.profit) = running_sum (map profit rs)
       /\ v.(Group.roi_percent)
          = (if py_gt t.(Group.buyin) (PInt 0)
             then PFloat (fmul (fdiv (as_float t.(Group.profit))
                                     (as_float t.(Group.buyin)))
                               (float_of_Z 100))
             else PInt 0)
       /\ v.(Group.abi)
          = (if t.(Group.count) >? 0
             then PFloat (fdiv (as_float t.(Group.buyin))
                               (float_of_Z t.(Group.count)))
             else PInt 0).

(** The running sums of a group after its records [rs]. *)
Definition sums_of (rs : list TournamentRecord) : Group.sums :=
  fold_left add_record rs new_group.

(** The two derived entries, when no division raises. *)
Definition derived (v : Group.sums) : Group.t :=
  {| Group.totals := v;
     Group.roi_percent :=
       if py_gt v.(Group.buyin) (PInt 0)
       then PFloat (fmul (fdiv (as_float v.(Group.profit))
                               (as_float v.(Group.buyin)))
                         (float_of_Z 100))
       else PInt 0;
     Group.abi :=
       PFloat (fdiv (as_float v.(Group.buyin)) (float_of_Z v.(Group.count))) |}.

(** The sum of a list of ints. *)
Definition Zsum (xs : list Z) : Z := fold_right Z.add 0 xs.

(** The exact value of a finite float in units of [2 ^ e0], when it is a
    whole number of them. *)
Definition scaled (e0 : Z) (f : float) : option Z :=
  match f with
  | S754_zero _ => Some 0
  | S754_finite s m e =>
      if e0 <=? e then Some (cond_Zopp s (Z.pos m) * 2 ^ (e - e0)) else None
  | _ => None
  end.

(** Every character there is. *)
Definition all_ascii : list ascii := map ascii_of_nat (seq 0 256).

(** How many times a character occurs in a text. *)
Definition occurrences (x : ascii) (l : list ascii) : nat :=
  List.length (filter (Ascii.eqb x) l).

(** How many times a pattern spells a character out. *)
Definition literal_count (x : ascii) (ds : list directive) : nat :=
  List.length (filter (fun d => match d with
                                | DLit c => Ascii.eqb x c
                                | _ => false
                                end) ds).

(** The hyphens, periods and colons of a text. *)
Definition punctuation (l : list ascii) : nat * nat * nat :=
  (occurrences "-" l, occurrences "." l, occurrences ":" l).

(** The characters a numeric directive or a white-space run can read. *)
Definition blankish (c : ascii) : bool := is_digit c || is_space c.

(** The punctuation of the six formats. *)
Definition is_punct (c : ascii) : bool :=
  Ascii.eqb c "-" || Ascii.eqb c "." || Ascii.eqb c ":".

(** A directive of the six formats. *)
Definition plain_directive (d : directive) : bool :=
  match d with
  | DLit c => is_punct c
  | _ => true
  end.

(** The hyphens, periods and colons a format spells out. *)
Definition format_punctuation (fmt : string) : nat * nat * nat :=
  match compile_format (chars fmt) with
  | Some ds => (literal_count "-" ds, literal_count "." ds, literal_count ":" ds)
  | None => (0, 0, 0)%nat
  end.

(** The format reads the text. *)
Definition accepts (s fmt : string) : bool :=
  match strptime s fmt with Ok _ => true | Raise _ => false end.

(** A file the loader passes over: it cannot be opened, it is empty, its
    first line cannot be read, or its header lacks a required column. *)
Inductive unusable : csv_file -> Prop :=
  | unusable_unreadable (e : exn) : unusable (Unreadable e)
  | unusable_empty : unusable (Readable [])
  | unusable_header_error (e : exn) (events : list reader_event) :
      unusable (Readable (ReadError e :: events))
  | unusable_missing_column (fieldnames : list string)
      (events : list reader_event) (c : string) :
      In c required_fields -> ~ In c fieldnames ->
      unusable (Readable (Line fieldnames :: events)).

(** A line that is blank or has a cell for every column of the header. *)
Definition complete_line (fieldnames cells : list string) : Prop :=
  cells = [] \/ (List.length fieldnames <= List.length cells)%nat.

(** The date of a line, when the line is not blank and its Date cell
    parses. *)
Definition line_date (fieldnames cells : list string) : option datetime :=
  match cells with
  | [] => None
  | _ => parse_date (row_get (dict_row fieldnames cells) "Date")
  end.

(** A date of the calendar with a time of day to the second. *)
Definition valid_datetime (d : datetime) : Prop :=
  1 <= d.(year) <= 9999 /\ 1 <= d.(month) <= 12
  /\ 1 <= d.(day) <= days_in_month d.(year) d.(month)
  /\ 0 <= d.(hour) <= 23 /\ 0 <= d.(minute) <= 59 /\ 0 <= d.(second) <= 59
  /\ d.(microsecond) = 0.

(** A leap year of the Gregorian calendar: a year divisible by 4 that,
    when it ends a century, is divisible by 400 as well. *)
Definition leap_year (y : Z) : Prop :=
  (4 | y) /\ ((100 | y) -> (400 | y)).

(** A day of the Gregorian calendar in the years 1 to 9999: thirty days
    in April, June, September and November, twenty-eight in February and
    a twenty-ninth in leap years, thirty-one in the other months. *)
Definition calendar_day (y m d : Z) : Prop :=
  1 <= y <= 9999 /\ 1 <= m <= 12 /\ 1 <= d <= 31
  /\ (m = 4 \/ m = 6 \/ m = 9 \/ m = 11 -> d <= 30)
  /\ (m = 2 -> d <= 29 /\ (d = 29 -> leap_year y)).

(** A day of the calendar with a time of day to the second. *)
Definition calendar_datetime (t : datetime) : Prop :=
  calendar_day t.(year) t.(month) t.(day)
  /\ 0 <= t.(hour) <= 23 /\ 0 <= t.(minute) <= 59 /\ 0 <= t.(second) <= 59
  /\ t.(microsecond) = 0.

(** A date argument that is given and does not read as a day. *)
Definition bad_day (o : option string) : Prop :=
  exists s, o = Some s /\ s <> "" /\ raises (strptime s "%Y-%m-%d").

(** The text is written with ASCII characters only, the range on which
    the character classes are modelled. *)
Definition ascii_text (s : string) : bool :=
  forallb (fun c => (N_of_ascii c <? 128)%N) (chars s).

(** The extension a mode looks for. *)
Definition extension (mode : string) : string :=
  if String.eqb mode "summaries" then ".csv" else ".txt".

(* ================================================================= *)
(** * Sample inputs *)

(** A file whose lines carry a "Profit" column of their own. *)
Definition file_with_profit_column : csv_file :=
  Readable [Line ["Date"; "Tournament"; "BuyIn"; "Result"; "Profit"];
            Line ["2023-01-15"; "Sunday Million"; "10,5"; "30"; "1000"]].

(** The record its line stands for: 30 - 10.5 = 19.5, whatever the
    "Profit" cell says. *)
Definition record_of_profit_file : TournamentRecord :=
  {| date := midnight 2023 1 15;
     tournament := Some "Sunday Million";
     buyin_total := float_of_text "10.5";
     rake := fzero;
     prize := float_of_text "30";
     profit := float_of_text "19.5";
     placement := None;
     field_size := None;
     currency := "UNKNOWN";
     t_type := "Unknown" |}.

(** A file whose BuyIn cell is the text "nan", which [float()] reads. *)
Definition file_nan_buyin : csv_file :=
  Readable [Line ["Date"; "Tournament"; "BuyIn"; "Result"];
            Line ["2023-01-15"; "Daily"; "nan"; "25"]].

(** A file of one line with the four required columns. *)
Definition file_of_date (cell : string) : csv_file :=
  Readable [Line ["Date"; "Tournament"; "BuyIn"; "Result"];
            Line [cell; "Daily"; "10"; "25"]].

(** A file with a negative amount in its BuyIn column. *)
Definition file_negative_buyin : csv_file :=
  Readable [Line ["Date"; "Tournament"; "BuyIn"; "Result"];
            Line ["2023-01-15"; "Refund"; "-5"; "0"]].

(** A file whose second line stops before the Currency column, followed
    by a complete line with an unreadable buy-in. *)
Definition file_short_line : csv_file :=
  Readable [Line ["Date"; "Tournament"; "BuyIn"; "Result"; "Currency"];
            Line ["2023-01-15"; "Daily"; "10"; "25"];
            Line ["2023-01-16"; "Nightly"; "abc"; "7"; "USD"]].

(** The same file without the short line. *)
Definition file_without_short_line : csv_file :=
  Readable [Line ["Date"; "Tournament"; "BuyIn"; "Result"; "Currency"];
            Line ["2023-01-16"; "Nightly"; "abc"; "7"; "USD"]].

(** A record list with two currencies and two times of day. *)
Definition record_at (d : datetime) (cur : string) : TournamentRecord :=
  {| date := d; tournament := Some "Daily";
     buyin_total := float_of_text "10"; rake := fzero;
     prize := fzero; profit := float_of_text "-10";
     placement := None; field_size := None;
     currency := cur; t_type := "Unknown" |}.

Definition half_past_ten (y m d : Z) : datetime :=
  {| year := y; month := m; day := d;
     hour := 10; minute := 30; second := 0; microsecond := 0 |}.

Definition mixed_records : list TournamentRecord :=
  [record_at (midnight 2023 1 15) "USD";
   record_at (half_past_ten 2023 1 15) "USD";
   record_at (midnight 2023 1 10) "EUR";
   record_at (half_past_ten 2023 1 1) "USD";
   record_at (midnight 2022 12 31) "USD";
   record_at (half_past_ten 2023 1 10) "usd"].

(** Three lines with buy-ins 0.1, 5.5 and 2.2: two in the Micro tier with
    one of the Low tier between them. *)
Definition file_three_buyins : csv_file :=
  Readable [Line ["Date"; "Tournament"; "BuyIn"; "Result"];
            Line ["2023-01-01"; "Morning"; "0.1"; "0"];
            Line ["2023-01-02"; "Noon"; "5.5"; "0"];
            Line ["2023-01-03"; "Evening"; "2.2"; "0"]].

(** A small file system: a directory "data" with three files, one of
    which is a readable summary. *)
Definition sample_join (root f : string) : string :=
  String.append root (String.append "/" f).

Definition sample_entry_of (path : string) : path_entry :=
  if String.eqb path "data"
  then Directory [("data", ["a.csv"; "notes.txt"; "B.CSV"])]
  else Missing.

Definition sample_read_csv (path delimiter encoding : string) : csv_file :=
  if String.eqb path "data/a.csv" then file_with_profit_column
  else Unreadable OSError.

Definition sample_args (min_date : option string) : Args.t :=
  {| Args.mode := "summaries"; Args.input := "data"; Args.output := "./output";
     Args.currency := None; Args.min_date := min_date; Args.max_date := None;
     Args.delimiter := ","; Args.encoding := "utf-8";
     Args.verbose := false; Args.no_console_table := false |}.

(* ================================================================= *)
(** * Properties *)

(** ** The interpreter model on known values *)

Example float_of_string_values :
  map float_of_string ["0.1"; " -1_0e21 "; "5e-324"; "2e-324"; "1e309"; "-inf"]
  = [Ok (S754_finite false 7205759403792794 (-56));
     Ok (S754_finite true 4768371582031250 21);
     Ok (S754_finite false 1 (-1074));
     Ok (S754_zero false);
     Ok (S754_infinity false);
     Ok (S754_infinity true)].
Proof. vm_compute. reflexivity. Qed.

Example float_of_string_largest :
  float_of_string "1.7976931348623157e308"
  = Ok (S754_finite false 9007199254740991 971).
Proof. vm_compute. reflexivity. Qed.

Example float_of_string_refused :
  forallb (fun s => match float_of_string s with Raise _ => true | Ok _ => false end)
    ["abc"; ""; "1_"; "1e"; "."; "1.5.3"; "- 1"; "infinit"; "1__0"; "0x10"]
  = true.
Proof. vm_compute. reflexivity. Qed.

Example int_of_string_values :
  map (int_of_string cpython312)
    [" 12 "; "-7"; "1_000"; "007"; "x"; ""; "1 2"; "_1"; "1_"; "+-1"; "1.0"]
  = [Ok 12; Ok (-7); Ok 1000; Ok 7; Raise ValueError; Raise ValueError;
     Raise ValueError; Raise ValueError; Raise ValueError; Raise ValueError;
     Raise ValueError].
Proof. vm_compute. reflexivity. Qed.

Example strptime_values :
  map (strptime "2023-02-28 7:05") ["%Y-%m-%d"; "%Y-%m-%d %H:%M"; "%d.%m.%Y"]
  = [Raise ValueError;
     Ok {| year := 2023; month := 2; day := 28;
           hour := 7; minute := 5; second := 0; microsecond := 0 |};
     Raise ValueError].
Proof. vm_compute. reflexivity. Qed.

Example strptime_calendar :
  map (fun s => strptime s "%d.%m.%Y %H:%M:%S")
    ["1.2.2024   23:59:59"; "29.02.2023 00:00:00"; "29.02.2024 00:00:60";
     "31.12.0000 00:00:00"]
  = [Ok {| year := 2024; month := 2; day := 1;
           hour := 23; minute := 59; second := 59; microsecond := 0 |};
     Raise ValueError; Raise ValueError; Raise ValueError].
Proof. vm_compute. reflexivity. Qed.

(* ================================================================= *)
(** ** Value coercion *)

Lemma replace_comma_length (v : string) :
  String.length (replace_comma v) = String.length v.
Proof. induction v as [|c v IH]; simpl; [reflexivity | now rewrite IH]. Qed.

Lemma replace_comma_get (v : string) (n : nat) :
  String.get n (replace_comma v)
  = option_map (fun c => if Ascii.eqb c "," then "."%char else c)
               (String.get n v).
Proof.
  revert n; induction v as [|c v IH]; intros n; simpl.
  - reflexivity.
  - destruct n as [|n]; simpl; [reflexivity | apply IH].
Qed.

(** C9.  [to_float] maps a missing or empty cell to 0.0; any other text
    has every comma replaced by a period (and nothing else changed) and is
    read by [float()], with 0.0 returned when [float()] raises; the
    function is total, so nothing is ever raised.  In particular "1,5"
    gives 1.5 (3 * 2^51 * 2^-52), "" gives 0.0 and "abc" gives 0.0. *)
Theorem to_float_coercion :
  to_float None = fzero
  /\ to_float (Some "") = fzero
  /\ (forall c v,
        to_float (Some (String c v))
        = match float_of_string (replace_comma (String c v)) with
          | Ok f => f
          | Raise _ => fzero
          end)
  /\ (forall v,
        String.length (replace_comma v) = String.length v
        /\ forall n,
             String.get n (replace_comma v)
             = option_map (fun c => if Ascii.eqb c "," then "."%char else c)
                          (String.get n v))
  /\ to_float (Some "1,5") = S754_finite false 6755399441055744 (-52)
  /\ float_of_string "1.5" = Ok (S754_finite false 6755399441055744 (-52))
  /\ to_float (Some "abc") = fzero.
Proof.
  split; [reflexivity |].
  split; [reflexivity |].
  split; [intros c v; reflexivity |].
  split; [intros v; split; [apply replace_comma_length |
                             intros n; apply replace_comma_get] |].
  split; [vm_compute; reflexivity |].
  split; vm_compute; reflexivity.
Qed.

(* ================================================================= *)
(** ** Grouping policy *)

Lemma pow2_pos (e : Z) : 0 < 2 ^ (- e) \/ 2 ^ (- e) = 0.
Proof.
  destruct (Z_le_gt_dec 0 (- e)) as [H|H].
  - left. apply Z.pow_pos_nonneg; lia.
  - right. apply Z.pow_neg_r. lia.
Qed.

(** Comparison with an int is monotone in the int: at or above [z2], a
    float is not below any [z1 <= z2]. *)
Lemma fcompare_Z_above (f : float) (z1 z2 : Z) :
  z1 <= z2 ->
  fcompare_Z f z2 = Some Gt \/ fcompare_Z f z2 = Some Eq ->
  fcompare_Z f z1 = Some Gt \/ fcompare_Z f z1 = Some Eq.
Proof.
  intros Hz H.
  assert (Hc : forall a b c : Z,
             a <= b -> ((c ?= b) = Gt \/ (c ?= b) = Eq) ->
             (c ?= a) = Gt \/ (c ?= a) = Eq).
  { intros a b c Hab [Hg|He].
    - apply Z.compare_gt_iff in Hg.
      destruct (Z.compare_spec c a); auto; lia.
    - apply Z.compare_eq_iff in He.
      destruct (Z.compare_spec c a); auto; lia. }
  assert (Hs : forall c d : Z,
             Some (c ?= d) = Some Gt \/ Some (c ?= d) = Some Eq ->
             (c ?= d) = Gt \/ (c ?= d) = Eq).
  { intros c d [K|K]; injection K as K; auto. }
  destruct f as [s|s| |s m e]; cbv beta iota zeta delta [fcompare_Z] in *.
  - destruct (Hc z1 z2 0 Hz (Hs _ _ H)) as [G|G]; rewrite G; auto.
  - exact H.
  - destruct H; discriminate.
  - destruct (0 <=? e).
    + destruct (Hc z1 z2 _ Hz (Hs _ _ H)) as [G|G]; rewrite G; auto.
    + assert (Hm : z1 * 2 ^ (- e) <= z2 * 2 ^ (- e)).
      { destruct (pow2_pos e) as [P|P]; [nia | rewrite P; lia]. }
      destruct (Hc _ _ _ Hm (Hs _ _ H)) as [G|G]; rewrite G; auto.
Qed.

Lemma py_ge_int (b : num) (z : Z) :
  py_ge b (PInt z) = true ->
  py_compare b (PInt z) = Some Gt \/ py_compare b (PInt z) = Some Eq.
Proof.
  unfold py_ge. destruct (py_compare b (PInt z)) as [[| |]|]; auto; discriminate.
Qed.

Lemma py_le_int_ge (b : num) (z : Z) :
  py_le (PInt z) b = py_ge b (PInt z).
Proof.
  unfold py_le, py_ge. destruct b as [x|f]; simpl.
  - rewrite (Z.compare_antisym x z). destruct (x ?= z); reflexivity.
  - destruct (fcompare_Z f z) as [[| |]|]; reflexivity.
Qed.

(** At or above [z2], a number is not below any [z1 <= z2]. *)
Lemma py_ge_not_lt (b : num) (z1 z2 : Z) :
  z1 <= z2 -> py_ge b (PInt z2) = true -> py_lt b (PInt z1) = false.
Proof.
  intros Hz H. apply py_ge_int in H. unfold py_lt.
  destruct b as [x|f]; simpl in *.
  - destruct H as [H|H]; injection H as H.
    + apply Z.compare_gt_iff in H. destruct (Z.compare_spec x z1); auto; lia.
    + apply Z.compare_eq_iff in H. destruct (Z.compare_spec x z1); auto; lia.
  - destruct (fcompare_Z_above f z1 z2 Hz H) as [G|G]; rewrite G; reflexivity.
Qed.

(** C3.  [get_limit_group] is total (one of the four labels is returned
    for every buy-in, int or float) and returns "Micro (0–5)" when
    [b < 5], "Low (5–22)" when [5 <= b < 22], "Mid (22–109)" when
    [22 <= b < 109] and "High (109+)" when [b >= 109]; 4.99 and 21.99
    stay in the lower tier, 5.00, 22.00 and 109.00 open the next one. *)
Theorem get_limit_group_tiers (b : num) :
  In (get_limit_group b)
     ["Micro (0–5)"; "Low (5–22)"; "Mid (22–109)"; "High (109+)"]
  /\ (py_lt b (PInt 5) = true -> get_limit_group b = "Micro (0–5)")
  /\ (py_le (PInt 5) b = true -> py_lt b (PInt 22) = true ->
      get_limit_group b = "Low (5–22)")
  /\ (py_le (PInt 22) b = true -> py_lt b (PInt 109) = true ->
      get_limit_group b = "Mid (22–109)")
  /\ (py_ge b (PInt 109) = true -> get_limit_group b = "High (109+)")
  /\ map (fun s => get_limit_group (PFloat (float_of_text s)))
         ["4.99"; "5.00"; "21.99"; "22.00"; "109.00"]
     = ["Micro (0–5)"; "Low (5–22)"; "Low (5–22)"; "Mid (22–109)";
        "High (109+)"].
Proof.
  unfold get_limit_group.
  split.
  { destruct (py_lt b (PInt 5)); [simpl; auto |].
    destruct (py_lt b (PInt 22)); [simpl; auto |].
    destruct (py_lt b (PInt 109)); simpl; auto. }
  split.
  { intros H. rewrite H. reflexivity. }
  split.
  { intros H5 H22. rewrite py_le_int_ge in H5.
    rewrite (py_ge_not_lt b 5 5) by (trivial; lia). rewrite H22. reflexivity. }
  split.
  { intros H22 H109. rewrite py_le_int_ge in H22.
    rewrite (py_ge_not_lt b 5 22) by (trivial; lia).
    rewrite (py_ge_not_lt b 22 22) by (trivial; lia).
    rewrite H109. reflexivity. }
  split.
  { intros H.
    rewrite (py_ge_not_lt b 5 109) by (trivial; lia).
    rewrite (py_ge_not_lt b 22 109) by (trivial; lia).
    rewrite (py_ge_not_lt b 109 109) by (trivial; lia).
    reflexivity. }
  vm_compute. reflexivity.
Qed.

Lemma get_limit_group_tiers_witness :
  py_le (PInt 5) (PFloat (float_of_text "5.00")) = true
  /\ py_lt (PFloat (float_of_text "5.00")) (PInt 22) = true
  /\ get_limit_group (PFloat (float_of_text "5.00")) = "Low (5–22)".
Proof.
  split; [vm_compute; reflexivity |].
  split; [vm_compute; reflexivity |].
  apply (get_limit_group_tiers (PFloat (float_of_text "5.00")));
    vm_compute; reflexivity.
Defined.

(* ================================================================= *)
(** ** Date parsing *)

(** The loop returns what the first format that parses returns. *)
Lemma parse_date_loop_some (v : string) (fmts : list string) (d : datetime) :
  parse_date_loop v fmts = Some d <->
  exists n fmt,
    nth_error fmts n = Some fmt
    /\ strptime (strip v) fmt = Ok d
    /\ forall k fmt', (k < n)%nat -> nth_error fmts k = Some fmt' ->
                      raises (strptime (strip v) fmt').
Proof.
  induction fmts as [|fmt fmts IH]; simpl.
  - split; [discriminate |].
    intros (n & fmt & Hn & _). destruct n; discriminate.
  - destruct (strptime (strip v) fmt) as [d'|e] eqn:E.
    + split.
      * intros H. injection H as ->. exists 0%nat, fmt.
        repeat split; trivial. intros k fmt' Hk. inversion Hk.
      * intros (n & fmt' & Hn & Hd & Hfirst). destruct n as [|n].
        -- injection Hn as <-. congruence.
        -- destruct (Hfirst 0%nat fmt) as [e' He']; [lia | reflexivity |].
           congruence.
    + rewrite IH. split.
      * intros (n & fmt' & Hn & Hd & Hfirst). exists (S n), fmt'.
        repeat split; trivial. intros k f Hk Hf. destruct k as [|k].
        -- injection Hf as <-. exists e. exact E.
        -- apply (Hfirst k f); [lia | exact Hf].
      * intros (n & fmt' & Hn & Hd & Hfirst). destruct n as [|n].
        -- injection Hn as <-. congruence.
        -- exists n, fmt'. repeat split; trivial.
           intros k f Hk Hf. apply (Hfirst (S k) f); [lia | exact Hf].
Qed.

(** The loop returns nothing exactly when every format fails. *)
Lemma parse_date_loop_none (v : string) (fmts : list string) :
  parse_date_loop v fmts = None <->
  forall fmt, In fmt fmts -> raises (strptime (strip v) fmt).
Proof.
  induction fmts as [|fmt fmts IH]; simpl.
  - split; [intros _ f [] | reflexivity].
  - destruct (strptime (strip v) fmt) as [d'|e] eqn:E.
    + split; [discriminate |].
      intros H. destruct (H fmt) as [e He]; [auto | congruence].
    + rewrite IH. split.
      * intros H f [<-|Hf]; [exists e; exact E | auto].
      * intros H f Hf. apply H. auto.
Qed.

(** What [strip] leaves: the text without a white-space prefix and a
    white-space suffix, neither of which can be extended. *)
Lemma drop_while_split (p : ascii -> bool) (l : list ascii) :
  exists pre, l = pre ++ drop_while p l /\ forallb p pre = true
              /\ match drop_while p l with
                 | c :: _ => p c = false
                 | [] => True
                 end.
Proof.
  induction l as [|c l (pre & E & Hp & Hh)]; simpl.
  - exists []. auto.
  - destruct (p c) eqn:Pc.
    + exists (c :: pre). simpl. rewrite Pc, Hp. split; [congruence | auto].
    + exists []. simpl. rewrite Pc. auto.
Qed.

Lemma strip_with_split (p : ascii -> bool) (l : list ascii) :
  exists pre suf,
    l = pre ++ strip_with p l ++ suf
    /\ forallb p pre = true /\ forallb p suf = true
    /\ match strip_with p l with
       | c :: _ => p c = false
       | [] => True
       end
    /\ match rev (strip_with p l) with
       | c :: _ => p c = false
       | [] => True
       end.
Proof.
  unfold strip_with.
  destruct (drop_while_split p l) as (pre & E1 & Hpre & Hh).
  destruct (drop_while_split p (rev (drop_while p l))) as (suf & E2 & Hsuf & Ht).
  exists pre, (rev suf).
  assert (E3 : drop_while p l
               = rev (drop_while p (rev (drop_while p l))) ++ rev suf).
  { rewrite <- rev_app_distr, <- E2, rev_involutive. reflexivity. }
  split; [rewrite <- E3; exact E1 |].
  split; [exact Hpre |].
  split.
  { rewrite forallb_forall in *. intros c Hc. apply Hsuf.
    apply in_rev. exact Hc. }
  split.
  - rewrite E3 in Hh.
    destruct (rev (drop_while p (rev (drop_while p l)))); [exact I | exact Hh].
  - rewrite rev_involutive. exact Ht.
Qed.

(** C5.  [parse_date] holds the six formats YYYY-MM-DD, YYYY-MM-DD HH:MM,
    YYYY-MM-DD HH:MM:SS, DD.MM.YYYY, DD.MM.YYYY HH:MM and
    DD.MM.YYYY HH:MM:SS in that order; it returns a date exactly when the
    input is not empty and some format parses the stripped input, and the
    date is that of the first such format in the list (every earlier
    format fails on the stripped input); it returns no value exactly when
    the input is missing or empty, or every format fails.  Stripping
    removes a prefix and a suffix and leaves no blank, tab or line end
    at either end; in a text of ASCII characters what it removes is
    white space and nothing else. *)
Theorem parse_date_first_format :
  formats = ["%Y-%m-%d"; "%Y-%m-%d %H:%M"; "%Y-%m-%d %H:%M:%S";
             "%d.%m.%Y"; "%d.%m.%Y %H:%M"; "%d.%m.%Y %H:%M:%S"]
  /\ parse_date None = None
  /\ (forall v d,
        parse_date (Some v) = Some d <->
        v <> ""
        /\ exists n fmt,
             nth_error formats n = Some fmt
             /\ strptime (strip v) fmt = Ok d
             /\ forall k fmt', (k < n)%nat -> nth_error formats k = Some fmt' ->
                               raises (strptime (strip v) fmt'))
  /\ (forall v,
        parse_date (Some v) = None <->
        v = "" \/ forall fmt, In fmt formats -> raises (strptime (strip v) fmt))
  /\ (forall v, exists pre suf,
        chars v = pre ++ chars (strip v) ++ suf
        /\ (ascii_text v = true ->
            forallb is_space pre = true /\ forallb is_space suf = true)
        /\ match chars (strip v) with c :: _ => is_space c = false | [] => True end
        /\ match rev (chars (strip v)) with
           | c :: _ => is_space c = false
           | [] => True
           end).
Proof.
  split; [reflexivity |].
  split; [reflexivity |].
  split.
  { intros v d. unfold parse_date. destruct v as [|c v]; simpl negb; cbv iota.
    - split; [discriminate | intros [H _]; congruence].
    - rewrite parse_date_loop_some. split.
      + intros H. split; [discriminate | exact H].
      + intros [_ H]. exact H. }
  split.
  { intros v. unfold parse_date. destruct v as [|c v]; simpl negb; cbv iota.
    - split; auto.
    - rewrite parse_date_loop_none. split.
      + auto.
      + intros [H|H]; [discriminate | exact H]. }
  intros v.
  destruct (strip_with_split is_space (chars v))
    as (pre & suf & E & Hpre & Hsuf & Hh & Ht).
  exists pre, suf.
  assert (S : chars (strip v) = strip_with is_space (chars v))
    by (unfold strip, chars at 1, text;
        apply list_ascii_of_string_of_list_ascii).
  rewrite S. auto.
Qed.

Lemma parse_date_first_format_witness :
  parse_date (Some " 15.01.2023 10:30 ")
  = Some {| year := 2023; month := 1; day := 15;
            hour := 10; minute := 30; second := 0; microsecond := 0 |}.
Proof.
  apply (proj1 (proj2 (proj2 parse_date_first_format)) " 15.01.2023 10:30 ").
  split; [discriminate |].
  exists 4%nat, "%d.%m.%Y %H:%M".
  split; [reflexivity |].
  split; [vm_compute; reflexivity |].
  intros k fmt' Hk Hn.
  destruct k as [|[|[|[|k]]]]; try lia;
    injection Hn as <-; eexists; vm_compute; reflexivity.
Defined.

(* ================================================================= *)
(** ** The record loader *)

Section Loader.

Variable py : interp.

Lemma load_summaries_flat_map (files : list csv_file) :
  load_summaries py files = flat_map (fun f => fst (load_file py f)) files.
Proof.
  unfold load_summaries.
  assert (G : forall acc,
             fold_left (fun records file => records ++ fst (load_file py file))
                       files acc
             = acc ++ flat_map (fun f => fst (load_file py f)) files).
  { induction files as [|f files IH]; intros acc; simpl.
    - now rewrite app_nil_r.
    - rewrite IH, app_assoc. reflexivity. }
  apply (G []).
Qed.

(** A record of the result comes from a line of a file. *)
Lemma load_rows_In (fieldnames : list string) (events : list reader_event)
  (r : TournamentRecord) :
  In r (fst (load_rows py fieldnames events)) ->
  exists cells,
    In (Line cells) events
    /\ process_row py (dict_row fieldnames cells) = Ok (Some r).
Proof.
  induction events as [|ev events IH]; simpl; [intros [] |].
  destruct ev as [cells|e]; [| intros []].
  destruct cells as [|c cells].
  - intros H. destruct (IH H) as (cs & Hin & Hp). exists cs. auto.
  - destruct (process_row py (dict_row fieldnames (c :: cells)))
      as [[r'|]|e] eqn:E.
    + destruct (load_rows py fieldnames events) as [rs e'] eqn:L. simpl in *.
      intros [<-|H].
      * exists (c :: cells). auto.
      * destruct (IH H) as (cs & Hin & Hp). exists cs. auto.
    + intros H. destruct (IH H) as (cs & Hin & Hp). exists cs. auto.
    + intros [].
Qed.

Lemma load_summaries_In (files : list csv_file) (r : TournamentRecord) :
  In r (load_summaries py files) ->
  exists fieldnames events cells,
    In (Readable (Line fieldnames :: events)) files
    /\ In (Line cells) events
    /\ process_row py (dict_row fieldnames cells) = Ok (Some r).
Proof.
  rewrite load_summaries_flat_map, in_flat_map.
  intros (f & Hf & Hr).
  destruct f as [e|[|[fieldnames|e] events]];
    try (simpl in Hr; contradiction).
  cbv beta iota zeta delta [load_file] in Hr.
  destruct (filter (fun c => negb (list_mem c fieldnames)) required_fields);
    [| simpl in Hr; contradiction].
  destruct (load_rows_In _ _ _ Hr) as (cells & Hin & Hp).
  exists fieldnames, events, cells. auto.
Qed.

(** What [process_row] puts in the record it builds. *)
Lemma process_row_record (w : row) (r : TournamentRecord) :
  process_row py w = Ok (Some r) ->
  parse_date (row_get w "Date") = Some r.(date)
  /\ r.(buyin_total) = to_float (row_get w "BuyIn")
  /\ r.(prize) = to_float (row_get w "Result")
  /\ r.(profit) = fsub r.(prize) r.(buyin_total)
  /\ r.(rake) = (if dict_mem "Rake" w then to_float (row_get w "Rake")
                 else fzero)
  /\ r.(placement) = to_int py (row_get w "Placement")
  /\ r.(field_size) = to_int py (row_get w "FieldSize").
Proof.
  unfold process_row.
  destruct (cell_strip (row_get_default w "Currency" "")) as [c|e];
    [| discriminate].
  destruct (cell_strip (row_get_default w "Type" "")) as [t|e];
    [| discriminate].
  cbn [bind].
  destruct (parse_date (row_get w "Date")) as [d|]; [| discriminate].
  intros H. injection H as <-. cbn. repeat split; reflexivity.
Qed.

End Loader.

(* ----------------------------------------------------------------- *)
(** *** The sign of a coerced amount *)

Lemma binary_round_aux_sign (m e : Z) (l : location) :
  sign_bit (binary_round_aux prec emax false m e l) = false.
Proof.
  unfold binary_round_aux.
  destruct (shr_fexp prec emax m e l) as [mrs' e'].
  destruct (shr_fexp prec emax _ e' loc_Exact) as [mrs'' e''].
  destruct (shr_m mrs''); try reflexivity.
  destruct (e'' <=? emax - prec); reflexivity.
Qed.

Lemma decimal_to_float_sign (d e : Z) :
  sign_bit (decimal_to_float false d e) = false.
Proof.
  unfold decimal_to_float. destruct (0 <=? e).
  - destruct (d * 10 ^ e); try reflexivity.
    unfold binary_round.
    destruct (shl_align _ _ _) as [mz ez]. apply binary_round_aux_sign.
  - unfold round_quotient.
    destruct (SFdiv_core_binary prec emax d 0 (10 ^ (- e)) 0) as [[q e'] l].
    apply binary_round_aux_sign.
Qed.

Lemma parse_decimal_sign (l : list ascii) (f : float) :
  parse_decimal false l = Some f -> sign_bit f = false.
Proof.
  unfold parse_decimal.
  destruct (span_digits l) as [ip r1].
  destruct (match r1 with
            | c :: r => if is_char c "." then span_digits r else ([], r1)
            | [] => ([], r1)
            end) as [fp r2].
  destruct (ip ++ fp) as [|c ds]; [discriminate |].
  destruct (split_exponent r2) as [e r3].
  destruct r3; [| discriminate].
  intros H. injection H as <-. apply decimal_to_float_sign.
Qed.

Lemma parse_float_body_sign (l : list ascii) (f : float) :
  minus_free l -> parse_float_body l = Some f -> sign_bit f = false.
Proof.
  intros Hl. unfold parse_float_body.
  assert (Hs : exists r, split_sign l = (false, r)).
  { destruct l as [|c l]; simpl; [eauto |].
    rewrite (Hl c) by (left; reflexivity).
    destruct (is_char c "+"); eauto. }
  destruct Hs as [r ->].
  destruct (eq_nocase r (chars "inf") || eq_nocase r (chars "infinity")).
  - intros H. injection H as <-. reflexivity.
  - destruct (eq_nocase r (chars "nan")).
    + intros H. injection H as <-. reflexivity.
    + apply parse_decimal_sign.
Qed.

Lemma drop_while_In (p : ascii -> bool) (l : list ascii) (c : ascii) :
  In c (drop_while p l) -> In c l.
Proof.
  induction l as [|a l IH]; simpl; [auto |].
  destruct (p a); [right; auto | auto].
Qed.

Lemma strip_with_In (p : ascii -> bool) (l : list ascii) (c : ascii) :
  In c (strip_with p l) -> In c l.
Proof.
  unfold strip_with. intros H.
  apply in_rev, drop_while_In, in_rev in H.
  apply drop_while_In in H. exact H.
Qed.

Lemma drop_underscores_In (l : list ascii) :
  forall prev l' c,
    drop_underscores prev l = Some l' -> In c l' -> In c l.
Proof.
  induction l as [|a l IH]; intros prev l' c; simpl.
  - destruct (is_char prev "_"); [discriminate |].
    intros H. injection H as <-. auto.
  - destruct (is_char a "_").
    + destruct (is_digit prev); [| discriminate].
      intros H Hc. right. apply (IH a l' c H Hc).
    + destruct (is_char prev "_" && negb (is_digit a)); [discriminate |].
      destruct (drop_underscores a l) as [l0|] eqn:E; [| discriminate].
      simpl. intros H. injection H as <-. intros [<-|Hc]; [auto |].
      right. apply (IH a l0 c E Hc).
Qed.

Lemma float_of_string_sign (s : string) (f : float) :
  minus_free (chars s) -> float_of_string s = Ok f -> sign_bit f = false.
Proof.
  intros Hs. unfold float_of_string.
  destruct (if existsb (fun c => is_char c "_") (chars s)
            then drop_underscores zero (chars s)
            else Some (chars s)) as [l'|] eqn:E; [| discriminate].
  assert (Hl' : minus_free l').
  { intros c Hc. apply Hs.
    destruct (existsb _ (chars s)).
    - apply (drop_underscores_In _ _ _ _ E Hc).
    - injection E as <-. exact Hc. }
  destruct (parse_float_body (strip_with is_cspace l')) as [g|] eqn:P;
    [| discriminate].
  intros H. injection H as <-.
  apply (parse_float_body_sign _ _ (fun c Hc => Hl' c (strip_with_In _ _ _ Hc)) P).
Qed.

Lemma replace_comma_minus_free (v : string) :
  minus_free (chars v) -> minus_free (chars (replace_comma v)).
Proof.
  unfold chars. induction v as [|a v IH]; simpl; intros H c Hc; [destruct Hc |].
  destruct Hc as [<-|Hc].
  - destruct (Ascii.eqb a ",") eqn:E; [reflexivity | apply H; left; reflexivity].
  - apply IH; [intros d Hd; apply H; right; exact Hd | exact Hc].
Qed.

(** Without a sign bit a float is never below zero. *)
Lemma sign_bit_not_negative (f : float) :
  sign_bit f = false -> py_lt (PFloat f) (PInt 0) = false.
Proof.
  unfold py_lt, py_compare.
  destruct f as [s|s| |s m e]; cbv beta iota zeta delta [sign_bit fcompare_Z];
    intros Hs; try subst s; try reflexivity.
  unfold cond_Zopp. destruct (0 <=? e) eqn:E.
  - apply Z.leb_le in E.
    assert (H : 0 < 2 ^ e) by (apply Z.pow_pos_nonneg; lia).
    destruct (Z.compare_spec (Z.pos m * 2 ^ e) 0); auto; nia.
  - reflexivity.
Qed.

Lemma to_float_not_negative (v : option string) :
  match v with Some s => minus_free (chars s) | None => True end ->
  py_lt (PFloat (to_float v)) (PInt 0) = false.
Proof.
  intros H. apply sign_bit_not_negative.
  destruct v as [s|]; [| reflexivity]. unfold to_float.
  destruct (String.eqb s ""); [reflexivity |].
  destruct (float_of_string (replace_comma s)) as [f|e] eqn:E; simpl;
    [| reflexivity].
  apply (float_of_string_sign _ _ (replace_comma_minus_free _ H) E).
Qed.

Lemma sign_bit_not_below_zero (f : float) :
  sign_bit f = false -> is_nan f = false -> py_ge (PFloat f) (PInt 0) = true.
Proof.
  unfold py_ge, py_compare.
  destruct f as [s|s| |s m e];
    cbv beta iota zeta delta [sign_bit fcompare_Z is_nan];
    intros Hs Hn; try subst s; try reflexivity; try discriminate.
  unfold cond_Zopp. destruct (0 <=? e) eqn:E.
  - apply Z.leb_le in E.
    assert (H : 0 < 2 ^ e) by (apply Z.pow_pos_nonneg; lia).
    destruct (Z.compare_spec (Z.pos m * 2 ^ e) 0); auto; nia.
  - reflexivity.
Qed.

(** C6, as stated, fails: the line with BuyIn "-5" gives a record whose
    buy-in is -5.0 (5 * 2^50 * 2^-50 with the sign bit set), for which
    [buyin_total >= 0] is false. *)
Lemma buyin_total_negative_counterexample :
  map buyin_total (load_summaries cpython312 [file_negative_buyin])
  = [S754_finite true 5629499534213120 (-50)]
  /\ forallb (fun r => py_ge (PFloat r.(buyin_total)) (PInt 0))
             (load_summaries cpython312 [file_negative_buyin]) = false.
Proof. split; vm_compute; reflexivity. Qed.

(** C6, amended.  Every record produced by the loader is built from a
    line of one of the files, and its buy-in is the coerced BuyIn cell
    of that line: 0.0 when the cell is missing, empty or refused by
    [float()]; and when the cell holds no minus sign the buy-in is never
    below zero, and is [>= 0] unless it is NaN. *)
Theorem load_summaries_buyin (py : interp) (files : list csv_file)
  (r : TournamentRecord) :
  In r (load_summaries py files) ->
  exists fieldnames events cells,
    In (Readable (Line fieldnames :: events)) files
    /\ In (Line cells) events
    /\ process_row py (dict_row fieldnames cells) = Ok (Some r)
    /\ let cell := row_get (dict_row fieldnames cells) "BuyIn" in
    r.(buyin_total) = to_float cell
    /\ (cell = None \/ cell = Some ""
        \/ (exists s, cell = Some s /\ raises (float_of_string (replace_comma s)))
        -> r.(buyin_total) = fzero)
    /\ (match cell with Some s => minus_free (chars s) | None => True end ->
        py_lt (PFloat r.(buyin_total)) (PInt 0) = false
        /\ (is_nan r.(buyin_total) = false ->
            py_ge (PFloat r.(buyin_total)) (PInt 0) = true)).
Proof.
  intros H.
  destruct (load_summaries_In py files r H)
    as (fn & evs & cells & Hf & Hl & Hp).
  destruct (process_row_record py _ _ Hp) as (_ & Hb & _).
  exists fn, evs, cells.
  split; [exact Hf |]. split; [exact Hl |]. split; [exact Hp |].
  cbv zeta. rewrite Hb.
  set (cell := row_get (dict_row fn cells) "BuyIn").
  split; [reflexivity |].
  split.
  - intros [->|[->|(s & -> & e & He)]]; try reflexivity.
    unfold to_float. rewrite He. destruct (String.eqb s ""); reflexivity.
  - intros Hm. split.
    + apply to_float_not_negative. exact Hm.
    + apply sign_bit_not_below_zero.
      destruct cell as [s|]; [| reflexivity]. unfold to_float.
      destruct (String.eqb s ""); [reflexivity |].
      destruct (float_of_string (replace_comma s)) as [f|e] eqn:E; simpl;
        [| reflexivity].
      apply (float_of_string_sign _ _ (replace_comma_minus_free _ Hm) E).
Qed.

Lemma load_summaries_buyin_witness :
  exists fieldnames events cells,
    In (Readable (Line fieldnames :: events)) [file_with_profit_column]
    /\ In (Line cells) events
    /\ process_row cpython312 (dict_row fieldnames cells)
       = Ok (Some record_of_profit_file)
    /\ let cell := row_get (dict_row fieldnames cells) "BuyIn" in
    record_of_profit_file.(buyin_total) = to_float cell
    /\ (cell = None \/ cell = Some ""
        \/ (exists s, cell = Some s /\ raises (float_of_string (replace_comma s)))
        -> record_of_profit_file.(buyin_total) = fzero)
    /\ (match cell with Some s => minus_free (chars s) | None => True end ->
        py_lt (PFloat record_of_profit_file.(buyin_total)) (PInt 0) = false
        /\ (is_nan record_of_profit_file.(buyin_total) = false ->
            py_ge (PFloat record_of_profit_file.(buyin_total)) (PInt 0) = true)).
Proof.
  apply (load_summaries_buyin cpython312 [file_with_profit_column]).
  vm_compute. left. reflexivity.
Defined.

(* ----------------------------------------------------------------- *)
(** *** Lines shorter than the header *)

(** The three outcomes of a line: an [AttributeError] when the Currency
    or Type cell is [None], no record when the date does not parse, a
    record otherwise.  The amounts and counts play no part in which. *)
Lemma process_row_outcome (py : interp) (w : row) :
  match process_row py w with
  | Raise e =>
      e = AttributeError
      /\ (dict_get w "Currency" = Some None \/ dict_get w "Type" = Some None)
  | Ok None => parse_date (row_get w "Date") = None
  | Ok (Some r) => parse_date (row_get w "Date") = Some r.(date)
  end.
Proof.
  unfold process_row, row_get_default.
  destruct (dict_get w "Currency") as [[c|]|]; simpl; auto;
    destruct (dict_get w "Type") as [[t|]|]; simpl; auto;
    destruct (parse_date (row_get w "Date")); reflexivity.
Qed.

(** C8, on the code: the line without its Currency cell makes the body of
    the row loop raise [AttributeError]; the exception leaves the loop,
    is caught by the handler of the file, and the complete line after it,
    which alone gives a record with buy-in 0.0, gives none. *)
Theorem short_line_raises :
  process_row cpython312
    (dict_row ["Date"; "Tournament"; "BuyIn"; "Result"; "Currency"]
              ["2023-01-15"; "Daily"; "10"; "25"])
  = Raise AttributeError
  /\ load_file cpython312 file_short_line = ([], Some AttributeError)
  /\ load_summaries cpython312 [file_short_line] = []
  /\ map (fun r => (r.(tournament), r.(buyin_total)))
         (load_summaries cpython312 [file_without_short_line])
     = [(Some "Nightly", fzero)].
Proof. repeat split; vm_compute; reflexivity. Qed.

(* ================================================================= *)
(** ** The filter stage *)

Lemma fold_append_filter {A : Type} (p : A -> bool) (l acc : list A) :
  fold_left (fun result r => if p r then result else result ++ [r]) l acc
  = acc ++ filter (fun r => negb (p r)) l.
Proof.
  revert acc; induction l as [|a l IH]; intros acc; simpl.
  - now rewrite app_nil_r.
  - rewrite IH. destruct (p a); simpl; [reflexivity |].
    now rewrite <- app_assoc.
Qed.

Lemma skipped_keeps (cur : option string) (d_min d_max : option datetime)
  (r : TournamentRecord) :
  negb (skipped cur d_min d_max r) = keeps (given cur) d_min d_max r.
Proof.
  unfold skipped, keeps, given, truthy_opt, dt_ge, dt_le.
  destruct cur as [c|]; [destruct (truthy c) |]; simpl;
    try destruct (String.eqb r.(currency) c); simpl;
    destruct d_min as [a|]; try destruct (dt_lt r.(date) a); simpl;
    destruct d_max as [b|]; try destruct (dt_gt r.(date) b); reflexivity.
Qed.

Lemma day_bound_date_bound (d : option string) (b : option datetime) :
  day_bound d b -> date_bound d = Ok b.
Proof.
  intros H. destruct H as [| |s b Hs Hp]; simpl; try reflexivity.
  destruct s; [congruence |]. simpl truthy. cbv iota. rewrite Hp. reflexivity.
Qed.

(** What a pattern reads is labelled by its own directives, in order. *)
Lemma match_pattern_directives (ds : list directive) :
  forall l cs r, In (cs, r) (match_pattern ds l) -> map fst cs = ds.
Proof.
  induction ds as [|d ds IH]; intros l cs r; simpl.
  - intros [H|[]]. injection H as <- _. reflexivity.
  - rewrite in_flat_map. intros ((m, r') & _ & H).
    rewrite in_map_iff in H. destruct H as ((cs', r'') & E & H).
    injection E as <- _. simpl. f_equal. apply (IH _ _ _ H).
Qed.

Lemma group_default (d : directive) (dflt : Z)
  (cs : list (directive * list ascii)) :
  (forall d', In d' (map fst cs) -> directive_eqb d d' = false) ->
  group d dflt cs = dflt.
Proof.
  induction cs as [|(d', m) cs IH]; simpl; intros H; [reflexivity |].
  rewrite (H d') by auto. apply IH. intros d'' Hd. apply H. auto.
Qed.

(** A day read with the format of the date arguments is a midnight. *)
Lemma strptime_day_midnight (s : string) (b : datetime) :
  strptime s "%Y-%m-%d" = Ok b ->
  b = midnight b.(year) b.(month) b.(day).
Proof.
  unfold strptime.
  change (compile_format (chars "%Y-%m-%d"))
    with (Some [DY; DLit "-"; Dm; DLit "-"; Dd]).
  cbv iota.
  destruct (match_pattern _ (chars s)) as [|(cs, [|c r]) rest] eqn:E;
    try discriminate.
  assert (Hcs : map fst cs = [DY; DLit "-"; Dm; DLit "-"; Dd]).
  { apply (match_pattern_directives _ (chars s) cs []). rewrite E. left.
    reflexivity. }
  assert (Hg : forall d, In d [DH; DM; DS] -> group d 0 cs = 0).
  { intros d Hd. apply group_default. rewrite Hcs. intros d' Hd'.
    simpl in Hd, Hd'.
    destruct Hd as [<-|[<-|[<-|[]]]];
      destruct Hd' as [<-|[<-|[<-|[<-|[<-|[]]]]]]; reflexivity. }
  rewrite (Hg DH), (Hg DM), (Hg DS) by (simpl; auto).
  unfold datetime_new.
  destruct (_ && _); [| discriminate].
  intros H. injection H as <-. reflexivity.
Qed.

(** On the day of a bound, only the record at 00:00:00 is not after it. *)
Lemma dt_le_midnight (t : datetime) :
  0 <= t.(hour) -> 0 <= t.(minute) -> 0 <= t.(second) ->
  0 <= t.(microsecond) ->
  dt_le t (midnight t.(year) t.(month) t.(day))
  = (t.(hour) =? 0) && (t.(minute) =? 0) && (t.(second) =? 0)
    && (t.(microsecond) =? 0).
Proof.
  intros Hh Hm Hs Hu. unfold dt_le, dt_gt, dt_fields, midnight. simpl.
  rewrite !Z.compare_refl.
  destruct (Z.eqb_spec t.(hour) 0) as [->|N];
    [| destruct (Z.compare_spec t.(hour) 0); try lia; reflexivity].
  destruct (Z.eqb_spec t.(minute) 0) as [->|N];
    [| destruct (Z.compare_spec t.(minute) 0); try lia; reflexivity].
  destruct (Z.eqb_spec t.(second) 0) as [->|N];
    [| destruct (Z.compare_spec t.(second) 0); try lia; reflexivity].
  destruct (Z.eqb_spec t.(microsecond) 0) as [->|N];
    [| destruct (Z.compare_spec t.(microsecond) 0); try lia; reflexivity].
  reflexivity.
Qed.

Lemma filter_subseq {A : Type} (p : A -> bool) (l : list A) :
  subseq (filter p l) l.
Proof.
  induction l as [|a l IH]; simpl; [constructor |].
  destruct (p a); constructor; exact IH.
Qed.

(** C1, as stated, fails: an empty currency text is an argument that is
    given, and no record has the empty currency, yet the code keeps every
    record. *)
Lemma filter_records_empty_currency_counterexample :
  filter_records mixed_records (Some "") None None = Ok mixed_records
  /\ filter (keeps (Some "") None None) mixed_records = [].
Proof. split; vm_compute; reflexivity. Qed.

(** C1, amended.  With a date argument standing for no bound when absent
    or empty and for its day when it reads as YYYY-MM-DD, [filter_records]
    returns the records, in their original order, that have the given
    currency when a non-empty one is given (compared as texts, so case
    matters), a date not before midnight of the lower day and a date not
    after midnight of the upper day; so a kept record dated on the upper
    day is dated at 00:00:00 exactly.  An empty currency does not
    filter. *)
Theorem filter_records_stable_filter (records : list TournamentRecord)
  (cur min_date max_date : option string) (d_min d_max : option datetime) :
  day_bound min_date d_min ->
  day_bound max_date d_max ->
  filter_records records cur min_date max_date
  = Ok (filter (keeps (given cur) d_min d_max) records)
  /\ subseq (filter (keeps (given cur) d_min d_max) records) records
  /\ (forall b, d_min = Some b \/ d_max = Some b ->
                b = midnight b.(year) b.(month) b.(day))
  /\ (forall r b,
        d_max = Some b ->
        r.(date).(year) = b.(year) -> r.(date).(month) = b.(month) ->
        r.(date).(day) = b.(day) ->
        0 <= r.(date).(hour) -> 0 <= r.(date).(minute) ->
        0 <= r.(date).(second) -> 0 <= r.(date).(microsecond) ->
        keeps (given cur) d_min d_max r = true ->
        r.(date) = b).
Proof.
  intros Hmin Hmax.
  assert (Hmid : forall d b o, day_bound d o -> o = Some b ->
                               b = midnight b.(year) b.(month) b.(day)).
  { intros d b o H E. destruct H as [| |s b' Hs Hp]; try discriminate.
    injection E as ->. apply (strptime_day_midnight s b Hp). }
  split.
  { unfold filter_records.
    rewrite (day_bound_date_bound _ _ Hmin), (day_bound_date_bound _ _ Hmax).
    cbn [bind]. rewrite fold_append_filter. cbn [app]. f_equal.
    apply filter_ext. intros r. apply skipped_keeps. }
  split; [apply filter_subseq |].
  split.
  { intros b [E|E]; [apply (Hmid _ _ _ Hmin E) | apply (Hmid _ _ _ Hmax E)]. }
  intros r b E Hy Hm Hd Hh Hmi Hs Hu Hk.
  pose proof (Hmid _ _ _ Hmax E) as Hb.
  unfold keeps in Hk. rewrite E in Hk.
  apply andb_prop in Hk. destruct Hk as [_ Hk].
  rewrite Hb, <- Hy, <- Hm, <- Hd in Hk.
  rewrite (dt_le_midnight _ Hh Hmi Hs Hu) in Hk.
  apply andb_prop in Hk. destruct Hk as [Hk Hu0].
  apply andb_prop in Hk. destruct Hk as [Hk Hs0].
  apply andb_prop in Hk. destruct Hk as [Hh0 Hm0].
  apply Z.eqb_eq in Hh0, Hm0, Hs0, Hu0.
  rewrite Hb. destruct r.(date) as [y m d H M S U]. simpl in *.
  unfold midnight. congruence.
Qed.

Lemma filter_records_stable_filter_witness :
  filter_records mixed_records (Some "USD") (Some "2023-01-01")
                 (Some "2023-01-15")
  = Ok [record_at (midnight 2023 1 15) "USD";
        record_at (half_past_ten 2023 1 1) "USD"].
Proof.
  apply (filter_records_stable_filter mixed_records (Some "USD")
           (Some "2023-01-01") (Some "2023-01-15")
           (Some (midnight 2023 1 1)) (Some (midnight 2023 1 15)));
    (apply bound_day; [discriminate | vm_compute; reflexivity]).
Defined.

(** A date argument that does not read as a day makes the call raise. *)
Lemma filter_records_bad_bound (records : list TournamentRecord)
  (cur max_date : option string) (s : string) :
  s <> "" -> raises (strptime s "%Y-%m-%d") ->
  raises (filter_records records cur (Some s) max_date).
Proof.
  intros Hs [e He]. unfold filter_records, date_bound.
  destruct s; [congruence |]. simpl truthy. cbv iota.
  rewrite He. exists e. reflexivity.
Qed.

(* ================================================================= *)
(** ** Rounding facts *)

Lemma digits2_size (p : positive) : digits2_pos p = Pos.size p.
Proof. induction p as [p IH|p IH|]; simpl; [now rewrite IH | now rewrite IH | reflexivity]. Qed.

Lemma Zdigits2_nonneg (m : Z) : 0 <= Zdigits2 m.
Proof. destruct m; simpl; lia. Qed.

Lemma Zdigits2_upper (m : Z) : 0 <= m -> m < 2 ^ Zdigits2 m.
Proof.
  destruct m as [|p|p]; unfold Zdigits2; intros H; [reflexivity | | lia].
  rewrite digits2_size, <- Pos2Z.inj_pow.
  apply Pos2Z.pos_lt_pos. apply Pos.size_gt.
Qed.

Lemma Zdigits2_lower (m : Z) : 0 < m -> 2 ^ (Zdigits2 m - 1) <= m.
Proof.
  destruct m as [|p|p]; unfold Zdigits2; intros H; [lia | | lia].
  rewrite digits2_size.
  assert (G : 2 ^ Z.pos (Pos.size p) <= 2 * Z.pos p).
  { rewrite <- Pos2Z.inj_pow.
    change (2 * Z.pos p) with (Z.pos p~0).
    apply Pos2Z.pos_le_pos. apply Pos.size_le. }
  replace (Z.pos (Pos.size p)) with (Z.succ (Z.pos (Pos.size p) - 1)) in G
    by lia.
  rewrite Z.pow_succ_r in G by lia. lia.
Qed.

(** [m < 2 ^ k] bounds the number of digits by [k]. *)
Lemma Zdigits2_le (m k : Z) : 0 <= m -> 0 <= k -> m < 2 ^ k -> Zdigits2 m <= k.
Proof.
  intros Hm Hk H.
  destruct (Z.eq_dec m 0) as [->|N]; [simpl; lia |].
  pose proof (Zdigits2_lower m ltac:(lia)) as L.
  pose proof (Zdigits2_nonneg m) as D.
  destruct (Z_le_gt_dec (Zdigits2 m) k) as [|G]; [assumption | exfalso].
  assert (2 ^ k <= 2 ^ (Zdigits2 m - 1)) by (apply Z.pow_le_mono_r; lia).
  lia.
Qed.

(** [2 ^ k <= m] forces more than [k] digits. *)
Lemma Zdigits2_gt (m k : Z) : 0 <= k -> 2 ^ k <= m -> k < Zdigits2 m.
Proof.
  intros Hk H.
  assert (Hm : 0 < m) by (pose proof (Z.pow_pos_nonneg 2 k); lia).
  pose proof (Zdigits2_upper m ltac:(lia)) as U.
  pose proof (Zdigits2_nonneg m) as D.
  destruct (Z_lt_le_dec k (Zdigits2 m)) as [|G]; [assumption | exfalso].
  assert (2 ^ Zdigits2 m <= 2 ^ k) by (apply Z.pow_le_mono_r; lia).
  lia.
Qed.

Lemma shr_1_m (mrs : shr_record) :
  0 <= shr_m mrs -> shr_m (shr_1 mrs) = shr_m mrs / 2.
Proof.
  destruct mrs as [m r s]. simpl. intros H. rewrite <- Z.div2_div.
  destruct m as [|[p|p|]|p]; try reflexivity; lia.
Qed.

Lemma iter_pos_shr_1 (p : positive) :
  forall mrs, 0 <= shr_m mrs ->
              shr_m (iter_pos shr_1 p mrs) = shr_m mrs / 2 ^ Z.pos p.
Proof.
  assert (P2 : forall q, 0 < 2 ^ Z.pos q)
    by (intros q; apply Z.pow_pos_nonneg; lia).
  assert (N : forall a b, 0 <= a -> 0 < b -> 0 <= a / b)
    by (intros a b Ha Hb; apply Z.div_pos; lia).
  induction p as [p IH|p IH|]; intros mrs H; cbn [iter_pos].
  - pose proof (shr_1_m mrs H) as H1.
    assert (G1 : 0 <= shr_m (shr_1 mrs)) by (rewrite H1; apply N; lia).
    pose proof (IH _ G1) as H2.
    assert (G2 : 0 <= shr_m (iter_pos shr_1 p (shr_1 mrs)))
      by (rewrite H2; apply N; [exact G1 | apply P2]).
    rewrite (IH _ G2), H2, H1.
    rewrite !Z.div_div by (try apply P2; lia).
    f_equal.
    replace (Z.pos p~1) with (Z.succ (Z.pos p + Z.pos p)) by lia.
    rewrite Z.pow_succ_r, Z.pow_add_r by lia. ring.
  - pose proof (IH _ H) as H1.
    assert (G1 : 0 <= shr_m (iter_pos shr_1 p mrs))
      by (rewrite H1; apply N; [exact H | apply P2]).
    rewrite (IH _ G1), H1.
    rewrite !Z.div_div by (try apply P2; lia).
    f_equal.
    replace (Z.pos p~0) with (Z.pos p + Z.pos p) by lia.
    rewrite Z.pow_add_r by lia. reflexivity.
  - rewrite shr_1_m by assumption. reflexivity.
Qed.

(** A shift divides the mantissa and raises the exponent by the same
    amount; a shift that is not positive does nothing. *)
Lemma shr_spec (mrs : shr_record) (e n : Z) :
  0 <= shr_m mrs ->
  shr_m (fst (shr mrs e n)) = shr_m mrs / 2 ^ Z.max 0 n
  /\ snd (shr mrs e n) = e + Z.max 0 n.
Proof.
  intros H. destruct n as [|p|p]; simpl.
  - rewrite Z.div_1_r. split; [reflexivity | lia].
  - rewrite iter_pos_shr_1 by assumption. split; reflexivity.
  - rewrite Z.div_1_r. split; [reflexivity | lia].
Qed.

Lemma shr_record_of_loc_m (m : Z) (l : location) :
  shr_m (shr_record_of_loc m l) = m.
Proof. destruct l as [|[| |]]; reflexivity. Qed.

Lemma shr_fexp_spec (m e : Z) (l : location) :
  0 <= m ->
  let n := Z.max 0 (fexp prec emax (Zdigits2 m + e) - e) in
  shr_m (fst (shr_fexp prec emax m e l)) = m / 2 ^ n
  /\ snd (shr_fexp prec emax m e l) = e + n.
Proof.
  intros H n. unfold shr_fexp.
  pose proof (shr_spec (shr_record_of_loc m l) e
                (fexp prec emax (Zdigits2 m + e) - e)) as S.
  rewrite shr_record_of_loc_m in S. apply S. exact H.
Qed.

Lemma round_nearest_even_bounds (m : Z) (l : location) :
  m <= round_nearest_even m l <= m + 1.
Proof.
  destruct l as [|[| |]]; simpl; try lia. destruct (Z.even m); lia.
Qed.

(** The two steps of [binary_round_aux] on a mantissa that is not
    negative: shift to the target exponent, round, shift once more if the
    rounding carried. *)
Lemma binary_round_aux_steps (s : bool) (m e : Z) (l : location) :
  0 <= m ->
  exists m1 : Z,
    let n1 := Z.max 0 (fexp prec emax (Zdigits2 m + e) - e) in
    let e1 := e + n1 in
    let n2 := Z.max 0 (fexp prec emax (Zdigits2 m1 + e1) - e1) in
    m / 2 ^ n1 <= m1 <= m / 2 ^ n1 + 1
    /\ binary_round_aux prec emax s m e l
       = match m1 / 2 ^ n2 with
         | 0 => S754_zero s
         | Z.pos p =>
             if e1 + n2 <=? emax - prec then S754_finite s p (e1 + n2)
             else S754_infinity s
         | Z.neg _ => S754_nan
         end.
Proof.
  intros H. unfold binary_round_aux.
  destruct (shr_fexp_spec m e l H) as [Hm He].
  destruct (shr_fexp prec emax m e l) as [mrs' e'] eqn:E1. simpl in Hm, He.
  set (m1 := round_nearest_even (shr_m mrs') (loc_of_shr_record mrs')).
  assert (B : shr_m mrs' <= m1 <= shr_m mrs' + 1)
    by apply round_nearest_even_bounds.
  assert (P : 0 <= shr_m mrs').
  { rewrite Hm. apply Z.div_pos; [lia |]. apply Z.pow_pos_nonneg; lia. }
  destruct (shr_fexp_spec m1 e' loc_Exact ltac:(lia)) as [Hm2 He2].
  destruct (shr_fexp prec emax m1 e' loc_Exact) as [mrs'' e''] eqn:E2.
  simpl in Hm2, He2.
  exists m1. cbv zeta. rewrite <- He, <- Hm. split; [exact B |].
  rewrite Hm2, He2. reflexivity.
Qed.

Lemma pow2_div (a n : Z) : 0 <= n -> n <= a -> 2 ^ a / 2 ^ n = 2 ^ (a - n).
Proof.
  intros Hn Ha.
  replace a with ((a - n) + n) at 1 by lia.
  rewrite Z.pow_add_r by lia.
  apply Z.div_mul. apply Z.pow_nonzero; lia.
Qed.

(** Rounding a positive mantissa that is not below the smallest
    subnormal never gives a zero. *)
Lemma binary_round_aux_nonzero (s : bool) (m e : Z) (l : location) :
  0 < m -> - 1073 <= Zdigits2 m + e ->
  is_zero (binary_round_aux prec emax s m e l) = false.
Proof.
  intros Hm HD.
  destruct (binary_round_aux_steps s m e l ltac:(lia)) as (m1 & B & ->).
  cbv zeta in B.
  set (n1 := Z.max 0 (fexp prec emax (Zdigits2 m + e) - e)) in *.
  set (e1 := e + n1).
  set (n2 := Z.max 0 (fexp prec emax (Zdigits2 m1 + e1) - e1)).
  pose proof (Zdigits2_lower m Hm) as Lm.
  pose proof (Zdigits2_upper m ltac:(lia)) as Um.
  assert (Dm : 1 <= Zdigits2 m).
  { destruct m; simpl in *; lia. }
  assert (N1 : 0 <= n1 <= Zdigits2 m - 1).
  { unfold n1, fexp, emin, prec, emax. lia. }
  assert (Q1 : 2 ^ (Zdigits2 m - 1 - n1) <= m / 2 ^ n1).
  { apply Z.div_le_lower_bound; [apply Z.pow_pos_nonneg; lia |].
    rewrite <- Z.pow_add_r by lia.
    replace (n1 + (Zdigits2 m - 1 - n1)) with (Zdigits2 m - 1) by lia.
    exact Lm. }
  assert (P1 : 0 < 2 ^ (Zdigits2 m - 1 - n1))
    by (apply Z.pow_pos_nonneg; lia).
  assert (Hm1 : 0 < m1) by lia.
  assert (D1 : Zdigits2 m - n1 <= Zdigits2 m1).
  { pose proof (Zdigits2_gt m1 (Zdigits2 m - 1 - n1) ltac:(lia) ltac:(lia)).
    lia. }
  pose proof (Zdigits2_lower m1 Hm1) as Lm1.
  assert (N2 : 0 <= n2 <= Zdigits2 m1 - 1).
  { unfold n2, e1, fexp, emin, prec, emax. lia. }
  assert (Q2 : 1 <= m1 / 2 ^ n2).
  { apply Z.div_le_lower_bound; [apply Z.pow_pos_nonneg; lia |].
    rewrite Z.mul_1_r.
    assert (2 ^ n2 <= 2 ^ (Zdigits2 m1 - 1)) by (apply Z.pow_le_mono_r; lia).
    lia. }
  destruct (m1 / 2 ^ n2) as [|p|p]; try lia.
  destruct (e1 + n2 <=? emax - prec); reflexivity.
Qed.

Lemma float_of_Z_nonzero (z : Z) : 0 < z -> is_zero (float_of_Z z) = false.
Proof.
  destruct z as [|p|p]; try lia. intros _.
  unfold float_of_Z, binary_normalize, binary_round.
  destruct (shl_align p 0 (fexp prec emax (Z.pos (digits2_pos p) + 0)))
    as [mz ez] eqn:E.
  apply binary_round_aux_nonzero; [lia |].
  assert (Dz : 1 <= Zdigits2 (Z.pos mz)) by (simpl; lia).
  unfold shl_align in E.
  destruct (fexp prec emax (Z.pos (digits2_pos p) + 0) - 0) eqn:F;
    injection E as <- <-; try (simpl in *; lia).
  unfold fexp, emin, prec, emax in *. lia.
Qed.

(** Rounding a mantissa that stands for a number of at most one gives a
    finite float. *)
Lemma binary_round_aux_finite (s : bool) (m e : Z) (l : location) :
  0 <= m -> e <= 0 -> m <= 2 ^ (- e) ->
  is_finite (binary_round_aux prec emax s m e l) = true.
Proof.
  intros Hm He Hb.
  destruct (binary_round_aux_steps s m e l Hm) as (m1 & B & ->).
  cbv zeta in B.
  set (n1 := Z.max 0 (fexp prec emax (Zdigits2 m + e) - e)) in *.
  set (e1 := e + n1).
  set (n2 := Z.max 0 (fexp prec emax (Zdigits2 m1 + e1) - e1)).
  assert (Dm : Zdigits2 m <= - e + 1).
  { apply Zdigits2_le; try lia.
    rewrite Z.pow_add_r, Z.pow_1_r by lia.
    pose proof (Z.pow_pos_nonneg 2 (- e)). lia. }
  pose proof (Zdigits2_nonneg m) as Dm0.
  assert (N1 : 0 <= n1 /\ e1 <= 0).
  { unfold e1, n1, fexp, emin, prec, emax. lia. }
  assert (Q1 : m / 2 ^ n1 <= 2 ^ (- e1)).
  { replace (- e1) with (- e - n1) by (unfold e1; lia).
    rewrite <- pow2_div by (unfold e1 in N1; lia).
    apply Z.div_le_mono; [apply Z.pow_pos_nonneg; lia | exact Hb]. }
  assert (Q0 : 0 <= m / 2 ^ n1)
    by (apply Z.div_pos; [lia | apply Z.pow_pos_nonneg; lia]).
  assert (P1 : 0 < 2 ^ (- e1)) by (apply Z.pow_pos_nonneg; lia).
  assert (D1 : Zdigits2 m1 <= 2 - e1).
  { apply Zdigits2_le; try lia.
    replace (2 - e1) with (- e1 + 1 + 1) by lia.
    rewrite !Z.pow_add_r, Z.pow_1_r by lia. lia. }
  pose proof (Zdigits2_nonneg m1) as Dm1.
  assert (E2 : 0 <= n2 /\ e1 + n2 <= 0).
  { unfold n2, fexp, emin, prec, emax. lia. }
  assert (Q2 : 0 <= m1 / 2 ^ n2)
    by (apply Z.div_pos; [lia | apply Z.pow_pos_nonneg; lia]).
  destruct (m1 / 2 ^ n2) as [|p|p]; try reflexivity; try lia.
  replace (e1 + n2 <=? emax - prec) with true; [reflexivity |].
  symmetry. apply Z.leb_le. unfold emax, prec. lia.
Qed.

(** The quotient of a count by a length it does not exceed is finite. *)
Lemma round_quotient_finite (s : bool) (a b : Z) :
  0 <= a <= b -> 0 < b -> is_finite (round_quotient s a 0 b) = true.
Proof.
  intros Ha Hb. unfold round_quotient, SFdiv_core_binary.
  set (e' := Z.min (fexp prec emax (Zdigits2 a + 0 - (Zdigits2 b + 0))) (0 - 0)).
  assert (He : e' <= 0) by (unfold e'; lia).
  set (m' := match 0 - 0 - e' with
             | 0 => a
             | Z.pos _ => Z.shiftl a (0 - 0 - e')
             | Z.neg _ => 0
             end).
  assert (Hm' : m' = a * 2 ^ (- e')).
  { unfold m'. destruct (0 - 0 - e') eqn:E; try lia.
    - replace (- e') with 0 by lia. simpl. lia.
    - rewrite Z.shiftl_mul_pow2 by lia. f_equal. f_equal. lia. }
  pose proof (Z_div_mod m' b ltac:(lia)) as DM.
  destruct (Z.div_eucl m' b) as [q r]. destruct DM as [DM Hr].
  assert (P : 0 < 2 ^ (- e')) by (apply Z.pow_pos_nonneg; lia).
  assert (Hq : 0 <= q <= 2 ^ (- e')) by nia.
  apply binary_round_aux_finite; lia.
Qed.

(** True division by a positive int, and of a count by a length, never
    raises. *)
Lemma py_truediv_float_int (f : float) (n : Z) :
  0 < n ->
  py_truediv (PFloat f) (PInt n) = Ok (PFloat (fdiv f (float_of_Z n))).
Proof.
  intros H. unfold py_truediv, as_float.
  rewrite (float_of_Z_nonzero n H). reflexivity.
Qed.

Lemma py_truediv_count (a b : Z) :
  0 <= a <= b -> 0 < b ->
  py_truediv (PInt a) (PInt b)
  = Ok (PFloat (if a =? 0 then fzero else round_quotient false a 0 b)).
Proof.
  intros Ha Hb. unfold py_truediv.
  rewrite (proj2 (Z.eqb_neq b 0)) by lia.
  rewrite (proj2 (Z.ltb_ge a 0)), (proj2 (Z.ltb_ge b 0)) by lia. simpl xorb.
  destruct (a =? 0) eqn:E; [reflexivity |].
  rewrite !Z.abs_eq by lia.
  rewrite round_quotient_finite by lia. reflexivity.
Qed.

(** A float above zero is not a zero, so dividing by it never raises. *)
Lemma py_truediv_float_pos (a b : float) :
  py_gt (PFloat b) (PInt 0) = true ->
  py_truediv (PFloat a) (PFloat b) = Ok (PFloat (fdiv a b)).
Proof.
  unfold py_gt, py_truediv, as_float. destruct b; simpl; try discriminate;
    reflexivity.
Qed.

(* ================================================================= *)
(** ** The profit of a record *)

Lemma SFcompare_refl (f : float) : is_nan f = false -> feqb f f = true.
Proof.
  unfold feqb, SFeqb.
  destruct f as [s|s| |s m e]; simpl; try reflexivity; try discriminate.
  - destruct s; reflexivity.
  - intros _. rewrite Z.compare_refl.
    assert (H : Pos.compare_cont Eq m m = Eq) by apply Pos.compare_refl.
    rewrite H. destruct s; reflexivity.
Qed.

Lemma feqb_refl_iff (f : float) : feqb f f = true <-> is_nan f = false.
Proof.
  split; [| apply SFcompare_refl].
  destruct f; [reflexivity | reflexivity | discriminate | reflexivity].
Qed.

(** Rounding a magnitude never gives NaN. *)
Lemma binary_round_aux_not_nan (s : bool) (m e : Z) (l : location) :
  0 <= m -> is_nan (binary_round_aux prec emax s m e l) = false.
Proof.
  intros Hm.
  destruct (binary_round_aux_steps s m e l Hm) as (m1 & Hb & E).
  cbv zeta in Hb, E. rewrite E.
  remember (Z.max 0 (fexp prec emax (Zdigits2 m + e) - e)) as n1 eqn:En1.
  remember (Z.max 0 (fexp prec emax (Zdigits2 m1 + (e + n1)) - (e + n1)))
    as n2 eqn:En2.
  assert (P1 : 0 < 2 ^ n1) by (apply Z.pow_pos_nonneg; lia).
  assert (P2 : 0 < 2 ^ n2) by (apply Z.pow_pos_nonneg; lia).
  assert (Q1 : 0 <= m / 2 ^ n1) by (apply Z.div_pos; lia).
  assert (Q2 : 0 <= m1 / 2 ^ n2) by (apply Z.div_pos; lia).
  destruct (m1 / 2 ^ n2) as [|q|q]; [reflexivity | | lia].
  destruct (e + n1 + n2 <=? emax - prec); reflexivity.
Qed.

Lemma binary_normalize_not_nan (m e : Z) :
  is_nan (binary_normalize prec emax m e false) = false.
Proof.
  destruct m as [|q|q]; [reflexivity | |];
    cbv beta iota delta [binary_normalize binary_round];
    destruct (shl_align _ _ _) as [mz ez];
    apply binary_round_aux_not_nan; lia.
Qed.

(** A difference is NaN when an operand is, or when both are infinities
    of the same sign, and in no other case. *)
Lemma fsub_nan (a b : float) :
  is_nan (fsub a b) = true <->
  is_nan a = true \/ is_nan b = true
  \/ exists s, a = S754_infinity s /\ b = S754_infinity s.
Proof.
  destruct a as [sa|sa| |sa ma ea], b as [sb|sb| |sb mb eb];
    cbv beta iota delta [fsub SFsub];
    try rewrite binary_normalize_not_nan;
    try (destruct sa, sb); cbn [is_nan];
    (split;
     [ intros H; try discriminate H; auto;
       right; right; eexists; split; reflexivity
     | intros [H|[H|(s & Ha & Hb)]]; try discriminate; try reflexivity;
       congruence ]).
Qed.

(** C4, as stated, fails: the text "nan" is an amount for [float()], so
    the line with BuyIn "nan" gives a record whose buy-in and profit are
    NaN, and [profit == prize - buyin_total] is false for it. *)
Lemma profit_nan_counterexample :
  map (fun r => (is_nan r.(buyin_total), is_nan r.(profit),
                 feqb r.(profit) (fsub r.(prize) r.(buyin_total))))
      (load_summaries cpython312 [file_nan_buyin])
  = [(true, true, false)].
Proof. vm_compute. reflexivity. Qed.

(** C4, amended.  Every record produced by the loader is built from a
    line of one of the files, and its profit is recomputed from that
    line: it is the binary64 difference [prize - buyin_total] of the
    coerced Result and BuyIn cells, the same float.  Under [==] the
    profit equals that difference exactly when it is not NaN, and it is
    NaN exactly when one of the two amounts is NaN or both are
    infinities of the same sign. *)
Theorem load_summaries_profit (py : interp) (files : list csv_file)
  (r : TournamentRecord) :
  In r (load_summaries py files) ->
  exists fieldnames events cells,
    In (Readable (Line fieldnames :: events)) files
    /\ In (Line cells) events
    /\ process_row py (dict_row fieldnames cells) = Ok (Some r)
    /\ r.(prize) = to_float (row_get (dict_row fieldnames cells) "Result")
    /\ r.(buyin_total)
       = to_float (row_get (dict_row fieldnames cells) "BuyIn")
    /\ r.(profit) = fsub r.(prize) r.(buyin_total)
    /\ (feqb r.(profit) (fsub r.(prize) r.(buyin_total)) = true <->
        is_nan r.(profit) = false)
    /\ (is_nan r.(profit) = true <->
        is_nan r.(prize) = true \/ is_nan r.(buyin_total) = true
        \/ exists s, r.(prize) = S754_infinity s
                     /\ r.(buyin_total) = S754_infinity s).
Proof.
  intros H.
  destruct (load_summaries_In py files r H)
    as (fn & evs & cells & Hf & Hl & Hp).
  destruct (process_row_record py _ _ Hp) as (_ & Hb & Hz & Hprofit & _).
  exists fn, evs, cells.
  split; [exact Hf |]. split; [exact Hl |]. split; [exact Hp |].
  split; [exact Hz |]. split; [exact Hb |]. split; [exact Hprofit |].
  split.
  - rewrite <- Hprofit. apply feqb_refl_iff.
  - rewrite Hprofit at 1. apply fsub_nan.
Qed.

Lemma load_summaries_profit_witness :
  load_summaries cpython312 [file_with_profit_column] = [record_of_profit_file]
  /\ record_of_profit_file.(profit)
     = fsub record_of_profit_file.(prize) record_of_profit_file.(buyin_total)
  /\ feqb record_of_profit_file.(profit)
          (fsub record_of_profit_file.(prize)
                record_of_profit_file.(buyin_total)) = true.
Proof.
  split; [vm_compute; reflexivity |].
  destruct (load_summaries_profit cpython312 [file_with_profit_column]
              record_of_profit_file)
    as (fn & evs & cells & _ & _ & _ & _ & _ & Hprofit & Heq & _).
  - vm_compute. left. reflexivity.
  - split; [exact Hprofit |]. apply (proj2 Heq). vm_compute. reflexivity.
Defined.

(* ================================================================= *)
(** ** Overall aggregation *)

Lemma int_sum_ones {A : Type} (l : list A) :
  int_sum (map (fun _ => 1) l) = Z.of_nat (List.length l).
Proof.
  unfold int_sum.
  assert (G : forall acc, fold_left Z.add (map (fun _ : A => 1) l) acc
                          = acc + Z.of_nat (List.length l)).
  { induction l as [|a l IH]; intros acc; simpl List.length; simpl map;
      simpl fold_left; [lia | rewrite IH; lia]. }
  rewrite G. lia.
Qed.

(** C2, as stated, fails: for the record loaded from the line with BuyIn
    "-5" the summed buy-in is -5.0, which is not 0, and the profit over it
    is -100 percent, but the code returns 0. *)
Lemma aggregate_overall_negative_buyin_counterexample :
  let records := load_summaries cpython312 [file_negative_buyin] in
  let minus_five := PFloat (float_of_text "-5") in
  let five := PFloat (float_of_text "5") in
  aggregate_overall cpython312 records
  = Ok {| Overall.total_tournaments := 1;
          Overall.total_buyin := minus_five;
          Overall.total_prize := PFloat fzero;
          Overall.total_profit := five;
          Overall.roi_percent := PInt 0;
          Overall.itm_percent := PFloat fzero;
          Overall.abi := minus_five |}
  /\ aggregate_overall cpython310 records
     = aggregate_overall cpython312 records
  /\ roi_as_specified five minus_five = Ok (PFloat (float_of_text "-100")).
Proof. repeat split; vm_compute; reflexivity. Qed.

(** C2, amended.  [aggregate_overall] always returns: the number of
    records, the summed buy-in, the summed prize, profit = summed prize -
    summed buy-in, roi = profit / summed buy-in * 100 when the summed
    buy-in is above zero and 0 otherwise, itm = (records with prize > 0) /
    total * 100 and abi = summed buy-in / total when there is a record
    and 0 otherwise.  No division raises; on the empty list the three
    ratios are 0. *)
Theorem aggregate_overall_stats (py : interp)
  (records : list TournamentRecord) :
  exists o,
    aggregate_overall py records = Ok o
    /\ o.(Overall.total_tournaments) = Z.of_nat (List.length records)
    /\ o.(Overall.total_buyin) = py_sum py (map buyin_total records)
    /\ o.(Overall.total_prize) = py_sum py (map prize records)
    /\ o.(Overall.total_profit)
       = py_sub o.(Overall.total_prize) o.(Overall.total_buyin)
    /\ o.(Overall.roi_percent)
       = (if py_gt o.(Overall.total_buyin) (PInt 0)
          then PFloat (fmul (fdiv (as_float o.(Overall.total_profit))
                                  (as_float o.(Overall.total_buyin)))
                            (float_of_Z 100))
          else PInt 0)
    /\ o.(Overall.itm_percent)
       = (if o.(Overall.total_tournaments) >? 0
          then PFloat (fmul (if in_the_money records =? 0 then fzero
                             else round_quotient false (in_the_money records)
                                    0 o.(Overall.total_tournaments))
                            (float_of_Z 100))
          else PInt 0)
    /\ o.(Overall.abi)
       = (if o.(Overall.total_tournaments) >? 0
          then PFloat (fdiv (as_float o.(Overall.total_buyin))
                            (float_of_Z o.(Overall.total_tournaments)))
          else PInt 0)
    /\ (records = [] ->
        o.(Overall.roi_percent) = PInt 0 /\ o.(Overall.itm_percent) = PInt 0
        /\ o.(Overall.abi) = PInt 0).
Proof.
  destruct records as [|r records].
  { eexists. split; [reflexivity |]. cbn. repeat split; reflexivity. }
  unfold aggregate_overall.
  rewrite int_sum_ones. fold (in_the_money (r :: records)).
  remember (Z.of_nat (List.length (r :: records))) as n eqn:En.
  assert (Hn : 0 < n) by (rewrite En; simpl List.length; lia).
  assert (Hk : 0 <= in_the_money (r :: records) <= n).
  { unfold in_the_money. rewrite En. split; [lia |].
    apply inj_le. apply filter_length_le. }
  remember (in_the_money (r :: records)) as k eqn:Ek.
  assert (Hb : exists tb, py_sum py (map buyin_total (r :: records)) = PFloat tb)
    by (simpl; eauto).
  assert (Hp : exists tp, py_sum py (map prize (r :: records)) = PFloat tp)
    by (simpl; eauto).
  destruct Hb as [tb Hb]. destruct Hp as [tp Hp]. rewrite Hb, Hp.
  assert (Hg : (n >? 0) = true) by (apply Z.gtb_lt; exact Hn).
  rewrite Hg.
  unfold percent_if, ratio_if.
  rewrite (py_truediv_count _ _ Hk Hn), (py_truediv_float_int _ _ Hn).
  cbn [py_sub as_float].
  destruct (py_gt (PFloat tb) (PInt 0)) eqn:G.
  - rewrite (py_truediv_float_pos _ _ G). cbn [bind].
    eexists. split; [reflexivity |].
    cbn [Overall.total_tournaments Overall.total_buyin Overall.total_prize
         Overall.total_profit Overall.roi_percent Overall.itm_percent
         Overall.abi py_sub as_float py_mul].
    rewrite G, Hg.
    repeat split; try reflexivity; discriminate.
  - cbn [bind].
    eexists. split; [reflexivity |].
    cbn [Overall.total_tournaments Overall.total_buyin Overall.total_prize
         Overall.total_profit Overall.roi_percent Overall.itm_percent
         Overall.abi py_sub as_float py_mul].
    rewrite G, Hg.
    repeat split; try reflexivity; discriminate.
Qed.

(* ================================================================= *)
(** ** Group-by aggregation *)

Section DictFacts.

Context {V : Type}.

Lemma dict_get_set (d : dict V) (k k' : string) (v : V) :
  dict_get (dict_set d k v) k'
  = if String.eqb k' k then Some v else dict_get d k'.
Proof.
  induction d as [|(a, w) d IH]; simpl.
  - reflexivity.
  - destruct (String.eqb_spec k a) as [->|N]; simpl.
    + destruct (String.eqb k' a); reflexivity.
    + rewrite IH. destruct (String.eqb_spec k' a) as [->|N'].
      * destruct (String.eqb_spec a k); [congruence | reflexivity].
      * reflexivity.
Qed.

Lemma dict_set_set (d : dict V) (k : string) (v v' : V) :
  dict_set (dict_set d k v) k v' = dict_set d k v'.
Proof.
  induction d as [|(a, w) d IH]; simpl.
  - rewrite String.eqb_refl. reflexivity.
  - destruct (String.eqb k a) eqn:E; simpl; rewrite E; [reflexivity |].
    now rewrite IH.
Qed.

(** Setting a key of a dictionary laid out over a duplicate-free list of
    keys. *)
Lemma dict_set_map (f : string -> V) (keys : list string) (k : string) (v : V) :
  NoDup keys ->
  dict_set (map (fun g => (g, f g)) keys) k v
  = map (fun g => (g, if String.eqb g k then v else f g)) keys
    ++ (if list_mem k keys then [] else [(k, v)]).
Proof.
  unfold list_mem. induction keys as [|a keys IH]; intros ND; simpl.
  - reflexivity.
  - inversion ND as [|? ? Ha ND']; subst.
    destruct (String.eqb_spec k a) as [->|N]; simpl.
    + rewrite String.eqb_refl, app_nil_r. f_equal.
      apply map_ext_in. intros g Hg.
      destruct (String.eqb_spec g a) as [->|]; [contradiction | reflexivity].
    + rewrite (IH ND').
      destruct (String.eqb_spec a k); [congruence | reflexivity].
Qed.

Lemma dict_get_map (f : string -> V) (keys : list string) (k : string) :
  dict_get (map (fun g => (g, f g)) keys) k
  = if list_mem k keys then Some (f k) else None.
Proof.
  unfold list_mem. induction keys as [|a keys IH]; simpl; [reflexivity |].
  destruct (String.eqb_spec k a) as [->|N]; simpl; [reflexivity | exact IH].
Qed.

End DictFacts.

Lemma list_mem_In (k : string) (l : list string) :
  list_mem k l = true <-> In k l.
Proof.
  unfold list_mem. rewrite existsb_exists. split.
  - intros (x & Hx & E). apply String.eqb_eq in E. now subst.
  - intros H. exists k. split; [exact H | apply String.eqb_refl].
Qed.

Lemma first_seen_In (l : list string) (k : string) :
  In k (first_seen l) <-> In k l.
Proof.
  induction l as [|a l IH]; simpl; [tauto |].
  rewrite filter_In, IH.
  destruct (String.eqb_spec k a) as [->|N]; simpl.
  - split; auto.
  - split.
    + intros [E|[H _]]; auto.
    + intros [E|H]; [congruence | auto].
Qed.

Lemma NoDup_filter {A : Type} (p : A -> bool) (l : list A) :
  NoDup l -> NoDup (filter p l).
Proof.
  induction 1 as [|a l Ha ND IH]; simpl; [constructor |].
  destruct (p a); [| exact IH].
  constructor; [| exact IH]. rewrite filter_In. tauto.
Qed.

Lemma first_seen_NoDup (l : list string) : NoDup (first_seen l).
Proof.
  induction l as [|a l IH]; simpl; constructor.
  - rewrite filter_In. intros [_ H]. rewrite String.eqb_refl in H.
    discriminate.
  - apply NoDup_filter. exact IH.
Qed.

Lemma first_seen_snoc (l : list string) (k : string) :
  first_seen (l ++ [k])
  = first_seen l ++ (if list_mem k l then [] else [k]).
Proof.
  unfold list_mem. induction l as [|a l IH]; simpl; [reflexivity |].
  rewrite IH, filter_app. f_equal.
  destruct (String.eqb_spec k a) as [->|N]; simpl.
  - destruct (existsb (String.eqb a) l); simpl; [reflexivity |].
    rewrite String.eqb_refl. reflexivity.
  - destruct (existsb (String.eqb k) l); simpl; [reflexivity |].
    destruct (String.eqb_spec k a); [congruence | reflexivity].
Qed.

Lemma accumulate_ok (groups : dict Group.sums) (g : string)
  (r : TournamentRecord) :
  accumulate groups g r
  = Ok (dict_set groups g
          (add_record (match dict_get groups g with
                       | Some v => v
                       | None => new_group
                       end) r)).
Proof.
  unfold accumulate, dict_mem, dict_item.
  destruct (dict_get groups g) as [v|] eqn:E; simpl.
  - rewrite E. reflexivity.
  - rewrite dict_get_set, String.eqb_refl. simpl.
    rewrite dict_set_set. reflexivity.
Qed.

Lemma accumulate_all_snoc (key : TournamentRecord -> string)
  (records : list TournamentRecord) (r : TournamentRecord) :
  forall groups,
    accumulate_all key groups (records ++ [r])
    = (groups' <- accumulate_all key groups records ;;
       accumulate groups' (key r) r).
Proof.
  induction records as [|a records IH]; intros groups; simpl.
  - destruct (accumulate groups (key r) r); reflexivity.
  - destruct (accumulate groups (key a) a) as [g'|e]; simpl; [apply IH |].
    reflexivity.
Qed.

Lemma members_snoc (key : TournamentRecord -> string) (g : string)
  (records : list TournamentRecord) (r : TournamentRecord) :
  members key g (records ++ [r])
  = members key g records ++ (if String.eqb (key r) g then [r] else []).
Proof. unfold members. rewrite filter_app. reflexivity. Qed.

Lemma members_nil (key : TournamentRecord -> string) (g : string)
  (records : list TournamentRecord) :
  list_mem g (map key records) = false -> members key g records = [].
Proof.
  unfold members, list_mem. induction records as [|a records IH]; simpl;
    [reflexivity |].
  rewrite (String.eqb_sym (key a) g).
  destruct (String.eqb g (key a)); simpl; [discriminate | exact IH].
Qed.

Lemma members_cons (key : TournamentRecord -> string) (g : string)
  (records : list TournamentRecord) :
  list_mem g (map key records) = true -> members key g records <> [].
Proof.
  unfold members, list_mem. induction records as [|a records IH]; simpl;
    [discriminate |].
  rewrite (String.eqb_sym (key a) g).
  destruct (String.eqb g (key a)); simpl; [discriminate | exact IH].
Qed.

Lemma sums_of_snoc (rs : list TournamentRecord) (r : TournamentRecord) :
  sums_of (rs ++ [r]) = add_record (sums_of rs) r.
Proof. unfold sums_of. rewrite fold_left_app. reflexivity. Qed.

(** The first loop lays the groups out in first-seen order, each with the
    running sums of its own records; it never raises [KeyError]. *)
Lemma accumulate_all_groups (key : TournamentRecord -> string)
  (records : list TournamentRecord) :
  accumulate_all key [] records
  = Ok (map (fun g => (g, sums_of (members key g records)))
            (first_seen (map key records))).
Proof.
  induction records as [|r records IH] using rev_ind; [reflexivity |].
  rewrite accumulate_all_snoc, IH. cbn [bind].
  rewrite accumulate_ok. f_equal.
  rewrite dict_get_map, dict_set_map by apply first_seen_NoDup.
  rewrite map_app. cbn [map]. rewrite first_seen_snoc.
  assert (M : list_mem (key r) (first_seen (map key records))
              = list_mem (key r) (map key records)).
  { destruct (list_mem (key r) (map key records)) eqn:E.
    - apply (proj1 (list_mem_In _ _)) in E.
      apply (proj2 (list_mem_In _ _)), (proj2 (first_seen_In _ _)). exact E.
    - destruct (list_mem (key r) (first_seen (map key records))) eqn:F;
        [| reflexivity].
      apply (proj1 (list_mem_In _ _)), (proj1 (first_seen_In _ _)) in F.
      apply (proj2 (list_mem_In _ _)) in F. congruence. }
  rewrite M, map_app. f_equal.
  - apply map_ext. intros g. f_equal. rewrite members_snoc.
    rewrite (String.eqb_sym (key r) g).
    destruct (String.eqb_spec g (key r)) as [->|N].
    + rewrite sums_of_snoc.
      destruct (list_mem (key r) (map key records)) eqn:E; [reflexivity |].
      rewrite (members_nil key (key r) records E). reflexivity.
    + rewrite app_nil_r. reflexivity.
  - destruct (list_mem (key r) (map key records)) eqn:E; [reflexivity |].
    cbn [map]. rewrite members_snoc, String.eqb_refl, sums_of_snoc.
    rewrite (members_nil key (key r) records E). reflexivity.
Qed.

(** The fields of the running sums. *)
Lemma sums_of_fields (rs : list TournamentRecord) :
  (sums_of rs).(Group.count) = Z.of_nat (List.length rs)
  /\ (sums_of rs).(Group.buyin) = running_sum (map buyin_total rs)
  /\ (sums_of rs).(Group.prize) = running_sum (map prize rs)
  /\ (sums_of rs).(Group.profit) = running_sum (map profit rs).
Proof.
  unfold sums_of, running_sum.
  assert (G : forall v,
             (fold_left add_record rs v).(Group.count)
             = v.(Group.count) + Z.of_nat (List.length rs)
             /\ (fold_left add_record rs v).(Group.buyin)
                = fold_left py_add (map PFloat (map buyin_total rs))
                            v.(Group.buyin)
             /\ (fold_left add_record rs v).(Group.prize)
                = fold_left py_add (map PFloat (map prize rs)) v.(Group.prize)
             /\ (fold_left add_record rs v).(Group.profit)
                = fold_left py_add (map PFloat (map profit rs))
                            v.(Group.profit)).
  { induction rs as [|r rs IH]; intros v.
    - cbn. repeat split. lia.
    - cbn [fold_left map List.length].
      destruct (IH (add_record v r)) as (Hc & Hb & Hp & Hf).
      rewrite Hc, Hb, Hp, Hf. cbn [add_record Group.count Group.buyin
                                    Group.prize Group.profit].
      repeat split. lia. }
  destruct (G new_group) as (Hc & Hb & Hp & Hf).
  rewrite Hc, Hb, Hp, Hf. cbn. repeat split.
Qed.

(** After a first record a running sum is a float. *)
Lemma running_sum_float (x : float) (xs : list float) :
  exists f, running_sum (x :: xs) = PFloat f.
Proof.
  unfold running_sum. cbn [map fold_left].
  assert (G : forall a, exists f,
               fold_left py_add (map PFloat xs) (PFloat a) = PFloat f).
  { induction xs as [|y xs IH]; intros a; cbn [map fold_left]; [eauto |].
    apply IH. }
  apply G.
Qed.

(** The second loop never raises on the sums of a group that has a
    record, whichever of the two tests on the count is used. *)
Lemma derive_ok (guard : Z -> bool) (rs : list TournamentRecord) :
  rs <> [] ->
  (forall c, 1 <= c -> guard c = true) ->
  derive guard (sums_of rs) = Ok (derived (sums_of rs)).
Proof.
  intros Hrs Hg. unfold derive, derived.
  destruct (sums_of_fields rs) as (Hc & Hb & Hp & Hf).
  destruct rs as [|r rs]; [congruence |].
  assert (C : 1 <= (sums_of (r :: rs)).(Group.count))
    by (rewrite Hc; simpl List.length; lia).
  destruct (running_sum_float r.(buyin_total) (map buyin_total rs)) as [b Eb].
  destruct (running_sum_float r.(profit) (map profit rs)) as [p Ep].
  cbn [map] in Hb, Hf. rewrite Eb in Hb. rewrite Ep in Hf.
  rewrite Hb, Hf, (Hg _ C). unfold percent_if, ratio_if.
  rewrite py_truediv_float_int by lia.
  destruct (py_gt (PFloat b) (PInt 0)) eqn:G.
  - rewrite (py_truediv_float_pos _ _ G). reflexivity.
  - reflexivity.
Qed.

Lemma derive_all_groups (guard : Z -> bool) (f : string -> list TournamentRecord)
  (keys : list string) :
  (forall g, In g keys -> f g <> []) ->
  (forall c, 1 <= c -> guard c = true) ->
  derive_all guard (map (fun g => (g, sums_of (f g))) keys)
  = Ok (map (fun g => (g, derived (sums_of (f g)))) keys).
Proof.
  intros Hf Hg. induction keys as [|k keys IH]; [reflexivity |].
  cbn [map derive_all].
  rewrite (derive_ok guard (f k)) by (auto; apply Hf; left; reflexivity).
  cbn [bind]. rewrite IH by (intros g Hin; apply Hf; right; exact Hin).
  reflexivity.
Qed.

(** Both aggregations, for any key and either test on the count: the
    result is laid out over the first-seen keys and meets the
    specification of a group-by. *)
Lemma aggregate_by_groups (key : TournamentRecord -> string)
  (guard : Z -> bool) (records : list TournamentRecord) :
  (forall c, 1 <= c -> guard c = true) ->
  let groups :=
    map (fun g => (g, derived (sums_of (members key g records))))
        (first_seen (map key records)) in
  (gs <- accumulate_all key [] records ;; derive_all guard gs) = Ok groups
  /\ grouped_by key records groups.
Proof.
  intros Hg groups.
  assert (Hne : forall g, In g (first_seen (map key records)) ->
                          members key g records <> []).
  { intros g Hin. apply members_cons.
    apply (proj2 (list_mem_In _ _)), (proj1 (first_seen_In _ _)). exact Hin. }
  split.
  - rewrite accumulate_all_groups. cbn [bind].
    apply (derive_all_groups guard (fun g => members key g records));
      assumption.
  - split.
    + unfold groups, dict_keys. rewrite map_map. cbn [fst]. apply map_id.
    + intros g v Hin. unfold groups in Hin. apply in_map_iff in Hin.
      destruct Hin as (g' & E & Hin). injection E as -> <-.
      cbv zeta. cbn [derived Group.totals Group.roi_percent Group.abi].
      destruct (sums_of_fields (members key g records)) as (Hc & Hb & Hp & Hf).
      assert (C : 1 <= (sums_of (members key g records)).(Group.count)).
      { rewrite Hc. pose proof (Hne g Hin) as N.
        destruct (members key g records); [congruence |].
        simpl List.length. lia. }
      rewrite (proj2 (Z.gtb_lt _ 0)) by lia.
      repeat split; assumption.
Qed.

(** C7.  Both group-by aggregations return a mapping (no exception is
    raised) whose keys are in first-seen order of the input; each group
    holds the count of its records and the running sums, by [+=] in input
    order, of their buy-ins, prizes and profits; its roi is profit /
    buy-in * 100, or 0 when the buy-in sum is not above zero, and its abi
    is buy-in / count, the count of a group being at least one. *)
Theorem aggregate_by_first_seen_sums (records : list TournamentRecord) :
  (exists groups,
     aggregate_by_limits records = Ok groups
     /\ grouped_by tier records groups)
  /\ (exists groups,
        aggregate_by_type records = Ok groups
        /\ grouped_by t_type records groups).
Proof.
  split.
  - destruct (aggregate_by_groups tier (fun c => c >? 0) records) as [E G].
    { intros c Hc. apply Z.gtb_lt. lia. }
    eexists. split; [exact E | exact G].
  - destruct (aggregate_by_groups t_type int_truthy records) as [E G].
    { intros c Hc. unfold int_truthy.
      rewrite (proj2 (Z.eqb_neq c 0)) by lia. reflexivity. }
    eexists. split; [exact E | exact G].
Qed.

(** Three records with buy-ins 3, 10 and 150: three groups of one. *)
Example aggregate_by_limits_three_tiers :
  let records :=
    [(record_at (midnight 2023 1 1) "USD");
     {| date := midnight 2023 1 2; tournament := Some "Daily";
        buyin_total := float_of_text "3"; rake := fzero; prize := fzero;
        profit := float_of_text "-3"; placement := None; field_size := None;
        currency := "USD"; t_type := "Unknown" |};
     {| date := midnight 2023 1 3; tournament := Some "Daily";
        buyin_total := float_of_text "150"; rake := fzero; prize := fzero;
        profit := float_of_text "-150"; placement := None; field_size := None;
        currency := "USD"; t_type := "Unknown" |}] in
  match aggregate_by_limits records with
  | Ok groups =>
      map (fun gv => (fst gv, (snd gv).(Group.totals).(Group.count),
                      (snd gv).(Group.abi))) groups
      = [("Low (5–22)", 1, PFloat (float_of_text "10"));
         ("Micro (0–5)", 1, PFloat (float_of_text "3"));
         ("High (109+)", 1, PFloat (float_of_text "150"))]
  | Raise _ => False
  end.
Proof. vm_compute. reflexivity. Qed.

(* ================================================================= *)
(** ** The tiers as a partition *)

(** C10, as stated, fails on the buy-in sums: the Micro group totals
    0.1 + 2.2 = 2.3000000000000003, the Low group 5.5, and the overall sum
    (0.1 + 5.5) + 2.2 is 7.8 under either [sum]; the two group totals add
    up to 7.800000000000001, by float addition, by either [sum], and
    exactly: in units of 2^-51 they are 5179139571476071 and
    12384898975268864, the overall sum 17564038546744934. *)
Lemma tier_sums_counterexample :
  let records := load_summaries cpython312 [file_three_buyins] in
  let micro := float_of_text "2.3000000000000003" in
  let low := float_of_text "5.5" in
  let overall := float_of_text "7.8" in
  match aggregate_by_limits records with
  | Ok groups =>
      map (fun gv => (fst gv, (snd gv).(Group.totals).(Group.buyin))) groups
      = [("Micro (0–5)", PFloat micro); ("Low (5–22)", PFloat low)]
  | Raise _ => False
  end
  /\ match aggregate_overall cpython310 records,
           aggregate_overall cpython312 records with
     | Ok o, Ok o' =>
         o.(Overall.total_buyin) = PFloat overall
         /\ o'.(Overall.total_buyin) = PFloat overall
     | _, _ => False
     end
  /\ running_sum [micro; low] = PFloat (float_of_text "7.800000000000001")
  /\ py_sum cpython310 [micro; low] = running_sum [micro; low]
  /\ py_sum cpython312 [micro; low] = running_sum [micro; low]
  /\ feqb (float_of_text "7.800000000000001") overall = false
  /\ scaled (-51) micro = Some 5179139571476071
  /\ scaled (-51) low = Some 12384898975268864
  /\ scaled (-51) overall = Some 17564038546744934
  /\ 5179139571476071 + 12384898975268864 <> 17564038546744934.
Proof. vm_compute. repeat split; try reflexivity. discriminate. Qed.

Lemma Zsum_cons (a : Z) (l : list Z) : Zsum (a :: l) = a + Zsum l.
Proof. reflexivity. Qed.

Lemma Zsum_indicator (key : TournamentRecord -> string) (keys : list string)
  (r : TournamentRecord) :
  NoDup keys -> In (key r) keys ->
  Zsum (map (fun g => if String.eqb (key r) g then 1 else 0) keys) = 1.
Proof.
  induction 1 as [|a keys Ha ND IH]; [intros [] |].
  cbn [map]. rewrite Zsum_cons. intros [->|Hin].
  - rewrite String.eqb_refl.
    assert (Z0 : Zsum (map (fun g => if String.eqb (key r) g then 1 else 0)
                           keys) = 0).
    { clear IH ND. induction keys as [|b keys IHk]; [reflexivity |].
      cbn [map]. rewrite Zsum_cons.
      destruct (String.eqb_spec (key r) b) as [E|N].
      - exfalso. apply Ha. left. congruence.
      - rewrite IHk; [reflexivity |]. intros H. apply Ha. right. exact H. }
    rewrite Z0. reflexivity.
  - destruct (String.eqb_spec (key r) a) as [E|N].
    + exfalso. apply Ha. congruence.
    + rewrite (IH Hin). reflexivity.
Qed.

(** Over duplicate-free keys that cover every record, the sizes of the
    groups add up to the number of records. *)
Lemma members_partition (key : TournamentRecord -> string)
  (keys : list string) (records : list TournamentRecord) :
  NoDup keys ->
  (forall r, In r records -> In (key r) keys) ->
  Zsum (map (fun g => Z.of_nat (List.length (members key g records))) keys)
  = Z.of_nat (List.length records).
Proof.
  intros ND. induction records as [|r records IH]; intros Hk.
  - clear ND Hk. induction keys as [|a keys IHk]; [reflexivity |].
    cbn [map]. rewrite Zsum_cons, IHk. reflexivity.
  - assert (S : forall ks,
               Zsum (map (fun g => Z.of_nat
                                     (List.length (members key g (r :: records))))
                         ks)
               = Zsum (map (fun g => if String.eqb (key r) g then 1 else 0) ks)
                 + Zsum (map (fun g => Z.of_nat
                                         (List.length (members key g records)))
                             ks)).
    { induction ks as [|a ks IHks]; [reflexivity |].
      cbn [map]. rewrite !Zsum_cons, IHks.
      unfold members at 1. cbn [filter].
      fold (members key a records).
      destruct (String.eqb (key r) a); cbn [List.length]; lia. }
    rewrite S, (Zsum_indicator key keys r ND) by (apply Hk; left; reflexivity).
    rewrite IH by (intros r' Hr; apply Hk; right; exact Hr).
    cbn [List.length]. lia.
Qed.

(** C10, amended.  The tier group-by splits the input: every record
    belongs to the group named by the tier of its buy-in and to no other,
    the groups have distinct names, their counts add up to the length of
    the input, and each group's count, buy-in, prize and profit are the
    count and the running float sums of its own records.  (That these
    float sums add up to the overall sums is not claimed.) *)
Theorem aggregate_by_limits_partition (records : list TournamentRecord) :
  exists groups,
    aggregate_by_limits records = Ok groups
    /\ (forall r, In r records ->
          In (tier r) (dict_keys groups)
          /\ forall g, In r (members tier g records) <-> g = tier r)
    /\ NoDup (dict_keys groups)
    /\ Zsum (map (fun gv => (snd gv).(Group.totals).(Group.count)) groups)
       = Z.of_nat (List.length records)
    /\ forall g v,
         In (g, v) groups ->
         let rs := members tier g records in
         let t := v.(Group.totals) in
         t.(Group.count) = Z.of_nat (List.length rs)
         /\ t.(Group.buyin) = running_sum (map buyin_total rs)
         /\ t.(Group.prize) = running_sum (map prize rs)
         /\ t.(Group.profit) = running_sum (map profit rs).
Proof.
  destruct (aggregate_by_groups tier (fun c => c >? 0) records) as [E G].
  { intros c Hc. apply Z.gtb_lt. lia. }
  eexists. split; [exact E |].
  destruct G as [Hkeys Hgroups].
  assert (Hcover : forall r, In r records ->
                             In (tier r) (first_seen (map tier records))).
  { intros r Hr. apply first_seen_In. apply in_map. exact Hr. }
  split.
  { intros r Hr. split.
    - rewrite Hkeys. apply Hcover. exact Hr.
    - intros g. unfold members. rewrite filter_In. split.
      + intros [_ H]. apply String.eqb_eq in H. congruence.
      + intros ->. split; [exact Hr | apply String.eqb_refl]. }
  split; [rewrite Hkeys; apply first_seen_NoDup |].
  split.
  { rewrite map_map. cbn [snd derived Group.totals].
    rewrite <- (members_partition tier (first_seen (map tier records)) records)
      by (try apply first_seen_NoDup; exact Hcover).
    f_equal. apply map_ext. intros g.
    apply (proj1 (sums_of_fields (members tier g records))). }
  intros g v Hin. destruct (Hgroups g v Hin) as (Hc & _ & Hb & Hp & Hf & _).
  cbv zeta. auto.
Qed.

(* ================================================================= *)
(** ** More on text and coercion *)

Lemma chars_text (l : list ascii) : chars (text l) = l.
Proof. apply list_ascii_of_string_of_list_ascii. Qed.

Lemma text_chars (s : string) : text (chars s) = s.
Proof. apply string_of_list_ascii_of_string. Qed.

Lemma chars_append (a b : string) :
  chars (String.append a b) = chars a ++ chars b.
Proof.
  unfold chars. induction a as [|c a IH]; simpl; [reflexivity |].
  now rewrite IH.
Qed.

Lemma drop_while_all (p : ascii -> bool) (pre l : list ascii) :
  forallb p pre = true -> drop_while p (pre ++ l) = drop_while p l.
Proof.
  induction pre as [|c pre IH]; simpl; [reflexivity |].
  intros H. apply andb_prop in H. destruct H as [Hc Hp].
  rewrite Hc. apply IH. exact Hp.
Qed.

Lemma drop_while_nil (p : ascii -> bool) (l : list ascii) :
  forallb p l = true -> drop_while p l = [].
Proof.
  intros H. rewrite <- (app_nil_r l), (drop_while_all p l [] H). reflexivity.
Qed.

Lemma drop_while_keep (p : ascii -> bool) (l suf : list ascii) :
  drop_while p l <> [] -> drop_while p (l ++ suf) = drop_while p l ++ suf.
Proof.
  induction l as [|c l IH]; simpl; [congruence |].
  destruct (p c); [exact IH | reflexivity].
Qed.

Lemma forallb_rev (p : ascii -> bool) (l : list ascii) :
  forallb p l = true -> forallb p (rev l) = true.
Proof.
  rewrite !forallb_forall. intros H c Hc. apply H. apply in_rev. exact Hc.
Qed.

(** White space around a text does not change what stripping leaves. *)
Lemma strip_with_around (p : ascii -> bool) (pre l suf : list ascii) :
  forallb p pre = true -> forallb p suf = true ->
  strip_with p (pre ++ l ++ suf) = strip_with p l.
Proof.
  intros Hpre Hsuf. unfold strip_with. rewrite (drop_while_all p pre _ Hpre).
  destruct (drop_while p l) as [|c t] eqn:E.
  - destruct (drop_while_split p l) as (q & El & Hq & _).
    rewrite E, app_nil_r in El. subst q.
    rewrite (drop_while_all p l suf Hq), (drop_while_nil p suf Hsuf).
    reflexivity.
  - rewrite (drop_while_keep p l suf) by congruence. rewrite E.
    rewrite rev_app_distr.
    rewrite (drop_while_all p (rev suf) _ (forallb_rev p suf Hsuf)).
    reflexivity.
Qed.



Lemma strptime_empty (fmt : string) :
  In fmt formats -> raises (strptime "" fmt).
Proof.
  intros H. simpl in H.
  destruct H as [<-|[<-|[<-|[<-|[<-|[<-|[]]]]]]]; eexists;
    vm_compute; reflexivity.
Qed.

(** X1.  White space before and after a date text does not change what
    [parse_date] returns: a date padded with blanks, tabs or line ends is
    read as the bare one, and a text of white space alone as the empty
    one. *)
Theorem parse_date_surrounding_space (pre v suf : string) :
  forallb is_space (chars pre) = true ->
  forallb is_space (chars suf) = true ->
  parse_date (Some (String.append pre (String.append v suf)))
  = parse_date (Some v).
Proof.
  intros Hpre Hsuf.
  assert (S : strip (String.append pre (String.append v suf)) = strip v).
  { unfold strip. rewrite !chars_append.
    rewrite (strip_with_around is_space _ _ _ Hpre Hsuf). reflexivity. }
  assert (L : forall w, strip w = strip v ->
                        parse_date_loop w formats = parse_date_loop v formats).
  { intros w Hw. unfold formats, parse_date_loop. rewrite Hw. reflexivity. }
  assert (N : forall w, strip w = "" -> parse_date_loop w formats = None).
  { intros w Hw. apply parse_date_loop_none. intros fmt Hf. rewrite Hw.
    apply strptime_empty. exact Hf. }
  unfold parse_date.
  destruct (String.append pre (String.append v suf)) as [|c w] eqn:E;
    destruct v as [|c' v']; cbn [truthy negb].
  - reflexivity.
  - exfalso. apply (f_equal chars) in E. rewrite !chars_append in E.
    simpl in E. destruct (chars pre); discriminate.
  - apply N. rewrite S. reflexivity.
  - apply L. exact S.
Qed.

Lemma parse_date_surrounding_space_witness :
  parse_date (Some "  2023-01-15 10:30   ") = parse_date (Some "2023-01-15 10:30").
Proof.
  apply (parse_date_surrounding_space "  " "2023-01-15 10:30" "   ");
    reflexivity.
Defined.

(* ================================================================= *)
(** ** The six formats exclude each other *)

Lemma all_ascii_complete (c : ascii) : In c all_ascii.
Proof.
  unfold all_ascii. rewrite <- (ascii_nat_embedding c).
  apply in_map. apply in_seq. pose proof (nat_ascii_bounded c). lia.
Qed.

(** A test that holds on each of the 256 characters holds on all. *)
Lemma forall_ascii (P : ascii -> bool) :
  forallb P all_ascii = true -> forall c, P c = true.
Proof.
  intros H c. rewrite forallb_forall in H. apply H, all_ascii_complete.
Qed.

Lemma occurrences_app (x : ascii) (a b : list ascii) :
  occurrences x (a ++ b) = (occurrences x a + occurrences x b)%nat.
Proof. unfold occurrences. rewrite filter_app, length_app. reflexivity. Qed.

Lemma occurrences_blankish (x : ascii) (m : list ascii) :
  is_punct x = true -> forallb blankish m = true -> occurrences x m = 0%nat.
Proof.
  intros Hx. unfold occurrences. induction m as [|c m IH]; [reflexivity |].
  cbn [forallb filter]. intros H. apply andb_prop in H. destruct H as [Hc Hm].
  destruct (Ascii.eqb_spec x c) as [->|N]; [| apply IH; exact Hm].
  exfalso.
  pose proof (forall_ascii (fun c => negb (is_punct c && blankish c))
                ltac:(vm_compute; reflexivity) c) as F.
  cbv beta in F. rewrite Hx, Hc in F. discriminate.
Qed.

(** What a numeric directive reads is made of digits and blanks. *)
Lemma match_classes_blankish (ks : list cclass) :
  (forall k, In k ks -> forall c, in_class k c = true -> blankish c = true) ->
  forall l m r,
    match_classes ks l = Some (m, r) ->
    l = m ++ r /\ forallb blankish m = true.
Proof.
  induction ks as [|k ks IH]; intros Hk l m r; simpl.
  - intros H. injection H as <- <-. auto.
  - destruct l as [|c l]; [discriminate |].
    destruct (in_class k c) eqn:Kc; [| discriminate].
    destruct (match_classes ks l) as [(m', r')|] eqn:E; [| discriminate].
    intros H. injection H as <- <-.
    destruct (IH (fun k' Hin => Hk k' (or_intror Hin)) l m' r' E) as [-> Hm].
    split; [reflexivity |]. cbn [forallb].
    rewrite (Hk k (or_introl eq_refl) c Kc), Hm. reflexivity.
Qed.

Lemma space_runs_blankish (l : list ascii) :
  forall m r, In (m, r) (space_runs l) ->
              l = m ++ r /\ forallb blankish m = true.
Proof.
  induction l as [|c l IH]; intros m r; simpl; [intros [] |].
  destruct (is_space c) eqn:Sc; [| intros []].
  rewrite in_app_iff, in_map_iff. intros [((m', r') & E & Hin)|[E|[]]].
  - injection E as <- <-. destruct (IH m' r' Hin) as [-> Hm].
    split; [reflexivity |]. cbn [fst forallb]. unfold blankish at 1.
    rewrite Sc, Hm, orb_true_r. reflexivity.
  - injection E as <- <-. split; [reflexivity |]. cbn [forallb].
    unfold blankish. rewrite Sc, orb_true_r. reflexivity.
Qed.

Lemma numeric_classes_blankish (d : directive) :
  match d with DLit _ => False | _ => True end ->
  forall ks k, In ks (alternatives d) -> In k ks ->
               forall c, in_class k c = true -> blankish c = true.
Proof.
  intros Hd ks k Hks Hk c.
  assert (F : forall k', forallb (fun c => implb (in_class k' c) (blankish c))
                                 all_ascii = true ->
                         in_class k' c = true -> blankish c = true).
  { intros k' H Hc. pose proof (forall_ascii _ H c) as G. cbv beta in G.
    rewrite Hc in G. exact G. }
  destruct d; try contradiction; simpl in Hks;
    repeat (destruct Hks as [<-|Hks]; [| try contradiction]);
    simpl in Hk;
    repeat (destruct Hk as [<-|Hk]; [| try contradiction]);
    try contradiction;
    apply F; vm_compute; reflexivity.
Qed.

(** What one directive of the six formats reads, and its punctuation. *)
Lemma match_directive_count (x : ascii) (d : directive) (l : list ascii) :
  is_punct x = true -> plain_directive d = true ->
  forall m r,
    In (m, r) (match_directive d l) ->
    l = m ++ r /\ occurrences x m = literal_count x [d].
Proof.
  intros Hx Hd m r Hin.
  assert (Num : match d with DLit _ | DSpace => False | _ => True end ->
                l = m ++ r /\ forallb blankish m = true).
  { intros Hn.
    assert (Hin' : In (m, r)
                      (flat_map (fun ks => match match_classes ks l with
                                           | Some mr => [mr]
                                           | None => []
                                           end) (alternatives d)))
      by (destruct d; try contradiction; exact Hin).
    apply in_flat_map in Hin'. destruct Hin' as (ks & Hks & Hm).
    destruct (match_classes ks l) as [mr|] eqn:E; [| destruct Hm].
    destruct Hm as [->|[]].
    apply (match_classes_blankish ks) with (l := l); [| exact E].
    intros k Hk. apply (numeric_classes_blankish d) with (ks := ks); auto.
    destruct d; auto. }
  destruct d as [| | | | | |c|];
    try (destruct (Num I) as [E B]; split; [exact E |];
         rewrite (occurrences_blankish x m Hx B); reflexivity).
  - cbn [match_directive alternatives flat_map app] in Hin.
    destruct l as [|c' l]; [destruct Hin |]. cbn [match_classes] in Hin.
    destruct (in_class (CChar c) c') eqn:K; [| destruct Hin].
    destruct Hin as [E|[]]. injection E as <- <-.
    split; [reflexivity |].
    assert (Ec : c' = c).
    { cbn [plain_directive] in Hd. cbn [in_class] in K.
      pose proof (forall_ascii
                    (fun a => forallb
                                (fun b => implb (is_punct b
                                                 && Ascii.eqb (lower a) (lower b))
                                                (Ascii.eqb a b)) all_ascii)
                    ltac:(vm_compute; reflexivity) c') as F.
      cbv beta in F. rewrite forallb_forall in F.
      pose proof (F c (all_ascii_complete c)) as G.
      rewrite Hd, K in G. apply Ascii.eqb_eq. exact G. }
    subst c'. unfold occurrences, literal_count. cbn [filter].
    destruct (Ascii.eqb x c); reflexivity.
  - destruct (space_runs_blankish l m r Hin) as [E B].
    split; [exact E |]. rewrite (occurrences_blankish x m Hx B). reflexivity.
Qed.

(** What a pattern of the six formats reads holds exactly the
    punctuation it spells out. *)
Lemma match_pattern_count (x : ascii) (ds : list directive) :
  is_punct x = true -> forallb plain_directive ds = true ->
  forall l cs r,
    In (cs, r) (match_pattern ds l) ->
    exists m, l = m ++ r /\ occurrences x m = literal_count x ds.
Proof.
  intros Hx. induction ds as [|d ds IH]; intros Hds l cs r; simpl.
  - intros [E|[]]. injection E as <- <-. exists []. auto.
  - cbn [forallb] in Hds. apply andb_prop in Hds. destruct Hds as [Hd Hds].
    rewrite in_flat_map. intros ((m, r') & Hm & Hin).
    rewrite in_map_iff in Hin. destruct Hin as ((cs', r'') & E & Hin).
    injection E as <- <-. cbn [fst snd] in *.
    destruct (match_directive_count x d l Hx Hd m r' Hm) as [-> Cm].
    destruct (IH Hds r' cs' r'' Hin) as (m' & -> & Cm').
    exists (m ++ m'). split; [now rewrite app_assoc |].
    rewrite occurrences_app, Cm, Cm'.
    unfold literal_count. cbn [filter].
    destruct (match d with DLit c => Ascii.eqb x c | _ => false end);
      reflexivity.
Qed.

(** A text read by one of the six formats has the punctuation of that
    format. *)
Lemma accepts_punctuation (s fmt : string) (ds : list directive) :
  compile_format (chars fmt) = Some ds ->
  forallb plain_directive ds = true ->
  accepts s fmt = true ->
  punctuation (chars s)
  = (literal_count "-" ds, literal_count "." ds, literal_count ":" ds).
Proof.
  intros Hc Hp. unfold accepts, strptime. rewrite Hc.
  destruct (match_pattern ds (chars s)) as [|(cs, [|c r]) rest] eqn:E;
    try discriminate.
  intros _.
  assert (Hin : In (cs, []) (match_pattern ds (chars s)))
    by (rewrite E; left; reflexivity).
  unfold punctuation.
  destruct (match_pattern_count "-" ds eq_refl Hp _ _ _ Hin) as (m1 & E1 & C1).
  destruct (match_pattern_count "." ds eq_refl Hp _ _ _ Hin) as (m2 & E2 & C2).
  destruct (match_pattern_count ":" ds eq_refl Hp _ _ _ Hin) as (m3 & E3 & C3).
  rewrite app_nil_r in E1, E2, E3. subst m1 m2 m3.
  rewrite C1, C2, C3. reflexivity.
Qed.

Lemma formats_punctuation (s fmt : string) :
  In fmt formats -> accepts s fmt = true ->
  punctuation (chars s) = format_punctuation fmt.
Proof.
  intros Hin Ha. unfold format_punctuation.
  assert (C : exists ds, compile_format (chars fmt) = Some ds
                         /\ forallb plain_directive ds = true).
  { simpl in Hin.
    destruct Hin as [<-|[<-|[<-|[<-|[<-|[<-|[]]]]]]]; eexists;
      (split; [vm_compute; reflexivity | vm_compute; reflexivity]). }
  destruct C as (ds & Hc & Hp). rewrite Hc.
  apply (accepts_punctuation s fmt ds Hc Hp Ha).
Qed.

Lemma formats_pairwise (s f1 f2 : string) :
  In f1 formats -> In f2 formats ->
  accepts s f1 = true -> accepts s f2 = true -> f1 = f2.
Proof.
  intros H1 H2 A1 A2.
  pose proof (formats_punctuation s f1 H1 A1) as P1.
  pose proof (formats_punctuation s f2 H2 A2) as P2.
  rewrite P1 in P2. clear P1 A1 A2. simpl in H1, H2.
  destruct H1 as [<-|[<-|[<-|[<-|[<-|[<-|[]]]]]]];
    destruct H2 as [<-|[<-|[<-|[<-|[<-|[<-|[]]]]]]];
    try reflexivity; vm_compute in P2; discriminate.
Qed.

(** X2.  No text is read by two of the six date formats (their hyphens,
    periods and colons differ in number), so [parse_date] returns the
    date of the one format that reads the stripped text, whatever the
    order of the list. *)
Theorem formats_exclusive (s : string) :
  (List.length (filter (accepts s) formats) <= 1)%nat
  /\ forall d,
       parse_date (Some s) = Some d <->
       s <> "" /\ exists fmt, In fmt formats /\ strptime (strip s) fmt = Ok d.
Proof.
  split.
  - assert (P : forall f1 f2, In f1 formats -> In f2 formats ->
                              accepts s f1 = true -> accepts s f2 = true ->
                              f1 = f2)
      by (intros; eapply formats_pairwise; eauto).
    unfold formats in *. cbn [filter].
    repeat match goal with
           | |- context [accepts s ?f] =>
               let E := fresh "E" in destruct (accepts s f) eqn:E
           end;
      cbn [List.length]; try lia; exfalso;
      repeat match goal with
             | E1 : accepts s ?f1 = true, E2 : accepts s ?f2 = true |- _ =>
                 assert (f1 = f2)
                   by (apply P; [simpl; tauto | simpl; tauto | exact E1
                                | exact E2]);
                 discriminate
             end.
  - intros d. unfold parse_date. destruct s as [|c s]; cbn [truthy negb].
    + split; [discriminate | intros [H _]; congruence].
    + rewrite parse_date_loop_some. split.
      * intros (n & fmt & Hn & Hd & _). split; [discriminate |].
        exists fmt. split; [eapply nth_error_In; exact Hn | exact Hd].
      * intros (_ & fmt & Hin & Hd).
        destruct (parse_date_loop (String c s) formats) as [d'|] eqn:L.
        -- apply parse_date_loop_some in L.
           destruct L as (n & fmt' & Hn & Hd' & Hfirst).
           assert (fmt' = fmt).
           { apply (formats_pairwise (strip (String c s)));
               [eapply nth_error_In; exact Hn | exact Hin | |];
               unfold accepts; [rewrite Hd' | rewrite Hd]; reflexivity. }
           subst fmt'. exists n, fmt. auto.
        -- exfalso.
           destruct (proj1 (parse_date_loop_none _ _) L fmt Hin) as [e He].
           congruence.
Qed.

(* ================================================================= *)
(** ** Counts and amounts *)

Lemma replace_comma_append (a b : string) :
  replace_comma (String.append a b)
  = String.append (replace_comma a) (replace_comma b).
Proof. induction a as [|c a IH]; simpl; [reflexivity | now rewrite IH]. Qed.

(** X3.  A comma and a period in the same place of an amount are read
    alike: [to_float] gives the same float for both spellings. *)
Theorem to_float_comma_period (a b : string) :
  to_float (Some (String.append a (String "," b)))
  = to_float (Some (String.append a (String "." b))).
Proof.
  unfold to_float.
  assert (N : forall c, String.eqb (String.append a (String c b)) "" = false)
    by (intros c; destruct a; reflexivity).
  rewrite !N, !replace_comma_append. reflexivity.
Qed.

Lemma cspace_not_digit (l : list ascii) :
  forallb is_cspace l = true -> filter is_digit l = [].
Proof.
  induction l as [|c l IH]; [reflexivity |]. cbn [forallb filter].
  intros H. apply andb_prop in H. destruct H as [Hc Hl].
  pose proof (forall_ascii (fun c => negb (is_cspace c && is_digit c))
                ltac:(vm_compute; reflexivity) c) as F.
  cbv beta in F. rewrite Hc in F. destruct (is_digit c); [discriminate |].
  apply IH. exact Hl.
Qed.

Lemma drop_while_empty (p : ascii -> bool) (l : list ascii) :
  drop_while p l = [] -> forallb p l = true.
Proof.
  induction l as [|c l IH]; simpl; [reflexivity |].
  destruct (p c); [exact IH | discriminate].
Qed.

Lemma split_sign_spec (l : list ascii) :
  let '(sg, r) := split_sign l in
  filter is_digit l = filter is_digit r
  /\ (sg = true -> In "-"%char l).
Proof.
  destruct l as [|c l]; [split; [reflexivity | discriminate] |].
  unfold split_sign, is_char.
  destruct (Ascii.eqb_spec c "-") as [->|N1].
  - split; [reflexivity | left; reflexivity].
  - destruct (Ascii.eqb_spec c "+") as [->|N2].
    + split; [reflexivity | discriminate].
    + split; [reflexivity | discriminate].
Qed.

(** The digits [int()] reads are the digit characters of what it reads. *)
Lemma int_digits_spec (l : list ascii) :
  forall prev ds rest,
    int_digits prev l = Some (ds, rest) ->
    filter is_digit l = ds ++ filter is_digit rest
    /\ forallb is_digit ds = true.
Proof.
  induction l as [|c l IH]; intros prev ds rest; simpl.
  - destruct (is_char prev "_"); [discriminate |].
    intros H. injection H as <- <-. auto.
  - unfold is_char at 1. destruct (Ascii.eqb_spec c "_") as [->|N].
    + destruct (is_digit prev); [| discriminate]. intros H.
      change (is_digit "_") with false. cbv iota. apply (IH _ _ _ H).
    + destruct (is_digit c) eqn:D.
      * destruct (int_digits c l) as [(ds', r')|] eqn:E; [| discriminate].
        intros H. injection H as <- <-.
        destruct (IH _ _ _ E) as [F A]. rewrite F. cbn [forallb app].
        rewrite D, A. auto.
      * destruct (is_char prev "_"); [discriminate |].
        intros H. injection H as <- <-. cbn [app filter]. rewrite D. auto.
Qed.

Lemma digits_value_nonneg (ds : list ascii) :
  forallb is_digit ds = true -> 0 <= digits_value ds.
Proof.
  unfold digits_value.
  assert (G : forall acc, 0 <= acc -> forallb is_digit ds = true ->
                          0 <= fold_left (fun a c => 10 * a + digit_val c)
                                         ds acc).
  { induction ds as [|c ds IH]; intros acc Ha; cbn [fold_left forallb];
      [auto |].
    intros H. apply andb_prop in H. destruct H as [Hc Hd].
    apply IH; [| exact Hd].
    unfold is_digit in Hc. apply andb_prop in Hc. destruct Hc as [Hlo _].
    apply N.leb_le in Hlo. unfold digit_val. lia. }
  apply G. lia.
Qed.

(** X4.  When [to_int] returns a number for a cell of ASCII text, the
    cell holds at least one digit, the magnitude of the number is the
    decimal value of the digit characters of the cell read in order, and
    a negative number needs a minus sign in the cell.  So a cell without
    a digit never gives 0. *)
Theorem to_int_digits (py : interp) (v : string) (z : Z) :
  ascii_text v = true ->
  to_int py (Some v) = Some z ->
  filter is_digit (chars v) <> []
  /\ Z.abs z = digits_value (filter is_digit (chars v))
  /\ (z < 0 -> In "-"%char (chars v)).
Proof.
  intros _. unfold to_int. destruct (String.eqb v ""); [discriminate |].
  unfold int_of_string.
  destruct (drop_while_split is_cspace (chars v)) as (pre & E0 & Hpre & _).
  pose proof (split_sign_spec (drop_while is_cspace (chars v))) as S.
  destruct (split_sign (drop_while is_cspace (chars v))) as [sg r].
  destruct S as [Sd Sm].
  destruct (int_digits zero r) as [([|d ds], rest)|] eqn:I;
    try discriminate.
  destruct (negb (int_max_str_digits py =? 0)%N
            && (int_max_str_digits py <? N.of_nat (List.length (d :: ds)))%N);
    [discriminate |].
  destruct (drop_while is_cspace rest) eqn:R; [| discriminate].
  cbn [bind try_except]. intros H. injection H as <-.
  destruct (int_digits_spec r _ _ _ I) as [F A].
  assert (D : filter is_digit (chars v) = d :: ds).
  { rewrite E0, filter_app, (cspace_not_digit pre Hpre), Sd, F.
    rewrite (cspace_not_digit rest (drop_while_empty _ _ R)).
    now rewrite app_nil_r. }
  pose proof (digits_value_nonneg (d :: ds) A) as P.
  rewrite D. split; [discriminate |]. split.
  - destruct sg; cbn [cond_Zopp]; lia.
  - intros Hz. rewrite E0. apply in_or_app. right. apply Sm.
    destruct sg; [reflexivity |]. cbn [cond_Zopp] in Hz. lia.
Qed.

Lemma to_int_digits_witness :
  Z.abs (-1200) = digits_value (filter is_digit (chars " -1_200 ")).
Proof.
  apply (to_int_digits cpython312 " -1_200 " (-1200));
    vm_compute; reflexivity.
Defined.

(* ================================================================= *)
(** ** More on the record loader *)

(** X5.  The records of a batch are those of its files, file after file:
    loading two lists of files one after the other gives the records of
    the first followed by those of the second. *)
Theorem load_summaries_app (py : interp) (files files' : list csv_file) :
  load_summaries py (files ++ files')
  = load_summaries py files ++ load_summaries py files'.
Proof. rewrite !load_summaries_flat_map. apply flat_map_app. Qed.

Lemma load_file_unusable (py : interp) (f : csv_file) :
  unusable f -> fst (load_file py f) = [].
Proof.
  intros H. destruct H as [e| |e events|fieldnames events c Hc Hn];
    try reflexivity.
  cbv beta iota zeta delta [load_file].
  destruct (filter (fun c => negb (list_mem c fieldnames)) required_fields)
    as [|m ms] eqn:E; [| reflexivity].
  exfalso.
  assert (Hin : In c (filter (fun c => negb (list_mem c fieldnames))
                             required_fields)).
  { apply filter_In. split; [exact Hc |].
    destruct (list_mem c fieldnames) eqn:M; [| reflexivity].
    apply list_mem_In in M. contradiction. }
  rewrite E in Hin. destruct Hin.
Qed.

(** X6.  A file that cannot be opened, is empty, fails at its first line
    or lacks one of the columns Date, Tournament, BuyIn, Result adds no
    record and takes none away: the batch gives what it gives without
    that file. *)
Theorem load_summaries_skips_file (py : interp)
  (before after : list csv_file) (f : csv_file) :
  unusable f ->
  load_summaries py (before ++ f :: after)
  = load_summaries py (before ++ after).
Proof.
  intros H. rewrite !load_summaries_flat_map, !flat_map_app. cbn [flat_map].
  rewrite (load_file_unusable py f H). reflexivity.
Qed.

Lemma load_summaries_skips_file_witness :
  load_summaries cpython312
    ([file_with_profit_column]
       ++ Readable [Line ["Date"; "Tournament"; "Result"];
                    Line ["2023-01-15"; "Daily"; "25"]]
       :: [file_negative_buyin])
  = load_summaries cpython312 ([file_with_profit_column] ++ [file_negative_buyin]).
Proof.
  apply load_summaries_skips_file.
  apply (unusable_missing_column _ _ "BuyIn").
  - simpl. tauto.
  - simpl. intros [H|[H|[H|[]]]]; discriminate.
Defined.

(** A row built from a line with a cell for every column holds no
    [None]. *)
Lemma dict_set_some (d : dict (option string)) (k v : string) :
  Forall (fun kv => snd kv <> None) d ->
  Forall (fun kv => snd kv <> None) (dict_set d k (Some v)).
Proof.
  induction 1 as [|(k', w) d Hw Hd IH]; simpl.
  - constructor; [discriminate | constructor].
  - destruct (String.eqb k k'); constructor; auto. discriminate.
Qed.

Lemma dict_get_In {V : Type} (d : dict V) (k : string) (v : V) :
  dict_get d k = Some v -> exists k', In (k', v) d.
Proof.
  induction d as [|(a, w) d IH]; simpl; [discriminate |].
  destruct (String.eqb k a).
  - intros H. injection H as <-. exists a. auto.
  - intros H. destruct (IH H) as [k' Hk]. exists k'. auto.
Qed.

Lemma dict_row_complete (fieldnames cells : list string) (k : string) :
  (List.length fieldnames <= List.length cells)%nat ->
  dict_get (dict_row fieldnames cells) k <> Some None.
Proof.
  intros Hlen. unfold dict_row.
  rewrite skipn_all2 by exact Hlen. cbn [fold_left].
  assert (G : forall l d,
             Forall (fun kv => snd kv <> None) d ->
             Forall (fun kv : string * option string => snd kv <> None)
                    (fold_left (fun d kv => dict_set d (fst kv) (Some (snd kv)))
                               l d)).
  { induction l as [|(a, b) l IH]; intros d Hd; cbn [fold_left]; [exact Hd |].
    apply IH. apply dict_set_some. exact Hd. }
  intros E. destruct (dict_get_In _ _ _ E) as [k' Hin].
  pose proof (G (combine fieldnames cells) [] (Forall_nil _)) as F.
  rewrite Forall_forall in F. apply (F _ Hin). reflexivity.
Qed.

(** On such a row the body of the row loop does not raise: it gives a
    record when the date parses and passes the line over otherwise. *)
Lemma process_row_complete (py : interp) (fieldnames cells : list string) :
  (List.length fieldnames <= List.length cells)%nat ->
  let w := dict_row fieldnames cells in
  match parse_date (row_get w "Date") with
  | Some d => exists r, process_row py w = Ok (Some r) /\ r.(date) = d
  | None => process_row py w = Ok None
  end.
Proof.
  intros Hlen w. unfold process_row, row_get_default.
  pose proof (dict_row_complete fieldnames cells "Currency" Hlen) as Hc.
  pose proof (dict_row_complete fieldnames cells "Type" Hlen) as Ht.
  fold w in Hc, Ht.
  destruct (dict_get w "Currency") as [[c|]|]; try congruence;
    destruct (dict_get w "Type") as [[t|]|]; try congruence; cbn [cell_strip bind];
    destruct (parse_date (row_get w "Date")) as [d|]; try reflexivity;
    eexists; split; reflexivity.
Qed.

(** X7.  In a file where no line is shorter than the header and the
    reader does not fail, nothing is raised, and the records are, in
    order, those of the lines that are not blank and whose Date cell
    parses: their dates are the dates of those lines. *)
Theorem load_rows_complete_lines (py : interp) (fieldnames : list string)
  (lines : list (list string)) :
  Forall (complete_line fieldnames) lines ->
  snd (load_rows py fieldnames (map Line lines)) = None
  /\ map date (fst (load_rows py fieldnames (map Line lines)))
     = flat_map (fun cells => match line_date fieldnames cells with
                              | Some d => [d]
                              | None => []
                              end) lines.
Proof.
  induction 1 as [|cells lines Hc Hl IH]; [split; reflexivity |].
  destruct IH as [IHe IHr]. cbn [map load_rows flat_map].
  destruct cells as [|c cells]; [cbn [line_date app]; auto |].
  destruct Hc as [Hc|Hc]; [discriminate |].
  pose proof (process_row_complete py fieldnames (c :: cells) Hc) as P.
  cbv zeta in P. unfold line_date.
  destruct (parse_date (row_get (dict_row fieldnames (c :: cells)) "Date"))
    as [d|].
  - destruct P as (r & -> & Hd).
    destruct (load_rows py fieldnames (map Line lines)) as [rs e].
    cbn [fst snd map app] in *. rewrite Hd, IHr. auto.
  - rewrite P. cbn [app]. auto.
Qed.

Lemma load_rows_complete_lines_witness :
  map date (fst (load_rows cpython312 ["Date"; "BuyIn"]
                   (map Line [["2023-01-15"; "5"]; []; ["soon"; "7"; "x"]])))
  = [midnight 2023 1 15].
Proof.
  apply (load_rows_complete_lines cpython312 ["Date"; "BuyIn"]
           [["2023-01-15"; "5"]; []; ["soon"; "7"; "x"]]).
  repeat constructor; unfold complete_line; simpl; auto; right; lia.
Defined.





Lemma datetime_new_valid (y m d H M S : Z) (t : datetime) :
  datetime_new y m d H M S = Ok t -> valid_datetime t.
Proof.
  unfold datetime_new, between, valid_datetime.
  destruct (_ && _) eqn:E; [| discriminate].
  intros K. injection K as <-. cbn.
  repeat (apply andb_prop in E; destruct E as [E ?]).
  repeat match goal with
         | H : (_ <=? _) = true |- _ => apply Z.leb_le in H
         end.
  lia.
Qed.

Lemma strptime_valid (s fmt : string) (t : datetime) :
  strptime s fmt = Ok t -> valid_datetime t.
Proof.
  unfold strptime. destruct (compile_format (chars fmt)); [| discriminate].
  destruct (match_pattern _ _) as [|(cs, [|c r]) rest]; try discriminate.
  apply datetime_new_valid.
Qed.

Lemma parse_date_valid (v : option string) (t : datetime) :
  parse_date v = Some t -> valid_datetime t.
Proof.
  unfold parse_date. destruct v as [s|]; [| discriminate].
  destruct (negb (truthy s)); [discriminate |].
  intros H. apply parse_date_loop_some in H.
  destruct H as (n & fmt & _ & Hd & _). apply (strptime_valid _ _ _ Hd).
Qed.

(* ================================================================= *)
(** ** What is saved can be loaded *)

Lemma digit_char_spec (k : Z) :
  0 <= k <= 9 ->
  is_digit (digit_char k) = true /\ digit_val (digit_char k) = k
  /\ is_space (digit_char k) = false.
Proof.
  intros H.
  assert (E : k = 0 \/ k = 1 \/ k = 2 \/ k = 3 \/ k = 4 \/ k = 5 \/ k = 6
              \/ k = 7 \/ k = 8 \/ k = 9) by lia.
  repeat (destruct E as [->|E]; [vm_compute; auto |]).
  subst k. vm_compute. auto.
Qed.

Lemma mod10_digit (n : Z) : 0 <= n mod 10 <= 9.
Proof. pose proof (Z.mod_pos_bound n 10 ltac:(lia)). lia. Qed.

Lemma two_digits_value (n : Z) :
  0 <= n <= 99 -> digits_value (filter is_digit (zero_padded 2 n)) = n.
Proof.
  intros H. cbn [zero_padded app filter].
  destruct (digit_char_spec (n / 10 mod 10) (mod10_digit _)) as (A1 & V1 & _).
  destruct (digit_char_spec (n mod 10) (mod10_digit _)) as (A2 & V2 & _).
  rewrite A1, A2. unfold digits_value. cbn [fold_left]. rewrite V1, V2.
  assert (0 <= n / 10 < 10)
    by (split; [apply Z.div_pos; lia | apply Z.div_lt_upper_bound; lia]).
  rewrite (Z.mod_small (n / 10) 10) by lia.
  pose proof (Z.div_mod n 10 ltac:(lia)). lia.
Qed.

Lemma four_digits_value (n : Z) :
  0 <= n <= 9999 -> digits_value (filter is_digit (zero_padded 4 n)) = n.
Proof.
  intros H. cbn [zero_padded app filter].
  destruct (digit_char_spec (n / 10 / 10 / 10 mod 10) (mod10_digit _))
    as (A1 & V1 & _).
  destruct (digit_char_spec (n / 10 / 10 mod 10) (mod10_digit _))
    as (A2 & V2 & _).
  destruct (digit_char_spec (n / 10 mod 10) (mod10_digit _)) as (A3 & V3 & _).
  destruct (digit_char_spec (n mod 10) (mod10_digit _)) as (A4 & V4 & _).
  rewrite A1, A2, A3, A4. unfold digits_value. cbn [fold_left].
  rewrite V1, V2, V3, V4.
  pose proof (Z.div_mod n 10 ltac:(lia)).
  pose proof (Z.div_mod (n / 10) 10 ltac:(lia)).
  pose proof (Z.div_mod (n / 10 / 10) 10 ltac:(lia)).
  pose proof (Z.div_mod (n / 10 / 10 / 10) 10 ltac:(lia)).
  assert (0 <= n / 10 / 10 / 10 < 10).
  { rewrite !Z.div_div by lia.
    split; [apply Z.div_pos; lia | apply Z.div_lt_upper_bound; lia]. }
  rewrite (Z.mod_small (n / 10 / 10 / 10) 10) by lia. lia.
Qed.

(** The year directive reads four digits. *)
Lemma match_year (y : Z) (rest : list ascii) :
  match_directive DY (zero_padded 4 y ++ rest) = [(zero_padded 4 y, rest)].
Proof.
  cbn [zero_padded app match_directive alternatives flat_map match_classes
       in_class].
  destruct (digit_char_spec (y / 10 / 10 / 10 mod 10) (mod10_digit _))
    as (A1 & _).
  destruct (digit_char_spec (y / 10 / 10 mod 10) (mod10_digit _)) as (A2 & _).
  destruct (digit_char_spec (y / 10 mod 10) (mod10_digit _)) as (A3 & _).
  destruct (digit_char_spec (y mod 10) (mod10_digit _)) as (A4 & _).
  rewrite A1, A2, A3, A4. reflexivity.
Qed.

(** A two-digit directive reads the two digits of a number in its range
    as its first choice. *)
Lemma match_two_digits (d : directive) (lo hi n : Z) (rest : list ascii) :
  In (d, lo, hi) [(Dm, 1, 12); (Dd, 1, 31); (DH, 0, 23); (DM, 0, 59);
                  (DS, 0, 59)] ->
  lo <= n <= hi ->
  exists tl,
    match_directive d (zero_padded 2 n ++ rest)
    = (zero_padded 2 n, rest) :: tl.
Proof.
  intros Hd Hn.
  assert (Hk : (Z.to_nat n <= 59)%nat /\ n = Z.of_nat (Z.to_nat n)).
  { simpl in Hd.
    destruct Hd as [E|[E|[E|[E|[E|[]]]]]]; injection E as <- <- <-; lia. }
  destruct Hk as [Hk En]. rewrite En in Hn |- *. clear En.
  generalize dependent (Z.to_nat n). clear n. intros k Hn Hk.
  simpl in Hd.
  destruct Hd as [E|[E|[E|[E|[E|[]]]]]]; injection E as <- <- <-;
    do 60 (destruct k as [|k];
           [first [vm_compute; eexists; reflexivity | exfalso; lia] |]);
    exfalso; lia.
Qed.

Lemma match_literal (c : ascii) (rest : list ascii) :
  is_punct c = true ->
  match_directive (DLit c) (c :: rest) = [([c], rest)].
Proof.
  intros _. cbn [match_directive alternatives flat_map match_classes in_class].
  rewrite Ascii.eqb_refl. reflexivity.
Qed.

Lemma match_one_space (n : Z) (rest : list ascii) :
  match_directive DSpace (" "%char :: zero_padded 2 n ++ rest)
  = [([" "%char], zero_padded 2 n ++ rest)].
Proof.
  cbn [match_directive zero_padded app space_runs].
  destruct (digit_char_spec (n / 10 mod 10) (mod10_digit _)) as (_ & _ & S).
  change (is_space " ") with true. cbv iota. rewrite S. reflexivity.
Qed.

(** The first way a pattern reads a text begins with the first way its
    first directive does, when the rest can follow. *)
Lemma match_pattern_head (d : directive) (ds : list directive)
  (l m r r' : list ascii) (cs : list (directive * list ascii))
  (tl : list (list ascii * list ascii))
  (tl' : list (list (directive * list ascii) * list ascii)) :
  match_directive d l = (m, r) :: tl ->
  match_pattern ds r = (cs, r') :: tl' ->
  exists tl'', match_pattern (d :: ds) l = ((d, m) :: cs, r') :: tl''.
Proof.
  intros Hd Hp. cbn [match_pattern]. rewrite Hd. cbn [flat_map fst snd].
  rewrite Hp. cbn [map app fst snd]. eexists. reflexivity.
Qed.

Lemma datetime_new_ok (t : datetime) :
  valid_datetime t ->
  datetime_new t.(year) t.(month) t.(day) t.(hour) t.(minute) t.(second)
  = Ok t.
Proof.
  unfold valid_datetime, datetime_new, between.
  destruct t as [y m d H M S U]. cbn.
  intros (Hy & Hm & Hd & HH & HM & HS & ->).
  repeat rewrite (proj2 (Z.leb_le _ _)) by lia. reflexivity.
Qed.

(** Whatever the order of the list, a format that reads the stripped
    text decides what [parse_date] returns. *)
Lemma parse_date_of_format (s fmt : string) (d : datetime) :
  s <> "" -> In fmt formats -> strptime (strip s) fmt = Ok d ->
  parse_date (Some s) = Some d.
Proof.
  intros Hs Hin Hd. unfold parse_date.
  destruct s as [|c s]; [congruence |]. cbn [truthy negb].
  destruct (parse_date_loop (String c s) formats) as [d'|] eqn:L.
  - apply parse_date_loop_some in L.
    destruct L as (n & fmt' & Hn & Hd' & _).
    assert (fmt' = fmt).
    { apply (formats_pairwise (strip (String c s)));
        [eapply nth_error_In; exact Hn | exact Hin | |];
        unfold accepts; [rewrite Hd' | rewrite Hd]; reflexivity. }
    subst fmt'. congruence.
  - exfalso.
    destruct (proj1 (parse_date_loop_none _ _) L fmt Hin) as [e He].
    congruence.
Qed.

Lemma strip_with_unchanged (p : ascii -> bool) (l : list ascii) :
  match l with c :: _ => p c = false | [] => True end ->
  match rev l with c :: _ => p c = false | [] => True end ->
  strip_with p l = l.
Proof.
  intros Hh Ht. unfold strip_with.
  assert (D : forall x, match x with c :: _ => p c = false | [] => True end ->
                        drop_while p x = x).
  { intros [|c x]; simpl; [reflexivity |]. intros ->. reflexivity. }
  rewrite (D l Hh), (D (rev l) Ht). apply rev_involutive.
Qed.

(** The characters [isoformat] writes for a time without microseconds. *)
Lemma isoformat_chars (sep : ascii) (t : datetime) :
  t.(microsecond) = 0 ->
  chars (isoformat sep t)
  = zero_padded 4 t.(year)
    ++ "-"%char :: zero_padded 2 t.(month)
    ++ "-"%char :: zero_padded 2 t.(day)
    ++ sep :: zero_padded 2 t.(hour)
    ++ ":"%char :: zero_padded 2 t.(minute)
    ++ ":"%char :: zero_padded 2 t.(second) ++ [].
Proof.
  intros H. unfold isoformat. rewrite chars_text, H. reflexivity.
Qed.

(** The third format reads what [isoformat] writes. *)
Lemma strptime_isoformat (t : datetime) :
  valid_datetime t ->
  strptime (isoformat " " t) "%Y-%m-%d %H:%M:%S" = Ok t.
Proof.
  intros V. pose proof V as (Hy & Hm & Hd & HH & HM & HS & HU).
  unfold strptime.
  change (compile_format (chars "%Y-%m-%d %H:%M:%S"))
    with (Some [DY; DLit "-"; Dm; DLit "-"; Dd; DSpace; DH; DLit ":"; DM;
                DLit ":"; DS]).
  cbv iota. rewrite (isoformat_chars " " t HU).
  destruct (match_two_digits DS 0 59 t.(second) []) as [t1 H1];
    [simpl; tauto | lia |].
  destruct (match_pattern_head _ [] _ _ _ _ _ _ _ H1 eq_refl) as [u1 P1].
  pose proof (match_literal ":" (zero_padded 2 t.(second) ++ []) eq_refl)
    as H2.
  destruct (match_pattern_head _ _ _ _ _ _ _ _ _ H2 P1) as [u2 P2].
  destruct (match_two_digits DM 0 59 t.(minute)
              (":"%char :: zero_padded 2 t.(second) ++ [])) as [t3 H3];
    [simpl; tauto | lia |].
  destruct (match_pattern_head _ _ _ _ _ _ _ _ _ H3 P2) as [u3 P3].
  pose proof (match_literal ":"
                (zero_padded 2 t.(minute)
                 ++ ":"%char :: zero_padded 2 t.(second) ++ []) eq_refl)
    as H4.
  destruct (match_pattern_head _ _ _ _ _ _ _ _ _ H4 P3) as [u4 P4].
  destruct (match_two_digits DH 0 23 t.(hour)
              (":"%char :: zero_padded 2 t.(minute)
               ++ ":"%char :: zero_padded 2 t.(second) ++ [])) as [t5 H5];
    [simpl; tauto | lia |].
  destruct (match_pattern_head _ _ _ _ _ _ _ _ _ H5 P4) as [u5 P5].
  pose proof (match_one_space t.(hour)
                (":"%char :: zero_padded 2 t.(minute)
                 ++ ":"%char :: zero_padded 2 t.(second) ++ [])) as H6.
  destruct (match_pattern_head _ _ _ _ _ _ _ _ _ H6 P5) as [u6 P6].
  destruct (match_two_digits Dd 1 31 t.(day)
              (" "%char :: zero_padded 2 t.(hour)
               ++ ":"%char :: zero_padded 2 t.(minute)
               ++ ":"%char :: zero_padded 2 t.(second) ++ [])) as [t7 H7];
    [simpl; tauto | |].
  { assert (days_in_month t.(year) t.(month) <= 31)
      by (unfold days_in_month;
          repeat match goal with |- context [if ?b then _ else _] =>
                   destruct b end; lia).
    lia. }
  destruct (match_pattern_head _ _ _ _ _ _ _ _ _ H7 P6) as [u7 P7].
  pose proof (match_literal "-"
                (zero_padded 2 t.(day)
                 ++ " "%char :: zero_padded 2 t.(hour)
                 ++ ":"%char :: zero_padded 2 t.(minute)
                 ++ ":"%char :: zero_padded 2 t.(second) ++ []) eq_refl)
    as H8.
  destruct (match_pattern_head _ _ _ _ _ _ _ _ _ H8 P7) as [u8 P8].
  destruct (match_two_digits Dm 1 12 t.(month)
              ("-"%char :: zero_padded 2 t.(day)
               ++ " "%char :: zero_padded 2 t.(hour)
               ++ ":"%char :: zero_padded 2 t.(minute)
               ++ ":"%char :: zero_padded 2 t.(second) ++ [])) as [t9 H9];
    [simpl; tauto | lia |].
  destruct (match_pattern_head _ _ _ _ _ _ _ _ _ H9 P8) as [u9 P9].
  pose proof (match_literal "-"
                (zero_padded 2 t.(month)
                 ++ "-"%char :: zero_padded 2 t.(day)
                 ++ " "%char :: zero_padded 2 t.(hour)
                 ++ ":"%char :: zero_padded 2 t.(minute)
                 ++ ":"%char :: zero_padded 2 t.(second) ++ []) eq_refl)
    as H10.
  destruct (match_pattern_head _ _ _ _ _ _ _ _ _ H10 P9) as [u10 P10].
  pose proof (match_year t.(year)
                ("-"%char :: zero_padded 2 t.(month)
                 ++ "-"%char :: zero_padded 2 t.(day)
                 ++ " "%char :: zero_padded 2 t.(hour)
                 ++ ":"%char :: zero_padded 2 t.(minute)
                 ++ ":"%char :: zero_padded 2 t.(second) ++ [])) as H11.
  destruct (match_pattern_head _ _ _ _ _ _ _ _ _ H11 P10) as [u11 P11].
  rewrite P11. cbn [group directive_eqb].
  rewrite four_digits_value by lia.
  rewrite !two_digits_value by
    (try lia;
     assert (days_in_month t.(year) t.(month) <= 31)
       by (unfold days_in_month;
           repeat match goal with |- context [if ?b then _ else _] =>
                    destruct b end; lia);
     lia).
  apply datetime_new_ok. exact V.
Qed.

(** [parse_date] reads back what [isoformat] writes for a valid date. *)
Lemma parse_date_isoformat (t : datetime) :
  valid_datetime t -> parse_date (Some (isoformat " " t)) = Some t.
Proof.
  intros V. pose proof V as (_ & _ & _ & _ & _ & _ & HU).
  assert (S : strip (isoformat " " t) = isoformat " " t).
  { unfold strip. rewrite <- (text_chars (isoformat " " t)) at 2. f_equal.
    rewrite (isoformat_chars " " t HU). cbn [zero_padded app].
    apply strip_with_unchanged.
    - apply (digit_char_spec _ (mod10_digit _)).
    - cbn [rev app]. apply (digit_char_spec _ (mod10_digit _)). }
  apply (parse_date_of_format _ "%Y-%m-%d %H:%M:%S").
  - intros E. apply (f_equal chars) in E.
    rewrite (isoformat_chars " " t HU) in E. cbn [zero_padded app] in E.
    discriminate.
  - simpl. tauto.
  - rewrite S. apply strptime_isoformat. exact V.
Qed.

Lemma is_leap_spec (y : Z) : is_leap y = true <-> leap_year y.
Proof.
  unfold is_leap, leap_year.
  rewrite andb_true_iff, orb_true_iff, negb_true_iff, !Z.eqb_eq, Z.eqb_neq.
  rewrite <- !Z.mod_divide by lia.
  split; intros [H4 H]; (split; [exact H4 |]).
  - intros H100. destruct H as [H|H]; [contradiction | exact H].
  - destruct (Z.eq_dec (y mod 100) 0) as [E|E]; auto.
Qed.

(** The range checks of the constructor are those of the calendar. *)
Lemma valid_datetime_calendar (t : datetime) :
  valid_datetime t <-> calendar_datetime t.
Proof.
  unfold valid_datetime, calendar_datetime, calendar_day, days_in_month.
  pose proof (is_leap_spec t.(year)) as L.
  destruct (Z.eqb_spec t.(month) 2) as [E2|E2].
  - destruct (is_leap t.(year)).
    + pose proof (proj1 L eq_refl) as Hl. intuition lia.
    + assert (Hn : ~ leap_year t.(year))
        by (intros Hl; apply L in Hl; discriminate).
      split.
      * intros (Hy & Hm & Hd & Ht). repeat split; intros; lia.
      * intros ((Hy & Hm & Hd & H30 & H2) & Ht).
        destruct (H2 E2) as [H29 Hleap].
        assert (t.(day) <> 29) by (intros E; apply Hn, Hleap, E).
        repeat split; try lia; apply Ht.
  - destruct (Z.eqb_spec t.(month) 4) as [E4|E4];
      destruct (Z.eqb_spec t.(month) 6) as [E6|E6];
      destruct (Z.eqb_spec t.(month) 9) as [E9|E9];
      destruct (Z.eqb_spec t.(month) 11) as [E11|E11];
      cbn [orb]; intuition lia.
Qed.

Lemma process_row_date (py : interp) (w : row) (t : datetime) :
  parse_date (row_get w "Date") = Some t ->
  dict_get w "Currency" = None -> dict_get w "Type" = None ->
  exists r, process_row py w = Ok (Some r) /\ r.(date) = t.
Proof.
  intros Hd Hc Ht. unfold process_row, row_get_default.
  rewrite Hc, Ht, Hd. cbn [cell_strip bind]. eexists. split; reflexivity.
Qed.

(** The one line of [file_of_date] gives a record when its cell parses. *)
Lemma load_file_of_date (py : interp) (cell : string) (t : datetime) :
  parse_date (Some cell) = Some t ->
  map date (load_summaries py [file_of_date cell]) = [t].
Proof.
  intros H.
  destruct (process_row_date py
              (dict_row ["Date"; "Tournament"; "BuyIn"; "Result"]
                        [cell; "Daily"; "10"; "25"]) t)
    as (r & Hr & Hdate); [exact H | reflexivity | reflexivity |].
  rewrite load_summaries_flat_map. cbn [flat_map]. rewrite app_nil_r.
  change (load_file py (file_of_date cell))
    with (load_rows py ["Date"; "Tournament"; "BuyIn"; "Result"]
                    [Line [cell; "Daily"; "10"; "25"]]).
  cbn [load_rows]. rewrite Hr. cbn [fst map]. rewrite Hdate. reflexivity.
Qed.

(** X9.  The dates of the records the loader produces are the dates of
    the Gregorian calendar, year 1 to 9999, with a time of day from
    00:00:00 to 23:59:59 and no microseconds: a record never carries
    another date (no 30th of February, no 29th outside a leap year, no
    31st of April), and each of these dates is the date of the record
    of the line that writes it as YYYY-MM-DD HH:MM:SS. *)
Theorem load_summaries_dates_valid (py : interp) :
  (forall files r,
     In r (load_summaries py files) -> calendar_datetime r.(date))
  /\ (forall t,
        calendar_datetime t ->
        map date (load_summaries py [file_of_date (isoformat " " t)]) = [t]).
Proof.
  split.
  - intros files r H.
    destruct (load_summaries_In py files r H)
      as (fn & evs & cells & _ & _ & Hp).
    destruct (process_row_record py _ _ Hp) as (Hd & _).
    apply valid_datetime_calendar, (parse_date_valid _ _ Hd).
  - intros t Ht. apply load_file_of_date, parse_date_isoformat.
    apply valid_datetime_calendar, Ht.
Qed.

Lemma load_summaries_dates_valid_witness :
  calendar_datetime record_of_profit_file.(date)
  /\ map date (load_summaries cpython312
                 [file_of_date (isoformat " " (midnight 2000 2 29))])
     = [midnight 2000 2 29].
Proof.
  destruct (load_summaries_dates_valid cpython312) as [A B]. split.
  - apply (A [file_with_profit_column]). vm_compute. left. reflexivity.
  - apply B. unfold calendar_datetime, calendar_day, leap_year.
    cbn [midnight year month day hour minute second microsecond].
    repeat split; try lia.
    + exists 500. reflexivity.
    + exists 5. reflexivity.
Defined.

(** X10.  The date column of the saved CSV can be loaded again: for every
    record the loader produced, the first cell of its saved row is the
    date written as YYYY-MM-DD HH:MM:SS, and [parse_date] reads that text
    back as the date of the record. *)
Theorem saved_date_reloads (py : interp) (files : list csv_file)
  (r : TournamentRecord) :
  In r (load_summaries py files) ->
  In (csv_row r) (save_aggregated_csv (load_summaries py files))
  /\ hd VNone (csv_row r) = VStr (isoformat " " r.(date))
  /\ parse_date (Some (isoformat " " r.(date))) = Some r.(date).
Proof.
  intros H. split; [right; apply in_map; exact H |].
  split; [reflexivity |].
  apply parse_date_isoformat.
  destruct (load_summaries_In py files r H) as (fn & evs & cells & _ & _ & Hp).
  destruct (process_row_record py _ _ Hp) as (Hd & _).
  apply (parse_date_valid _ _ Hd).
Qed.

Lemma saved_date_reloads_witness :
  parse_date (Some (isoformat " " record_of_profit_file.(date)))
  = Some record_of_profit_file.(date).
Proof.
  apply (saved_date_reloads cpython312 [file_with_profit_column]).
  vm_compute. left. reflexivity.
Defined.

(** X11.  The limit_group column of the saved CSV agrees with the tier
    table: the last cell of the row saved for a record names a group of
    [aggregate_by_limits] on the same records, and that group counts the
    record among its members. *)
Theorem saved_limit_group (records : list TournamentRecord)
  (r : TournamentRecord) :
  In r records ->
  exists groups v,
    aggregate_by_limits records = Ok groups
    /\ last (csv_row r) VNone = VStr (tier r)
    /\ In (tier r, v) groups
    /\ In r (members tier (tier r) records)
    /\ v.(Group.totals).(Group.count)
       = Z.of_nat (List.length (members tier (tier r) records)).
Proof.
  intros Hr.
  destruct (aggregate_by_groups tier (fun c => c >? 0) records) as [E G].
  { intros c Hc. apply Z.gtb_lt. lia. }
  eexists. exists (derived (sums_of (members tier (tier r) records))).
  split; [exact E |]. split; [reflexivity |].
  assert (Hin : In (tier r, derived (sums_of (members tier (tier r) records)))
                   (map (fun g => (g, derived (sums_of (members tier g records))))
                        (first_seen (map tier records)))).
  { apply (in_map (fun g => (g, derived (sums_of (members tier g records))))).
    apply first_seen_In. apply in_map. exact Hr. }
  split; [exact Hin |]. split.
  - unfold members. apply filter_In. split; [exact Hr | apply String.eqb_refl].
  - apply (proj2 G _ _ Hin).
Qed.

Lemma saved_limit_group_witness :
  exists groups v,
    aggregate_by_limits mixed_records = Ok groups
    /\ last (csv_row (record_at (midnight 2023 1 10) "EUR")) VNone
       = VStr (tier (record_at (midnight 2023 1 10) "EUR"))
    /\ In (tier (record_at (midnight 2023 1 10) "EUR"), v) groups
    /\ In (record_at (midnight 2023 1 10) "EUR")
          (members tier (tier (record_at (midnight 2023 1 10) "EUR"))
                   mixed_records)
    /\ v.(Group.totals).(Group.count)
       = Z.of_nat (List.length
                     (members tier (tier (record_at (midnight 2023 1 10) "EUR"))
                              mixed_records)).
Proof.
  apply (saved_limit_group mixed_records (record_at (midnight 2023 1 10) "EUR")).
  unfold mixed_records. simpl. tauto.
Defined.

(* ================================================================= *)
(** ** More on the filter stage *)

(** With its bounds read, [filter_records] is a filter. *)
Lemma filter_records_filter (records : list TournamentRecord)
  (cur min_date max_date : option string) (d_min d_max : option datetime) :
  date_bound min_date = Ok d_min -> date_bound max_date = Ok d_max ->
  filter_records records cur min_date max_date
  = Ok (filter (fun r => negb (skipped cur d_min d_max r)) records).
Proof.
  intros Hmin Hmax. unfold filter_records. rewrite Hmin, Hmax. cbn [bind].
  rewrite fold_append_filter. reflexivity.
Qed.

Lemma filter_all {A : Type} (p : A -> bool) (l : list A) :
  (forall a, In a l -> p a = true) -> filter p l = l.
Proof.
  induction l as [|a l IH]; intros H; simpl; [reflexivity |].
  rewrite (H a (or_introl eq_refl)), IH; [reflexivity |].
  intros b Hb. apply H. right. exact Hb.
Qed.

Lemma filter_none {A : Type} (p : A -> bool) (l : list A) :
  (forall a, In a l -> p a = false) -> filter p l = [].
Proof.
  induction l as [|a l IH]; intros H; simpl; [reflexivity |].
  rewrite (H a (or_introl eq_refl)). apply IH.
  intros b Hb. apply H. right. exact Hb.
Qed.

Lemma filter_twice {A : Type} (p q : A -> bool) (l : list A) :
  filter q (filter p l) = filter (fun a => p a && q a) l.
Proof.
  induction l as [|a l IH]; simpl; [reflexivity |].
  destruct (p a); simpl; [destruct (q a) |]; rewrite IH; reflexivity.
Qed.

(** X12.  Without a currency and without dates, or with empty texts in
    their place, [filter_records] returns its input unchanged. *)
Theorem filter_records_no_filter (records : list TournamentRecord) :
  filter_records records None None None = Ok records
  /\ filter_records records (Some "") (Some "") (Some "") = Ok records.
Proof.
  split.
  - rewrite (filter_records_filter records None None None None None)
      by reflexivity.
    f_equal. apply filter_all. reflexivity.
  - rewrite (filter_records_filter records (Some "") (Some "") (Some "")
               None None) by reflexivity.
    f_equal. apply filter_all. reflexivity.
Qed.

(** X13.  Filtering can be done in passes: by currency first and by dates
    afterwards gives what one call with all three arguments gives (the
    same list, or the same exception for a date that does not parse), and
    filtering a filtered list again with the same arguments changes
    nothing. *)
Theorem filter_records_passes (records : list TournamentRecord)
  (cur min_date max_date : option string) :
  (rs <- filter_records records cur None None ;;
   filter_records rs None min_date max_date)
  = filter_records records cur min_date max_date
  /\ (rs <- filter_records records cur min_date max_date ;;
      filter_records rs cur min_date max_date)
     = filter_records records cur min_date max_date.
Proof.
  rewrite (filter_records_filter records cur None None None None)
    by reflexivity.
  cbn [bind].
  destruct (date_bound min_date) as [d_min|e] eqn:Hmin.
  2:{ unfold filter_records. rewrite Hmin. split; reflexivity. }
  destruct (date_bound max_date) as [d_max|e] eqn:Hmax.
  2:{ unfold filter_records. rewrite Hmin, Hmax. split; reflexivity. }
  rewrite (filter_records_filter records cur _ _ _ _ Hmin Hmax). cbn [bind].
  rewrite !(filter_records_filter _ _ _ _ _ _ Hmin Hmax).
  split; f_equal; rewrite filter_twice; apply filter_ext; intros r.
  - unfold skipped. cbn [truthy_opt andb orb].
    destruct (truthy_opt cur && _); reflexivity.
  - destruct (skipped cur d_min d_max r); reflexivity.
Qed.

(** The field-by-field order is a strict total order: what is not before
    [a] is after anything before [a]. *)
Lemma lex_compare_after (t : list Z) :
  forall a b, lex_compare b a = Lt -> lex_compare t a <> Lt ->
              lex_compare t b = Gt.
Proof.
  induction t as [|x t IH]; intros [|y a] [|z b]; cbn [lex_compare];
    try congruence.
  destruct (Z.compare_spec z y) as [Ezy|Hzy|Hzy]; try congruence.
  - subst z. intros Hb.
    destruct (Z.compare_spec x y) as [Exy|Hxy|Hxy]; try congruence.
    apply IH. exact Hb.
  - intros _.
    destruct (Z.compare_spec x y) as [Exy|Hxy|Hxy]; try congruence; intros _;
      destruct (Z.compare_spec x z); try lia; reflexivity.
Qed.

(** X14.  When the upper day lies before the lower day, no record passes:
    [filter_records] returns the empty list. *)
Theorem filter_records_inverted_bounds (records : list TournamentRecord)
  (cur min_date max_date : option string) (a b : datetime) :
  day_bound min_date (Some a) -> day_bound max_date (Some b) ->
  dt_lt b a = true ->
  filter_records records cur min_date max_date = Ok [].
Proof.
  intros Hmin Hmax Hba.
  rewrite (filter_records_filter records cur min_date max_date _ _
             (day_bound_date_bound _ _ Hmin) (day_bound_date_bound _ _ Hmax)).
  f_equal. apply filter_none. intros r _.
  unfold skipped. destruct (dt_lt r.(date) a) eqn:L.
  - rewrite orb_true_r. reflexivity.
  - assert (G : dt_gt r.(date) b = true).
    { unfold dt_lt, dt_gt in *.
      rewrite (lex_compare_after (dt_fields r.(date)) (dt_fields a)
                 (dt_fields b)).
      - reflexivity.
      - destruct (lex_compare (dt_fields b) (dt_fields a)); congruence.
      - destruct (lex_compare (dt_fields r.(date)) (dt_fields a));
          congruence. }
    rewrite G, orb_true_r. reflexivity.
Qed.

Lemma filter_records_inverted_bounds_witness :
  filter_records mixed_records None (Some "2023-01-15") (Some "2023-01-01")
  = Ok [].
Proof.
  apply (filter_records_inverted_bounds mixed_records None
           (Some "2023-01-15") (Some "2023-01-01")
           (midnight 2023 1 15) (midnight 2023 1 1));
    try (apply bound_day; [discriminate | vm_compute; reflexivity]).
  reflexivity.
Defined.

(* ================================================================= *)
(** ** More on the aggregations *)

Lemma get_limit_group_label (b : num) :
  In (get_limit_group b)
     ["Micro (0–5)"; "Low (5–22)"; "Mid (22–109)"; "High (109+)"].
Proof.
  unfold get_limit_group.
  destruct (py_lt b (PInt 5)); [simpl; auto |].
  destruct (py_lt b (PInt 22)); [simpl; auto |].
  destruct (py_lt b (PInt 109)); simpl; auto.
Qed.

(** X15.  The tier table never has more than four groups: its keys are
    distinct and each is one of the four tier labels. *)
Theorem aggregate_by_limits_four_tiers (records : list TournamentRecord) :
  exists groups,
    aggregate_by_limits records = Ok groups
    /\ NoDup (dict_keys groups)
    /\ incl (dict_keys groups)
            ["Micro (0–5)"; "Low (5–22)"; "Mid (22–109)"; "High (109+)"]
    /\ (List.length groups <= 4)%nat.
Proof.
  destruct (aggregate_by_groups tier (fun c => c >? 0) records) as [E G].
  { intros c Hc. apply Z.gtb_lt. lia. }
  eexists. split; [exact E |]. destruct G as [Hkeys _].
  assert (ND : NoDup (first_seen (map tier records)))
    by apply first_seen_NoDup.
  assert (I : incl (first_seen (map tier records))
                   ["Micro (0–5)"; "Low (5–22)"; "Mid (22–109)";
                    "High (109+)"]).
  { intros g Hg. apply first_seen_In, in_map_iff in Hg.
    destruct Hg as (r & <- & _). apply get_limit_group_label. }
  rewrite Hkeys. split; [exact ND |]. split; [exact I |].
  rewrite length_map. apply (NoDup_incl_length ND I).
Qed.

(** [aggregate_overall] returns, with the count, the two sums and the
    average buy-in as follows. *)
Lemma aggregate_overall_returns (py : interp)
  (records : list TournamentRecord) :
  exists o,
    aggregate_overall py records = Ok o
    /\ o.(Overall.total_tournaments) = Z.of_nat (List.length records)
    /\ o.(Overall.total_buyin) = py_sum py (map buyin_total records)
    /\ o.(Overall.total_prize) = py_sum py (map prize records)
    /\ (records <> [] ->
        o.(Overall.abi)
        = PFloat (fdiv (as_float (py_sum py (map buyin_total records)))
                       (float_of_Z (Z.of_nat (List.length records))))).
Proof.
  destruct records as [|r records].
  { eexists. split; [reflexivity |]. cbn. repeat split; congruence. }
  unfold aggregate_overall.
  rewrite int_sum_ones. fold (in_the_money (r :: records)).
  remember (Z.of_nat (List.length (r :: records))) as n eqn:En.
  assert (Hn : 0 < n) by (rewrite En; simpl List.length; lia).
  assert (Hk : 0 <= in_the_money (r :: records) <= n).
  { unfold in_the_money. rewrite En. split; [lia |].
    apply inj_le. apply filter_length_le. }
  remember (in_the_money (r :: records)) as k eqn:Ek.
  assert (Hb : exists tb, py_sum py (map buyin_total (r :: records)) = PFloat tb)
    by (simpl; eauto).
  assert (Hp : exists tp, py_sum py (map prize (r :: records)) = PFloat tp)
    by (simpl; eauto).
  destruct Hb as [tb Hb]. destruct Hp as [tp Hp]. rewrite Hb, Hp.
  assert (Hg : (n >? 0) = true) by (apply Z.gtb_lt; exact Hn).
  rewrite Hg. unfold percent_if, ratio_if.
  rewrite (py_truediv_count _ _ Hk Hn), (py_truediv_float_int _ _ Hn).
  cbn [py_sub as_float].
  destruct (py_gt (PFloat tb) (PInt 0)) eqn:G.
  - rewrite (py_truediv_float_pos _ _ G). cbn [bind].
    eexists. split; [reflexivity |]. cbn. repeat split; reflexivity.
  - cbn [bind].
    eexists. split; [reflexivity |]. cbn. repeat split; reflexivity.
Qed.

(** X16.  The type table splits the records as the summary counts them:
    every record belongs to the group of its own type and to no other,
    and the counts of the groups add up to [total_tournaments] of the
    overall summary, as do the counts of the tier table. *)
Theorem tables_count_every_record (py : interp)
  (records : list TournamentRecord) :
  exists o limits types,
    aggregate_overall py records = Ok o
    /\ aggregate_by_limits records = Ok limits
    /\ aggregate_by_type records = Ok types
    /\ (forall r, In r records ->
          In r.(t_type) (dict_keys types)
          /\ forall g, In r (members t_type g records) <-> g = r.(t_type))
    /\ Zsum (map (fun gv => (snd gv).(Group.totals).(Group.count)) types)
       = o.(Overall.total_tournaments)
    /\ Zsum (map (fun gv => (snd gv).(Group.totals).(Group.count)) limits)
       = o.(Overall.total_tournaments).
Proof.
  destruct (aggregate_overall_returns py records) as (o & Eo & Ho & _).
  destruct (aggregate_by_groups tier (fun c => c >? 0) records) as [El Gl].
  { intros c Hc. apply Z.gtb_lt. lia. }
  destruct (aggregate_by_groups t_type int_truthy records) as [Et Gt].
  { intros c Hc. unfold int_truthy.
    rewrite (proj2 (Z.eqb_neq c 0)) by lia. reflexivity. }
  exists o. eexists. eexists.
  split; [exact Eo |]. split; [exact El |]. split; [exact Et |].
  assert (C : forall key : TournamentRecord -> string,
             Zsum (map (fun gv : string * Group.t =>
                          (snd gv).(Group.totals).(Group.count))
                       (map (fun g => (g, derived (sums_of (members key g records))))
                            (first_seen (map key records))))
             = Z.of_nat (List.length records)).
  { intros key. rewrite map_map. cbn [snd derived Group.totals].
    rewrite <- (members_partition key (first_seen (map key records)) records).
    - f_equal. apply map_ext. intros g.
      apply (proj1 (sums_of_fields (members key g records))).
    - apply first_seen_NoDup.
    - intros r Hr. apply first_seen_In. apply in_map. exact Hr. }
  split.
  { intros r Hr. split.
    - rewrite (proj1 Gt). apply first_seen_In. apply in_map. exact Hr.
    - intros g. unfold members. rewrite filter_In. split.
      + intros [_ H]. apply String.eqb_eq in H. congruence.
      + intros ->. split; [exact Hr | apply String.eqb_refl]. }
  rewrite Ho. split; apply C.
Qed.

Lemma first_seen_constant (k : string) (l : list string) :
  l <> [] -> (forall x, In x l -> x = k) -> first_seen l = [k].
Proof.
  induction l as [|a l IH]; [congruence |]. intros _ H.
  rewrite (H a (or_introl eq_refl)). cbn [first_seen]. f_equal.
  apply filter_none. intros x Hx. apply (proj1 (first_seen_In _ _)) in Hx.
  rewrite (H x (or_intror Hx)), String.eqb_refl. reflexivity.
Qed.

(** With plain summation the [sum] builtin and repeated [+=] perform the
    same additions. *)
Lemma running_sum_plain (py : interp) (xs : list float) :
  sum_compensated py = false -> running_sum xs = py_sum py xs.
Proof.
  intros H. unfold running_sum, py_sum. rewrite H.
  destruct xs as [|x xs]; [reflexivity |]. cbn [map fold_left].
  unfold sum_loop_plain. cbn [py_add as_float].
  generalize (fadd (float_of_Z 0) x). induction xs as [|y xs IH]; intros a;
    cbn [map fold_left]; [reflexivity | apply IH].
Qed.

(** X17.  On an interpreter whose [sum] adds plainly (CPython up to 3.11),
    when all the records have the same type the one group of the type
    table agrees with the summary: same count, same summed buy-in, same
    summed prize and same average buy-in. *)
Theorem single_type_matches_summary (py : interp)
  (records : list TournamentRecord) (kind : string) :
  sum_compensated py = false ->
  records <> [] ->
  (forall r, In r records -> r.(t_type) = kind) ->
  exists o v,
    aggregate_overall py records = Ok o
    /\ aggregate_by_type records = Ok [(kind, v)]
    /\ v.(Group.totals).(Group.count) = o.(Overall.total_tournaments)
    /\ v.(Group.totals).(Group.buyin) = o.(Overall.total_buyin)
    /\ v.(Group.totals).(Group.prize) = o.(Overall.total_prize)
    /\ v.(Group.abi) = o.(Overall.abi).
Proof.
  intros Hpy Hne Hk.
  destruct (aggregate_overall_returns py records)
    as (o & Eo & Hcount & Hbuyin & Hprize & Habi).
  destruct (aggregate_by_groups t_type int_truthy records) as [Et _].
  { intros c Hc. unfold int_truthy.
    rewrite (proj2 (Z.eqb_neq c 0)) by lia. reflexivity. }
  assert (Hkeys : first_seen (map t_type records) = [kind]).
  { apply first_seen_constant.
    - destruct records; [congruence | discriminate].
    - intros x Hx. apply in_map_iff in Hx. destruct Hx as (r & <- & Hr).
      apply Hk. exact Hr. }
  assert (Hm : members t_type kind records = records).
  { unfold members. apply filter_all. intros r Hr.
    rewrite (Hk r Hr). apply String.eqb_refl. }
  rewrite Hkeys in Et. cbn [map] in Et. rewrite Hm in Et.
  exists o, (derived (sums_of records)).
  split; [exact Eo |]. split; [exact Et |].
  destruct (sums_of_fields records) as (Hc & Hb & Hp & _).
  cbn [derived Group.totals Group.abi].
  rewrite Hc, Hb, Hp, Hcount, Hbuyin, Hprize, (Habi Hne).
  rewrite !(running_sum_plain py _ Hpy). auto.
Qed.

Lemma single_type_matches_summary_witness :
  exists o v,
    aggregate_overall cpython310 mixed_records = Ok o
    /\ aggregate_by_type mixed_records = Ok [("Unknown", v)]
    /\ v.(Group.totals).(Group.count) = o.(Overall.total_tournaments)
    /\ v.(Group.totals).(Group.buyin) = o.(Overall.total_buyin)
    /\ v.(Group.totals).(Group.prize) = o.(Overall.total_prize)
    /\ v.(Group.abi) = o.(Overall.abi).
Proof.
  apply (single_type_matches_summary cpython310 mixed_records "Unknown").
  - reflexivity.
  - discriminate.
  - unfold mixed_records. simpl.
    intros r [<-|[<-|[<-|[<-|[<-|[<-|[]]]]]]]; reflexivity.
Defined.

(* ================================================================= *)
(** ** File discovery and the whole run *)

Lemma ends_with_spec (s suffix : string) :
  ends_with s suffix = true <-> exists stem, chars s = stem ++ chars suffix.
Proof.
  unfold ends_with. rewrite andb_true_iff, Nat.leb_le, String.eqb_eq. split.
  - intros [Hlen E].
    exists (firstn (List.length (chars s) - List.length (chars suffix))
                   (chars s)).
    rewrite <- E at 2. rewrite chars_text. symmetry. apply firstn_skipn.
  - intros [stem E]. rewrite E, length_app. split; [lia |].
    replace (List.length stem + List.length (chars suffix)
             - List.length (chars suffix))%nat
      with (List.length stem) by lia.
    assert (S : forall a b : list ascii, skipn (List.length a) (a ++ b) = b)
      by (induction a; intros b; simpl; auto).
    rewrite S. apply text_chars.
Qed.

Lemma fold_append_flat_map {A B : Type} (f : A -> list B) (l : list A)
  (acc : list B) :
  fold_left (fun result a => result ++ f a) l acc = acc ++ flat_map f l.
Proof.
  revert acc. induction l as [|a l IH]; intros acc; simpl.
  - now rewrite app_nil_r.
  - rewrite IH, app_assoc. reflexivity.
Qed.

(** X18.  [discover_files] ends the run with code 1 when nothing is at the
    path, returns a path that is a file as it is, whatever its name, and
    for a directory returns, in the order of the walk, the joined paths
    of the files whose name in lower case ends with ".csv" in the mode
    "summaries" and with ".txt" in any other mode. *)
Theorem discover_files_extension (join : string -> string -> string)
  (walk : list (string * list string)) (path mode : string) :
  discover_files join Missing path mode = Exit 1
  /\ discover_files join RegularFile path mode = Done [path]
  /\ discover_files join (Directory walk) path mode
     = Done (flat_map
               (fun rf =>
                  map (join (fst rf))
                      (filter (fun f => ends_with (lower_text f)
                                                  (extension mode))
                              (snd rf)))
               walk)
  /\ forall f,
       ends_with (lower_text f) (extension mode) = true <->
       exists stem, map lower (chars f) = stem ++ chars (extension mode).
Proof.
  split; [reflexivity |]. split; [reflexivity |]. split.
  - unfold discover_files. fold (extension mode). f_equal.
    assert (G : forall (root : string) files acc,
               fold_left (fun result f =>
                            if ends_with (lower_text f) (extension mode)
                            then result ++ [join root f] else result)
                         files acc
               = acc ++ map (join root)
                            (filter (fun f => ends_with (lower_text f)
                                                        (extension mode))
                                    files)).
    { intros root files. induction files as [|f files IH]; intros acc; simpl.
      - now rewrite app_nil_r.
      - rewrite IH. destruct (ends_with (lower_text f) (extension mode));
          simpl; [now rewrite <- app_assoc | reflexivity]. }
    assert (E : forall l acc,
               fold_left
                 (fun result (rf : string * list string) =>
                    fold_left (fun result f =>
                                 if ends_with (lower_text f) (extension mode)
                                 then result ++ [join (fst rf) f] else result)
                              (snd rf) result) l acc
               = fold_left
                   (fun result (rf : string * list string) =>
                      result ++ map (join (fst rf))
                                    (filter (fun f => ends_with (lower_text f)
                                                                (extension mode))
                                            (snd rf))) l acc).
    { induction l as [|rf l IH]; intros acc; simpl; [reflexivity |].
      rewrite G. apply IH. }
    rewrite E, fold_append_flat_map. reflexivity.
  - intros f. rewrite ends_with_spec. unfold lower_text.
    rewrite chars_text. reflexivity.
Qed.

Lemma strptime_raises_value_error (s fmt : string) (e : exn) :
  strptime s fmt = Raise e -> e = ValueError.
Proof.
  unfold strptime. destruct (compile_format (chars fmt)); [| congruence].
  destruct (match_pattern _ _) as [|(cs, [|c r]) rest]; try congruence.
  unfold datetime_new. destruct (_ && _); congruence.
Qed.

Lemma date_bound_raises (o : option string) (e : exn) :
  date_bound o = Raise e -> e = ValueError /\ bad_day o.
Proof.
  unfold date_bound, bad_day. destruct o as [s|]; [| discriminate].
  destruct s as [|c s]; [discriminate |]. cbn [truthy].
  destruct (strptime (String c s) "%Y-%m-%d") as [b|e'] eqn:E;
    [discriminate |].
  cbn [bind]. intros H. injection H as <-.
  split; [apply (strptime_raises_value_error _ _ _ E) |].
  exists (String c s). split; [reflexivity |]. split; [discriminate |].
  exists e'. exact E.
Qed.

Lemma filter_records_raises (records : list TournamentRecord)
  (cur min_date max_date : option string) (e : exn) :
  filter_records records cur min_date max_date = Raise e ->
  e = ValueError /\ (bad_day min_date \/ bad_day max_date).
Proof.
  unfold filter_records.
  destruct (date_bound min_date) as [d_min|e1] eqn:Hmin.
  - destruct (date_bound max_date) as [d_max|e2] eqn:Hmax; [discriminate |].
    cbn [bind]. intros H. injection H as <-.
    destruct (date_bound_raises _ _ Hmax). auto.
  - cbn [bind]. intros H. injection H as <-.
    destruct (date_bound_raises _ _ Hmin). auto.
Qed.

Section MainFacts.

Variable py : interp.
Variable join : string -> string -> string.
Variable entry_of : string -> path_entry.
Variable read_csv : string -> string -> string -> csv_file.

(** X19.  Between reading its arguments and printing its results, a run
    leaves through [sys.exit] with code 1 only, and the one exception
    that reaches the top is the [ValueError] of a min-date or max-date
    argument that does not read as YYYY-MM-DD: no unreadable file,
    malformed cell, missing key or division by zero ends a run. *)
Theorem main_failures (args : Args.t) :
  (forall code, main py join entry_of read_csv args = Exit code -> code = 1)
  /\ (forall e,
        main py join entry_of read_csv args = Uncaught e ->
        e = ValueError
        /\ (bad_day args.(Args.min_date) \/ bad_day args.(Args.max_date))).
Proof.
  unfold main.
  destruct (discover_files join (entry_of args.(Args.input))
              args.(Args.input) args.(Args.mode)) as [files|c|e] eqn:D.
  2:{ unfold discover_files in D.
      destruct (entry_of args.(Args.input)); try discriminate.
      injection D as <-. split; [congruence | discriminate]. }
  2:{ unfold discover_files in D.
      destruct (entry_of args.(Args.input)); discriminate. }
  destruct (List.length files =? 0)%nat; [split; [congruence | discriminate] |].
  destruct (List.length (load_summaries py _) =? 0)%nat;
    [split; [congruence | discriminate] |].
  destruct (filter_records _ args.(Args.currency) args.(Args.min_date)
              args.(Args.max_date)) as [records|e] eqn:F; cbn [uncaught].
  2:{ split; [discriminate |]. intros e' H. injection H as <-.
      apply (filter_records_raises _ _ _ _ _ F). }
  destruct (List.length records =? 0)%nat;
    [split; [congruence | discriminate] |].
  destruct (aggregate_overall_returns py records) as (o & -> & _).
  destruct (aggregate_by_groups tier (fun c => c >? 0) records) as [El _].
  { intros c Hc. apply Z.gtb_lt. lia. }
  destruct (aggregate_by_groups t_type int_truthy records) as [Et _].
  { intros c Hc. unfold int_truthy.
    rewrite (proj2 (Z.eqb_neq c 0)) by lia. reflexivity. }
  unfold aggregate_by_limits, aggregate_by_type. fold tier.
  rewrite El. change (fun r => r.(t_type)) with t_type. rewrite Et.
  cbn [uncaught]. split; discriminate.
Qed.


End MainFacts.

Lemma main_failures_witness :
  main cpython312 sample_join sample_entry_of sample_read_csv
       (sample_args (Some "15.01.2023"))
  = Uncaught ValueError
  /\ (bad_day (Some "15.01.2023") \/ bad_day None).
Proof.
  split; [vm_compute; reflexivity |].
  apply (proj2 (main_failures cpython312 sample_join sample_entry_of
                  sample_read_csv (sample_args (Some "15.01.2023")))
               ValueError).
  vm_compute. reflexivity.
Defined.

